(** * A full duplex software UART for the ATtiny85 (fd-serial.c)

    Shallow embedding of [fd-serial.c]: the UART instance [fd_uart1], the
    I/O registers the code touches, the three interrupt handlers and the
    foreground API, as whole calls and access by access, followed by the
    properties of the transmit engine, the receive engine, the ring buffer,
    the timing arithmetic and the races between foreground and handlers.

    Platform conventions (avr-gcc, ATtiny85): [uint8_t] and [unsigned char]
    are 8 bits, [uint32_t] is 32 bits, plain [char] is a signed 8-bit type,
    and every store into a narrower object truncates.  Registers are 8 bits
    wide. *)

From Stdlib Require Import ZArith Lia.
From stdpp Require Import base list.
Local Open Scope Z_scope.

(** ** Fixed-width arithmetic *)

(** Value stored into a [uint8_t]. *)
Definition u8 (z : Z) : Z := z mod 256.

(** Value stored into a [uint32_t]. *)
Definition u32 (z : Z) : Z := z mod 2 ^ 32.

(** Value stored into a (signed) [char]. *)
Definition s8 (z : Z) : Z :=
  let r := z mod 256 in if r <? 128 then r else r - 256.

(** [r |= mask] and [r &= ~mask] on an 8-bit register. *)
Definition reg_or (r mask : Z) : Z := u8 (Z.lor r mask).
Definition reg_andnot (r mask : Z) : Z := u8 (Z.land r (Z.lnot mask)).

(** A write to an interrupt flag register clears the flags written as one
    and leaves the others (GIFR and TIFR on the ATtiny85). *)
Definition flag_write (old written : Z) : Z := u8 (Z.land old (Z.lnot written)).

(** ** Bit positions of <avr/io.h> for the ATtiny85 *)

Definition CS10 : Z := 0.
Definition CS11 : Z := 1.
Definition COM1A0 : Z := 4.
Definition COM1A1 : Z := 5.
Definition CTC1 : Z := 7.
Definition OCIE1A : Z := 6.
Definition OCIE1B : Z := 5.
Definition OCF1B : Z := 5.
Definition INT0 : Z := 6.
Definition INTF0 : Z := 6.
Definition ISC01 : Z := 1.
Definition PORTB2 : Z := 2.
Definition PORTB3 : Z := 3.

(** ** Build-time constants of fd-serial.c *)

Definition CPU_FREQ : Z := 8000000.
Definition PRESCALER : Z := Z.lor (Z.shiftl 1 CS11) (Z.shiftl 1 CS10).
Definition PRESCALER_DIVISOR : Z := 4.
Definition SERIAL_TOP : Z := 207.
Definition SERIAL_HALFBIT : Z := 104.

(** Modelled from the spec: the pin masks [S1_TX_PIN] and [S1_RX_PIN] are
    macros of fd-serial.h, which is not part of the sources at hand.  The
    head comment of fd-serial.c and the spec agree that TX is PORTB3 and
    that RX is PORTB2, the INT0 pin. *)
Definition S1_TX_PIN : Z := Z.shiftl 1 PORTB3.
Definition S1_RX_PIN : Z := Z.shiftl 1 PORTB2.

(** ** The UART instance *)

(** Modelled from the spec: [struct fd_uart] is declared in fd-serial.h,
    which is not part of the sources at hand.  The fields are the ones
    fd-serial.c uses.  All of them are bytes, except [delay], which
    receives the [uint32_t] cycle count of [fdserial_alarm] and is 32 bits
    wide, and [rx_buf], the array of [RING_BUFFER] bytes of ring mode. *)
Record fd_uart := Uart {
  send_ready : Z;
  tx_state : Z;
  send_byte : Z;
  send_bits : Z;
  delay : Z;
  available : Z;
  rx_state : Z;
  recv_shift : Z;
  recv_bits : Z;
  recv_byte : Z;
  rx_head : Z;
  rx_tail : Z;
  rx_buf : list Z
}.

(** The I/O registers read or written by fd-serial.c. *)
Record avr_io := Io {
  TCCR1 : Z;
  GIFR : Z;
  GIMSK : Z;
  TIMSK : Z;
  TIFR : Z;
  MCUCR : Z;
  TCNT1 : Z;
  OCR1A : Z;
  OCR1B : Z;
  OCR1C : Z;
  DDRB : Z;
  PORTB : Z;
  PINB : Z
}.

(** The whole machine: the static [fd_uart1] and the register file. *)
Record mcu := Mcu {
  fd_uart1 : fd_uart;
  io : avr_io
}.

(** Field updates. *)
Definition set_send_ready (v : Z) (u : fd_uart) : fd_uart :=
  Uart v (tx_state u) (send_byte u) (send_bits u) (delay u) (available u) (rx_state u) (recv_shift u) (recv_bits u) (recv_byte u) (rx_head u) (rx_tail u) (rx_buf u).
Definition set_tx_state (v : Z) (u : fd_uart) : fd_uart :=
  Uart (send_ready u) v (send_byte u) (send_bits u) (delay u) (available u) (rx_state u) (recv_shift u) (recv_bits u) (recv_byte u) (rx_head u) (rx_tail u) (rx_buf u).
Definition set_send_byte (v : Z) (u : fd_uart) : fd_uart :=
  Uart (send_ready u) (tx_state u) v (send_bits u) (delay u) (available u) (rx_state u) (recv_shift u) (recv_bits u) (recv_byte u) (rx_head u) (rx_tail u) (rx_buf u).
Definition set_send_bits (v : Z) (u : fd_uart) : fd_uart :=
  Uart (send_ready u) (tx_state u) (send_byte u) v (delay u) (available u) (rx_state u) (recv_shift u) (recv_bits u) (recv_byte u) (rx_head u) (rx_tail u) (rx_buf u).
Definition set_delay (v : Z) (u : fd_uart) : fd_uart :=
  Uart (send_ready u) (tx_state u) (send_byte u) (send_bits u) v (available u) (rx_state u) (recv_shift u) (recv_bits u) (recv_byte u) (rx_head u) (rx_tail u) (rx_buf u).
Definition set_available (v : Z) (u : fd_uart) : fd_uart :=
  Uart (send_ready u) (tx_state u) (send_byte u) (send_bits u) (delay u) v (rx_state u) (recv_shift u) (recv_bits u) (recv_byte u) (rx_head u) (rx_tail u) (rx_buf u).
Definition set_rx_state (v : Z) (u : fd_uart) : fd_uart :=
  Uart (send_ready u) (tx_state u) (send_byte u) (send_bits u) (delay u) (available u) v (recv_shift u) (recv_bits u) (recv_byte u) (rx_head u) (rx_tail u) (rx_buf u).
Definition set_recv_shift (v : Z) (u : fd_uart) : fd_uart :=
  Uart (send_ready u) (tx_state u) (send_byte u) (send_bits u) (delay u) (available u) (rx_state u) v (recv_bits u) (recv_byte u) (rx_head u) (rx_tail u) (rx_buf u).
Definition set_recv_bits (v : Z) (u : fd_uart) : fd_uart :=
  Uart (send_ready u) (tx_state u) (send_byte u) (send_bits u) (delay u) (available u) (rx_state u) (recv_shift u) v (recv_byte u) (rx_head u) (rx_tail u) (rx_buf u).
Definition set_recv_byte (v : Z) (u : fd_uart) : fd_uart :=
  Uart (send_ready u) (tx_state u) (send_byte u) (send_bits u) (delay u) (available u) (rx_state u) (recv_shift u) (recv_bits u) v (rx_head u) (rx_tail u) (rx_buf u).
Definition set_rx_head (v : Z) (u : fd_uart) : fd_uart :=
  Uart (send_ready u) (tx_state u) (send_byte u) (send_bits u) (delay u) (available u) (rx_state u) (recv_shift u) (recv_bits u) (recv_byte u) v (rx_tail u) (rx_buf u).
Definition set_rx_tail (v : Z) (u : fd_uart) : fd_uart :=
  Uart (send_ready u) (tx_state u) (send_byte u) (send_bits u) (delay u) (available u) (rx_state u) (recv_shift u) (recv_bits u) (recv_byte u) (rx_head u) v (rx_buf u).
Definition set_rx_buf (v : list Z) (u : fd_uart) : fd_uart :=
  Uart (send_ready u) (tx_state u) (send_byte u) (send_bits u) (delay u) (available u) (rx_state u) (recv_shift u) (recv_bits u) (recv_byte u) (rx_head u) (rx_tail u) v.

Definition set_TCCR1 (v : Z) (r : avr_io) : avr_io :=
  Io v (GIFR r) (GIMSK r) (TIMSK r) (TIFR r) (MCUCR r) (TCNT1 r) (OCR1A r) (OCR1B r) (OCR1C r) (DDRB r) (PORTB r) (PINB r).
Definition set_GIFR (v : Z) (r : avr_io) : avr_io :=
  Io (TCCR1 r) v (GIMSK r) (TIMSK r) (TIFR r) (MCUCR r) (TCNT1 r) (OCR1A r) (OCR1B r) (OCR1C r) (DDRB r) (PORTB r) (PINB r).
Definition set_GIMSK (v : Z) (r : avr_io) : avr_io :=
  Io (TCCR1 r) (GIFR r) v (TIMSK r) (TIFR r) (MCUCR r) (TCNT1 r) (OCR1A r) (OCR1B r) (OCR1C r) (DDRB r) (PORTB r) (PINB r).
Definition set_TIMSK (v : Z) (r : avr_io) : avr_io :=
  Io (TCCR1 r) (GIFR r) (GIMSK r) v (TIFR r) (MCUCR r) (TCNT1 r) (OCR1A r) (OCR1B r) (OCR1C r) (DDRB r) (PORTB r) (PINB r).
Definition set_TIFR (v : Z) (r : avr_io) : avr_io :=
  Io (TCCR1 r) (GIFR r) (GIMSK r) (TIMSK r) v (MCUCR r) (TCNT1 r) (OCR1A r) (OCR1B r) (OCR1C r) (DDRB r) (PORTB r) (PINB r).
Definition set_MCUCR (v : Z) (r : avr_io) : avr_io :=
  Io (TCCR1 r) (GIFR r) (GIMSK r) (TIMSK r) (TIFR r) v (TCNT1 r) (OCR1A r) (OCR1B r) (OCR1C r) (DDRB r) (PORTB r) (PINB r).
Definition set_TCNT1 (v : Z) (r : avr_io) : avr_io :=
  Io (TCCR1 r) (GIFR r) (GIMSK r) (TIMSK r) (TIFR r) (MCUCR r) v (OCR1A r) (OCR1B r) (OCR1C r) (DDRB r) (PORTB r) (PINB r).
Definition set_OCR1A (v : Z) (r : avr_io) : avr_io :=
  Io (TCCR1 r) (GIFR r) (GIMSK r) (TIMSK r) (TIFR r) (MCUCR r) (TCNT1 r) v (OCR1B r) (OCR1C r) (DDRB r) (PORTB r) (PINB r).
Definition set_OCR1B (v : Z) (r : avr_io) : avr_io :=
  Io (TCCR1 r) (GIFR r) (GIMSK r) (TIMSK r) (TIFR r) (MCUCR r) (TCNT1 r) (OCR1A r) v (OCR1C r) (DDRB r) (PORTB r) (PINB r).
Definition set_OCR1C (v : Z) (r : avr_io) : avr_io :=
  Io (TCCR1 r) (GIFR r) (GIMSK r) (TIMSK r) (TIFR r) (MCUCR r) (TCNT1 r) (OCR1A r) (OCR1B r) v (DDRB r) (PORTB r) (PINB r).
Definition set_DDRB (v : Z) (r : avr_io) : avr_io :=
  Io (TCCR1 r) (GIFR r) (GIMSK r) (TIMSK r) (TIFR r) (MCUCR r) (TCNT1 r) (OCR1A r) (OCR1B r) (OCR1C r) v (PORTB r) (PINB r).
Definition set_PORTB (v : Z) (r : avr_io) : avr_io :=
  Io (TCCR1 r) (GIFR r) (GIMSK r) (TIMSK r) (TIFR r) (MCUCR r) (TCNT1 r) (OCR1A r) (OCR1B r) (OCR1C r) (DDRB r) v (PINB r).
Definition set_PINB (v : Z) (r : avr_io) : avr_io :=
  Io (TCCR1 r) (GIFR r) (GIMSK r) (TIMSK r) (TIFR r) (MCUCR r) (TCNT1 r) (OCR1A r) (OCR1B r) (OCR1C r) (DDRB r) (PORTB r) v.

(** ** Timer and interrupt switches *)

Definition _starttimer (r : avr_io) : avr_io :=
  set_TCCR1 (reg_or (TCCR1 r) PRESCALER) r.

Definition _stoptimer (r : avr_io) : avr_io :=
  set_TCCR1 (reg_andnot (TCCR1 r) PRESCALER) r.

Definition _enable_int0 (r : avr_io) : avr_io :=
  let r := set_GIFR (flag_write (GIFR r) (Z.lor (GIFR r) (Z.shiftl 1 INTF0))) r in
  set_GIMSK (reg_or (GIMSK r) (Z.shiftl 1 INT0)) r.

Definition _disable_int0 (r : avr_io) : avr_io :=
  set_GIMSK (reg_andnot (GIMSK r) (Z.shiftl 1 INT0)) r.

Definition _start_tx (r : avr_io) : avr_io :=
  set_TIMSK (reg_or (TIMSK r) (Z.shiftl 1 OCIE1A)) r.

Definition _stop_tx (r : avr_io) : avr_io :=
  set_TIMSK (reg_andnot (TIMSK r) (Z.shiftl 1 OCIE1A)) r.

Definition _start_rx (r : avr_io) : avr_io :=
  let r := set_TIFR (flag_write (TIFR r) (Z.lor (TIFR r) (Z.shiftl 1 OCF1B))) r in
  set_TIMSK (reg_or (TIMSK r) (Z.shiftl 1 OCIE1B)) r.

Definition _stop_rx (r : avr_io) : avr_io :=
  set_TIMSK (reg_andnot (TIMSK r) (Z.shiftl 1 OCIE1B)) r.

(** The manual wrap of a ring index: [x == RING_BUFFER - 1 ? 0 : x + 1],
    stored into a byte. *)
Definition ring_next (n x : Z) : Z :=
  if x =? n - 1 then 0 else u8 (x + 1).

(** Element [i] of the C array [rx_buf]. *)
Definition buf_get (buf : list Z) (i : Z) : Z := buf !!! Z.to_nat i.

(** [rx_buf[i] = v]. *)
Definition buf_set (buf : list Z) (i v : Z) : list Z := <[Z.to_nat i := v]> buf.

Section FdSerial.

(** [RING_BUFFER] is an optional build-time macro: [Some n] selects the
    ring of [n] bytes, [None] the single receive slot. *)
Variable RING_BUFFER : option Z.

(** ** Foreground API

    The foreground waits in empty [while] loops on fields that only the
    interrupt handlers change.  A call is a partial function of the state
    at its entry: [None] where the loop condition holds, so that the call
    spins until a handler changes the field. *)

Definition fdserial_init (m : mcu) : mcu :=
  let com_mode := Z.lor (Z.shiftl 0 COM1A1) (Z.shiftl 0 COM1A0) in
  let ctc_mode := Z.shiftl 1 CTC1 in
  let u := fd_uart1 m in
  let u := set_send_ready 1 u in
  let u := set_tx_state 0 u in
  let u := set_available 0 u in
  let u := set_rx_state 0 u in
  let u := match RING_BUFFER with
           | Some _ => set_rx_tail 0 (set_rx_head 0 u)
           | None => u
           end in
  let r := io m in
  let r := set_MCUCR (reg_or (MCUCR r) (Z.shiftl 1 ISC01)) r in
  let r := set_TCNT1 0 r in
  let r := set_OCR1A 16 r in
  let r := set_OCR1B 32 r in
  let r := set_OCR1C SERIAL_TOP r in
  let r := set_DDRB (reg_or (DDRB r) S1_TX_PIN) r in
  let r := set_PORTB (reg_or (PORTB r) S1_TX_PIN) r in
  let r := set_DDRB (reg_andnot (DDRB r) S1_RX_PIN) r in
  let r := set_PORTB (reg_or (PORTB r) S1_RX_PIN) r in
  let r := _stoptimer r in
  let r := set_TCCR1 (u8 (Z.lor ctc_mode com_mode)) r in
  let r := _starttimer r in
  let r := _enable_int0 r in
  Mcu u r.

Definition fdserial_available (m : mcu) : Z :=
  let u := fd_uart1 m in
  match RING_BUFFER with
  | Some n =>
      let d := s8 (rx_head u - rx_tail u) in
      if d <? 0 then u8 (d + n) else u8 d
  | None => available u
  end.

Definition fdserial_sendok (m : mcu) : Z := send_ready (fd_uart1 m).

Definition fdserial_send (send_arg : Z) (m : mcu) : option mcu :=
  let u := fd_uart1 m in
  let r := io m in
  if send_ready u =? 0 then None
  else
    let r := set_OCR1A (TCNT1 r) r in
    let u := set_send_ready 0 u in
    let u := set_send_byte (u8 send_arg) u in
    let u := set_tx_state 1 u in
    let r := _start_tx r in
    Some (Mcu u r).

Definition fdserial_recv (m : mcu) : option (Z * mcu) :=
  let u := fd_uart1 m in
  match RING_BUFFER with
  | Some n =>
      if rx_head u =? rx_tail u then None
      else
        let c := buf_get (rx_buf u) (rx_tail u) in
        let u := set_rx_tail (ring_next n (rx_tail u)) u in
        Some (c, Mcu u (io m))
  | None =>
      if available u =? 0 then None
      else
        let c := recv_byte u in
        let u := set_recv_byte 0 u in
        let u := set_available 0 u in
        Some (c, Mcu u (io m))
  end.

Definition fdserial_alarm (duration : Z) (m : mcu) : option mcu :=
  let timer_ticks := u32 (duration * CPU_FREQ) / PRESCALER_DIVISOR / 1000 in
  let cycles := timer_ticks / (SERIAL_TOP + 1) in
  let remainder := u8 (u32 (timer_ticks - u32 (cycles * (SERIAL_TOP + 1)))) in
  let u := fd_uart1 m in
  let r := io m in
  if send_ready u =? 0 then None
  else
    let r := set_OCR1A (u8 (TCNT1 r - remainder)) r in
    let u := set_delay cycles u in
    let u := set_send_ready 0 u in
    let u := set_tx_state 5 u in
    Some (Mcu u r).

(** ** Interrupt handlers *)

(** Timer1 compare A: the transmit bit clock. *)
Definition ISR_TIMER1_COMPA (m : mcu) : mcu :=
  let u := fd_uart1 m in
  let r := io m in
  if tx_state u =? 0 then m
  else if tx_state u =? 1 then
    let r := set_PORTB (reg_andnot (PORTB r) S1_TX_PIN) r in
    let u := set_tx_state 2 u in
    let u := set_send_bits 8 u in
    Mcu u r
  else if tx_state u =? 2 then
    let r := if Z.land (send_byte u) 1 =? 0
             then set_PORTB (reg_andnot (PORTB r) S1_TX_PIN) r
             else set_PORTB (reg_or (PORTB r) S1_TX_PIN) r in
    let u := set_send_byte (Z.shiftr (send_byte u) 1) u in
    let u := set_send_bits (u8 (send_bits u - 1)) u in
    let u := if send_bits u =? 0 then set_tx_state 3 u else u in
    Mcu u r
  else if tx_state u =? 3 then
    let r := set_PORTB (reg_or (PORTB r) S1_TX_PIN) r in
    let u := set_tx_state 4 u in
    Mcu u r
  else if tx_state u =? 4 then
    let u := set_send_ready 1 u in
    let u := set_tx_state 0 u in
    let r := _stop_tx r in
    Mcu u r
  else if tx_state u =? 5 then
    let u := set_delay (u32 (delay u - 1)) u in
    let u := if delay u =? 0
             then set_tx_state 0 (set_send_ready 1 u)
             else u in
    Mcu u r
  else m.

(** The [#ifdef RING_BUFFER] block of the AwaitHigh state: the received
    byte goes into the ring, whose oldest byte is dropped when the head
    catches up with the tail, or into the single slot. *)
Definition rx_publish (u : fd_uart) : fd_uart :=
  match RING_BUFFER with
  | Some n =>
      let u := set_rx_buf (buf_set (rx_buf u) (rx_head u) (recv_shift u)) u in
      let u := set_rx_head (ring_next n (rx_head u)) u in
      if rx_head u =? rx_tail u
      then set_rx_tail (ring_next n (rx_tail u)) u
      else u
  | None =>
      let u := set_recv_byte (recv_shift u) u in
      set_available 1 u
  end.

(** Timer1 compare B: the receive bit clock. *)
Definition ISR_TIMER1_COMPB (m : mcu) : mcu :=
  let u := fd_uart1 m in
  let r := io m in
  let read_bit := u8 (Z.land (PINB r) S1_RX_PIN) in
  if rx_state u =? 0 then
    let u := set_rx_state 2 u in
    let u := set_recv_bits 8 u in
    Mcu u r
  else if rx_state u =? 1 then
    let u := set_rx_state 2 u in
    let u := set_recv_bits 8 u in
    Mcu u r
  else if rx_state u =? 2 then
    let u := set_recv_shift (Z.shiftr (recv_shift u) 1) u in
    let u := if read_bit =? 0 then u
             else set_recv_shift (u8 (Z.lor (recv_shift u) 128)) u in
    let u := set_recv_bits (u8 (recv_bits u - 1)) u in
    let u := if recv_bits u =? 0 then set_rx_state 3 u else u in
    Mcu u r
  else if rx_state u =? 3 then
    if read_bit =? 0 then m
    else
      let u := rx_publish u in
      let u := set_rx_state 0 u in
      let r := _stop_rx r in
      let r := _enable_int0 r in
      Mcu u r
  else m.

(** External interrupt 0: the falling edge of a start bit. *)
Definition ISR_INT0 (m : mcu) : mcu :=
  let r := io m in
  let tcnt1 := TCNT1 r in
  let r := if tcnt1 >=? SERIAL_HALFBIT
           then set_OCR1B (u8 (tcnt1 - SERIAL_HALFBIT)) r
           else set_OCR1B (u8 (tcnt1 + SERIAL_HALFBIT)) r in
  let r := _disable_int0 r in
  let r := _start_rx r in
  Mcu (fd_uart1 m) r.

End FdSerial.

(** ** The environment *)

(** The TX line is bit PORTB3 of PORTB; the RX line is bit PORTB2 of PINB. *)
Definition tx_line (m : mcu) : bool := Z.testbit (PORTB (io m)) PORTB3.
Definition rx_line (pinb : Z) : bool := Z.testbit pinb PORTB2.

(** Interrupt enables as the hardware reads them. *)
Definition tx_tick_enabled (m : mcu) : bool := Z.testbit (TIMSK (io m)) OCIE1A.
Definition rx_tick_enabled (m : mcu) : bool := Z.testbit (TIMSK (io m)) OCIE1B.
Definition edge_enabled (m : mcu) : bool := Z.testbit (GIMSK (io m)) INT0.

(** Timer1 in CTC mode counts up to OCR1C and restarts from zero. *)
Definition ctc_next (top c : Z) : Z := if c =? top then 0 else u8 (c + 1).

Fixpoint ctc_run (top : Z) (n : nat) (c : Z) : Z :=
  match n with
  | O => c
  | S k => ctc_run top k (ctc_next top c)
  end.

(** The hardware presents a new input pin byte before a handler runs. *)
Definition with_PINB (pinb : Z) (m : mcu) : mcu :=
  Mcu (fd_uart1 m) (set_PINB pinb (io m)).

Definition with_TCNT1 (tcnt : Z) (m : mcu) : mcu :=
  Mcu (fd_uart1 m) (set_TCNT1 tcnt (io m)).

(** [n] successive A-compare ticks, with the TX level left by each. *)
Fixpoint tx_ticks (n : nat) (m : mcu) : list bool * mcu :=
  match n with
  | O => ([], m)
  | S k =>
      let m1 := ISR_TIMER1_COMPA m in
      let (lv, m2) := tx_ticks k m1 in
      (tx_line m1 :: lv, m2)
  end.

(** Successive B-compare ticks, one per sampled input pin byte. *)
Fixpoint rx_ticks (rb : option Z) (pins : list Z) (m : mcu) : mcu :=
  match pins with
  | [] => m
  | p :: ps => rx_ticks rb ps (ISR_TIMER1_COMPB rb (with_PINB p m))
  end.

(** The bits of a byte in wire order, least significant first. *)
Definition lsb_first (b : Z) : list bool :=
  map (fun i => Z.testbit b (Z.of_nat i)) (seq 0 8).

(** The byte whose bit [i] is the [i]-th sample. *)
Fixpoint byte_of_samples (s : list bool) : Z :=
  match s with
  | [] => 0
  | b :: r => Z.b2z b + 2 * byte_of_samples r
  end.

(** An input pin byte with the RX line at the given level. *)
Definition pin_level (b : bool) : Z := if b then S1_RX_PIN else 0.

(** The state at power-on reset: registers cleared, RX line idle high. *)
Definition reset_state (n : nat) : mcu :=
  Mcu (Uart 0 0 0 0 0 0 0 0 0 0 0 0 (replicate n 0))
      (Io 0 0 0 0 0 0 0 0 0 0 0 0 S1_RX_PIN).

(** The pin samples of a well-formed frame for [b]: the midpoint of the
    start bit (low), the eight data bits, the stop bit (high). *)
Definition frame_of_samples (s : list bool) : list Z :=
  pin_level false :: map pin_level s ++ [pin_level true].

Definition frame_pins (b : Z) : list Z := frame_of_samples (lsb_first b).

(** A frame as the receive engine sees it: the falling edge taken at
    counter value [tcnt], then one B-compare tick per sample. *)
Definition receive_frame (rb : option Z) (tcnt : Z) (pins : list Z) (m : mcu) : mcu :=
  rx_ticks rb pins (ISR_INT0 (with_TCNT1 tcnt m)).

(** Successive [fdserial_recv] calls with no interrupt in between, up to
    the first one that would wait. *)
Fixpoint drain (rb : option Z) (fuel : nat) (m : mcu) : list Z :=
  match fuel with
  | O => []
  | S k =>
      match fdserial_recv rb m with
      | None => []
      | Some (c, m') => c :: drain rb k m'
      end
  end.

(** The unread bytes of a ring of [n] bytes, oldest first. *)
Definition unread (n : Z) (m : mcu) : list Z := drain (Some n) (Z.to_nat n) m.

(** ** Reachable states

    One foreground thread and three interrupt handlers share the machine.
    A handler runs only while its interrupt is enabled; a foreground call
    completes only from a state where its wait loop exits; the hardware
    moves the counter and the input pins at any time.

    An event of this section is a whole foreground call, with no handler
    between its entry and its return, a whole handler, or a change made by
    the hardware.  The handlers that pre-empt a call are the matter of the
    section on the foreground access by access, further down, which cuts
    the calls at their accesses to the shared objects.  An interrupt event
    stands for the hardware raising the interrupt and the handler being
    served; what decides it here is the enable bit, and the flag registers
    are written as the code writes them but are not consulted. *)
Inductive event : Type :=
| Hardware (tcnt pinb : Z)
| Call_init
| Call_send (c : Z)
| Call_recv
| Call_alarm (duration : Z)
| Irq_COMPA
| Irq_COMPB
| Irq_INT0.

Definition is_byte (z : Z) : bool := (0 <=? z) && (z <? 256).

Definition step (rb : option Z) (e : event) (m : mcu) : option mcu :=
  match e with
  | Hardware tcnt pinb =>
      if is_byte tcnt && is_byte pinb
      then Some (with_PINB pinb (with_TCNT1 tcnt m))
      else None
  | Call_init => Some (fdserial_init rb m)
  | Call_send c => fdserial_send c m
  | Call_recv => option_map snd (fdserial_recv rb m)
  | Call_alarm duration => fdserial_alarm duration m
  | Irq_COMPA => if tx_tick_enabled m then Some (ISR_TIMER1_COMPA m) else None
  | Irq_COMPB => if rx_tick_enabled m then Some (ISR_TIMER1_COMPB rb m) else None
  | Irq_INT0 => if edge_enabled m then Some (ISR_INT0 m) else None
  end.

(** The states the program reaches once [fdserial_init] has run. *)
Inductive reachable (rb : option Z) : mcu -> Prop :=
| reach_init (m0 : mcu) : reachable rb (fdserial_init rb m0)
| reach_step (e : event) (m m' : mcu) :
    reachable rb m -> step rb e m = Some m' -> reachable rb m'.

(** The ring indices address the array of [n] bytes. *)
Definition indices_in_range (n : Z) (m : mcu) : Prop :=
  0 <= rx_head (fd_uart1 m) < n /\ 0 <= rx_tail (fd_uart1 m) < n.

(** A run of events from a given state. *)
Fixpoint run (rb : option Z) (es : list event) (m : mcu) : option mcu :=
  match es with
  | [] => Some m
  | e :: es' =>
      match step rb e m with
      | Some m' => run rb es' m'
      | None => None
      end
  end.

(** ** Formulas of the specification, as it words them *)

(** The alarm length in whole bit periods: the ceiling of
    ms * F / P / 1000 / (TOP + 1). *)
Definition spec_alarm_periods (ms : Z) : Z :=
  let d := PRESCALER_DIVISOR * 1000 * (SERIAL_TOP + 1) in
  (ms * CPU_FREQ + d - 1) / d.

(** The number of bytes waiting in a ring of [n]: (head - tail + n) mod n. *)
Definition spec_available (n head tail : Z) : Z := (head - tail + n) mod n.

(** The first sample point: (tcnt + HALFBIT) mod (TOP + 1). *)
Definition spec_sample_point (tcnt : Z) : Z :=
  (tcnt + SERIAL_HALFBIT) mod (SERIAL_TOP + 1).

(** Frames received one after the other, each given by the counter value
    at its falling edge and by its byte. *)
Definition receive_bytes (rb : option Z) (frames : list (Z * Z)) (m : mcu) : mcu :=
  fold_left (fun m f => receive_frame rb (fst f) (frame_pins (snd f)) m) frames m.

(** The instance after the receive engine has published [b]. *)
Definition published (rb : option Z) (b : Z) (u : fd_uart) : fd_uart :=
  set_rx_state 0
    (rx_publish rb (set_rx_state 3 (set_recv_bits 0 (set_recv_shift b u)))).

(** In ring mode the array [rx_buf] has [RING_BUFFER] elements and the
    ring has room for a byte. *)
Definition ring_allocated (rb : option Z) (m : mcu) : Prop :=
  match rb with
  | Some n => 2 <= n <= 256 /\ Z.of_nat (length (rx_buf (fd_uart1 m))) = n
  | None => True
  end.

(** [k] consecutive ring elements from index [t] on, wrapping as the code
    does. *)
Fixpoint ring_slice (n : Z) (buf : list Z) (t : Z) (k : nat) : list Z :=
  match k with
  | O => []
  | S k' => buf_get buf t :: ring_slice n buf (ring_next n t) k'
  end.

(** The queue that the ring of [n] bytes implements: it takes a new byte at
    the end and, once that makes [n] of them, drops the oldest. *)
Definition queue_push (n : Z) (q : list Z) (b : Z) : list Z :=
  let q' := q ++ [b] in
  if Z.of_nat (length q') <? n then q' else tail q'.

(** ** Longer runs *)

(** The TX levels of a whole frame for [b]: start, data, stop. *)
Definition frame_levels (b : Z) : list bool := false :: lsb_first b ++ [true].

(** The foreground sends the bytes one after the other; each call is made
    once the A-compare handler has run eleven times for the byte before
    it.  The result collects the TX level left by every tick. *)
Fixpoint send_stream (bs : list Z) (m : mcu) : option (list bool * mcu) :=
  match bs with
  | [] => Some ([], m)
  | b :: bs' =>
      match fdserial_send b m with
      | None => None
      | Some m1 =>
          let (lv, m2) := tx_ticks 11 m1 in
          match send_stream bs' m2 with
          | None => None
          | Some (lv', m3) => Some (lv ++ lv', m3)
          end
      end
  end.

(** The events that can take place while the foreground spins in a wait
    loop: the hardware and the three handlers. *)
Definition is_interrupt (e : event) : bool :=
  match e with
  | Hardware _ _ | Irq_COMPA | Irq_COMPB | Irq_INT0 => true
  | _ => false
  end.

(** [while (! fd_uart1.send_ready) { }] under a schedule of interrupts: the
    loop exits at the first test that finds the flag set, and [None] is a
    loop that has not exited when the schedule ends (or a schedule that
    cannot take place). *)
Fixpoint wait_send_ready (rb : option Z) (es : list event) (m : mcu) : option mcu :=
  if send_ready (fd_uart1 m) =? 0 then
    match es with
    | [] => None
    | e :: es' =>
        if is_interrupt e then
          match step rb e m with
          | Some m' => wait_send_ready rb es' m'
          | None => None
          end
        else None
    end
  else Some m.

(** [fdserial_delay]: the alarm, then the wait for its expiry. *)
Definition fdserial_delay (rb : option Z) (duration : Z) (es : list event) (m : mcu)
  : option mcu :=
  match fdserial_alarm duration m with
  | None => None
  | Some m' => wait_send_ready rb es m'
  end.

(** The receive engine is at rest: Idle, with a byte in the shift register
    and, in ring mode, a ring of [RING_BUFFER] bytes with both indices
    inside it. *)
Definition rx_idle (rb : option Z) (m : mcu) : Prop :=
  rx_state (fd_uart1 m) = 0 /\
  0 <= recv_shift (fd_uart1 m) < 256 /\
  match rb with
  | Some n =>
      1 <= n <= 256 /\
      Z.of_nat (length (rx_buf (fd_uart1 m))) = n /\
      indices_in_range n m
  | None => True
  end.

(** What the foreground sees once [b] has arrived between the states [m]
    and [m']: in single-slot mode the next [fdserial_recv] returns [b]; in
    ring mode [b] has joined the unread bytes, the oldest of which has
    gone if the ring was full. *)
Definition delivered (rb : option Z) (m m' : mcu) (b : Z) : Prop :=
  match rb with
  | Some n => unread n m' = queue_push n (unread n m) b
  | None => option_map fst (fdserial_recv None m') = Some b
  end.


(** The interrupts of the transmit direction and those of the receive
    direction; the hardware's counter and input pins are read by the
    receive direction only. *)
Definition is_tx_event (e : event) : bool :=
  match e with
  | Irq_COMPA => true
  | _ => false
  end.

Definition is_rx_event (e : event) : bool :=
  match e with
  | Hardware _ _ | Irq_COMPB | Irq_INT0 => true
  | _ => false
  end.

(** The TX level left by each A-compare tick of a run. *)
Fixpoint run_levels (rb : option Z) (es : list event) (m : mcu) : list bool :=
  match es with
  | [] => []
  | e :: es' =>
      match step rb e m with
      | Some m' =>
          (if is_tx_event e then [tx_line m'] else []) ++ run_levels rb es' m'
      | None => []
      end
  end.

(** One B-compare tick per sample, each taken when the counter is at [t]. *)
Definition sample_events (t : Z) (pins : list Z) : list event :=
  flat_map (fun p => [Hardware t p; Irq_COMPB]) pins.

(** The events of a frame on the RX line: the falling edge when the counter
    is at [tcnt], then the samples. *)
Definition frame_events (tcnt t : Z) (pins : list Z) : list event :=
  Hardware tcnt (pin_level false) :: Irq_INT0 :: sample_events t pins.

(** The two halves of the transmit invariant and the receive invariant:
    the flag [send_ready] mirrors the Idle state, and the bit counters stay
    within a byte. *)
Definition tx_consistent (u : fd_uart) : Prop :=
  (send_ready u = 1 /\ tx_state u = 0 \/ send_ready u = 0 /\ 1 <= tx_state u <= 5) /\
  (tx_state u = 2 -> 1 <= send_bits u <= 8).

Definition rx_consistent (u : fd_uart) : Prop :=
  (rx_state u = 0 \/ rx_state u = 2 \/ rx_state u = 3) /\
  (rx_state u = 2 -> 1 <= recv_bits u <= 8).

(** What the receive direction owns: its state, its shift register, the
    ring, and the enable of the edge detector. *)
Definition rx_view (m : mcu) : Z * Z * Z * Z * list Z * bool :=
  (rx_state (fd_uart1 m), recv_shift (fd_uart1 m), rx_head (fd_uart1 m),
   rx_tail (fd_uart1 m), rx_buf (fd_uart1 m), edge_enabled m).


(** ** The foreground, access by access

    The events above run a foreground call from its entry to its return.
    On the device the code never disables interrupts, and the handlers
    pre-empt the foreground between any two instructions.  Here every call
    is cut at its accesses to the shared objects, the fields of [fd_uart1]
    and the I/O registers: one load or one store per step, in the order of
    the source, with the loaded value kept in a local until the store that
    uses it ([x |= b] and [x++] are a load and a store).  The handlers stay
    indivisible: the device runs them with interrupts disabled.

    The declaration of [fd_uart1] is in fd-serial.h, which is not among
    the sources at hand.  The wait loops of lines 197, 221, 234, 258 and
    280 have empty bodies and end only if each test reads its field anew,
    so every occurrence of a field in the source is taken as an access to
    memory.  The operands of [==] at line 221 and of [-] at line 170 are
    read from left to right.  The 32-bit store of line 261 is one step: no
    handler reads [delay] unless [tx_state] is 5, which line 263 sets
    after it.

    A position is named after the source line of the access it is about to
    make; the lines of [_starttimer], [_stoptimer], [_enable_int0] and
    [_start_tx] are those of the inlined bodies.  Single-bit updates of
    DDRB and PORTB may be compiled to one instruction; no theorem below
    uses a handler between their load and their store. *)
Inductive call : Type :=
| K_init
| K_available
| K_sendok
| K_send (c : Z)
| K_recv
| K_alarm (duration : Z)
| K_delay (duration : Z).

Inductive fg : Type :=
| Idle (ret : option Z)
| Init_L130 | Init_L131 | Init_L133 | Init_L134 | Init_L137 | Init_L138
| Init_L142_load | Init_L142_store (v : Z)
| Init_L144 | Init_L145 | Init_L146 | Init_L147
| Init_L150_load | Init_L150_store (v : Z)
| Init_L151_load | Init_L151_store (v : Z)
| Init_L154_load | Init_L154_store (v : Z)
| Init_L155_load | Init_L155_store (v : Z)
| Init_L55_load | Init_L55_store (v : Z)
| Init_L158
| Init_L45_load | Init_L45_store (v : Z)
| Init_L64_load | Init_L64_store (v : Z)
| Init_L66_load | Init_L66_store (v : Z)
| Avail_L170_head | Avail_L170_tail (h : Z)
| Avail_L177
| Sendok_L187
| Send_L197 (c : Z)
| Send_L199_load (c : Z) | Send_L199_store (c t : Z)
| Send_L200 (c : Z) | Send_L201 (c : Z) | Send_L202
| Send_L82_load | Send_L82_store (v : Z)
| Recv_L221_head | Recv_L221_tail (h : Z)
| Recv_L223_tail | Recv_L223_buf (t : Z)
| Recv_L227 (c : Z) | Recv_L228 (c : Z)
| Recv_L230_load (c : Z) | Recv_L230_store (c t : Z)
| Recv_L234 | Recv_L235 | Recv_L236 (c : Z) | Recv_L237 (c : Z)
| Alarm_L258 (wait : bool) (cycles remainder : Z)
| Alarm_L260_load (wait : bool) (cycles remainder : Z)
| Alarm_L260_store (wait : bool) (cycles remainder t : Z)
| Alarm_L261 (wait : bool) (cycles : Z)
| Alarm_L262 (wait : bool)
| Alarm_L263 (wait : bool)
| Delay_L280.

(** The locals of [fdserial_alarm], lines 254 to 256. *)
Definition alarm_cycles (duration : Z) : Z :=
  let timer_ticks := u32 (duration * CPU_FREQ) / PRESCALER_DIVISOR / 1000 in
  timer_ticks / (SERIAL_TOP + 1).

Definition alarm_remainder (duration : Z) : Z :=
  let timer_ticks := u32 (duration * CPU_FREQ) / PRESCALER_DIVISOR / 1000 in
  let cycles := timer_ticks / (SERIAL_TOP + 1) in
  u8 (u32 (timer_ticks - u32 (cycles * (SERIAL_TOP + 1)))).

Section Foreground.

Variable RING_BUFFER : option Z.

(** The first access of a call. *)
Definition entry (k : call) : fg :=
  match k with
  | K_init => Init_L130
  | K_available =>
      match RING_BUFFER with
      | Some _ => Avail_L170_head
      | None => Avail_L177
      end
  | K_sendok => Sendok_L187
  | K_send c => Send_L197 c
  | K_recv =>
      match RING_BUFFER with
      | Some _ => Recv_L221_head
      | None => Recv_L234
      end
  | K_alarm d => Alarm_L258 false (alarm_cycles d) (alarm_remainder d)
  | K_delay d => Alarm_L258 true (alarm_cycles d) (alarm_remainder d)
  end.

(** One access of the foreground.  A wait loop whose test fails stays at
    its test. *)
Definition fg_step (p : fg) (m : mcu) : fg * mcu :=
  let u := fd_uart1 m in
  let r := io m in
  match p with
  | Idle ret => (Idle ret, m)
  (* fdserial_init *)
  | Init_L130 => (Init_L131, Mcu (set_send_ready 1 u) r)
  | Init_L131 => (Init_L133, Mcu (set_tx_state 0 u) r)
  | Init_L133 => (Init_L134, Mcu (set_available 0 u) r)
  | Init_L134 =>
      (match RING_BUFFER with
       | Some _ => Init_L137
       | None => Init_L142_load
       end, Mcu (set_rx_state 0 u) r)
  | Init_L137 => (Init_L138, Mcu (set_rx_head 0 u) r)
  | Init_L138 => (Init_L142_load, Mcu (set_rx_tail 0 u) r)
  | Init_L142_load => (Init_L142_store (MCUCR r), m)
  | Init_L142_store v =>
      (Init_L144, Mcu u (set_MCUCR (reg_or v (Z.shiftl 1 ISC01)) r))
  | Init_L144 => (Init_L145, Mcu u (set_TCNT1 0 r))
  | Init_L145 => (Init_L146, Mcu u (set_OCR1A 16 r))
  | Init_L146 => (Init_L147, Mcu u (set_OCR1B 32 r))
  | Init_L147 => (Init_L150_load, Mcu u (set_OCR1C SERIAL_TOP r))
  | Init_L150_load => (Init_L150_store (DDRB r), m)
  | Init_L150_store v => (Init_L151_load, Mcu u (set_DDRB (reg_or v S1_TX_PIN) r))
  | Init_L151_load => (Init_L151_store (PORTB r), m)
  | Init_L151_store v => (Init_L154_load, Mcu u (set_PORTB (reg_or v S1_TX_PIN) r))
  | Init_L154_load => (Init_L154_store (DDRB r), m)
  | Init_L154_store v =>
      (Init_L155_load, Mcu u (set_DDRB (reg_andnot v S1_RX_PIN) r))
  | Init_L155_load => (Init_L155_store (PORTB r), m)
  | Init_L155_store v => (Init_L55_load, Mcu u (set_PORTB (reg_or v S1_RX_PIN) r))
  | Init_L55_load => (Init_L55_store (TCCR1 r), m)
  | Init_L55_store v => (Init_L158, Mcu u (set_TCCR1 (reg_andnot v PRESCALER) r))
  | Init_L158 =>
      (Init_L45_load,
       Mcu u (set_TCCR1
                (u8 (Z.lor (Z.shiftl 1 CTC1)
                       (Z.lor (Z.shiftl 0 COM1A1) (Z.shiftl 0 COM1A0)))) r))
  | Init_L45_load => (Init_L45_store (TCCR1 r), m)
  | Init_L45_store v => (Init_L64_load, Mcu u (set_TCCR1 (reg_or v PRESCALER) r))
  | Init_L64_load => (Init_L64_store (GIFR r), m)
  | Init_L64_store v =>
      (Init_L66_load,
       Mcu u (set_GIFR (flag_write (GIFR r) (Z.lor v (Z.shiftl 1 INTF0))) r))
  | Init_L66_load => (Init_L66_store (GIMSK r), m)
  | Init_L66_store v =>
      (Idle None, Mcu u (set_GIMSK (reg_or v (Z.shiftl 1 INT0)) r))
  (* fdserial_available *)
  | Avail_L170_head => (Avail_L170_tail (rx_head u), m)
  | Avail_L170_tail h =>
      match RING_BUFFER with
      | Some n =>
          let d := s8 (h - rx_tail u) in
          (Idle (Some (if d <? 0 then u8 (d + n) else u8 d)), m)
      | None => (Idle None, m)
      end
  | Avail_L177 => (Idle (Some (available u)), m)
  (* fdserial_sendok *)
  | Sendok_L187 => (Idle (Some (send_ready u)), m)
  (* fdserial_send *)
  | Send_L197 c =>
      if send_ready u =? 0 then (Send_L197 c, m) else (Send_L199_load c, m)
  | Send_L199_load c => (Send_L199_store c (TCNT1 r), m)
  | Send_L199_store c t => (Send_L200 c, Mcu u (set_OCR1A t r))
  | Send_L200 c => (Send_L201 c, Mcu (set_send_ready 0 u) r)
  | Send_L201 c => (Send_L202, Mcu (set_send_byte (u8 c) u) r)
  | Send_L202 => (Send_L82_load, Mcu (set_tx_state 1 u) r)
  | Send_L82_load => (Send_L82_store (TIMSK r), m)
  | Send_L82_store v =>
      (Idle None, Mcu u (set_TIMSK (reg_or v (Z.shiftl 1 OCIE1A)) r))
  (* fdserial_recv, ring mode *)
  | Recv_L221_head => (Recv_L221_tail (rx_head u), m)
  | Recv_L221_tail h =>
      if h =? rx_tail u then (Recv_L221_head, m) else (Recv_L223_tail, m)
  | Recv_L223_tail => (Recv_L223_buf (rx_tail u), m)
  | Recv_L223_buf t => (Recv_L227 (buf_get (rx_buf u) t), m)
  | Recv_L227 c =>
      match RING_BUFFER with
      | Some n =>
          if rx_tail u =? n - 1 then (Recv_L228 c, m) else (Recv_L230_load c, m)
      | None => (Idle None, m)
      end
  | Recv_L228 c => (Idle (Some c), Mcu (set_rx_tail 0 u) r)
  | Recv_L230_load c => (Recv_L230_store c (rx_tail u), m)
  | Recv_L230_store c t => (Idle (Some c), Mcu (set_rx_tail (u8 (t + 1)) u) r)
  (* fdserial_recv, single slot *)
  | Recv_L234 => if available u =? 0 then (Recv_L234, m) else (Recv_L235, m)
  | Recv_L235 => (Recv_L236 (recv_byte u), m)
  | Recv_L236 c => (Recv_L237 c, Mcu (set_recv_byte 0 u) r)
  | Recv_L237 c => (Idle (Some c), Mcu (set_available 0 u) r)
  (* fdserial_alarm, and fdserial_delay around it *)
  | Alarm_L258 w cy rem =>
      if send_ready u =? 0 then (Alarm_L258 w cy rem, m)
      else (Alarm_L260_load w cy rem, m)
  | Alarm_L260_load w cy rem => (Alarm_L260_store w cy rem (TCNT1 r), m)
  | Alarm_L260_store w cy rem t =>
      (Alarm_L261 w cy, Mcu u (set_OCR1A (u8 (t - rem)) r))
  | Alarm_L261 w cy => (Alarm_L262 w, Mcu (set_delay cy u) r)
  | Alarm_L262 w => (Alarm_L263 w, Mcu (set_send_ready 0 u) r)
  | Alarm_L263 w =>
      (if w then Delay_L280 else Idle None, Mcu (set_tx_state 5 u) r)
  | Delay_L280 => if send_ready u =? 0 then (Delay_L280, m) else (Idle None, m)
  end.

(** The foreground left alone for at most [fuel] accesses, up to the
    return of the call. *)
Fixpoint fg_run (fuel : nat) (p : fg) (m : mcu) : fg * mcu :=
  match p with
  | Idle _ => (p, m)
  | _ =>
      match fuel with
      | O => (p, m)
      | S k => let (p', m') := fg_step p m in fg_run k p' m'
      end
  end.

(** What a call does when no handler runs between its entry and its
    return, and what it returns: the functions of the foreground API
    above.  [None] is a call that does not return. *)
Definition call_result (k : call) (m : mcu) : option (option Z * mcu) :=
  match k with
  | K_init => Some (None, fdserial_init RING_BUFFER m)
  | K_available => Some (Some (fdserial_available RING_BUFFER m), m)
  | K_sendok => Some (Some (fdserial_sendok m), m)
  | K_send c => option_map (fun m' => (None, m')) (fdserial_send c m)
  | K_recv =>
      option_map (fun cm => (Some (fst cm), snd cm)) (fdserial_recv RING_BUFFER m)
  | K_alarm d => option_map (fun m' => (None, m')) (fdserial_alarm d m)
  | K_delay _ => None
  end.

End Foreground.

(** The events of the machine with a pre-emptible foreground: the
    foreground enters a call (between calls only), the foreground makes its
    next access, or the hardware or a handler takes its turn, as in [step]
    and at any position of the foreground. *)
Inductive fevent : Type :=
| F_call (k : call)
| F_step
| F_irq (e : event).

Definition fstep (rb : option Z) (ev : fevent) (s : fg * mcu) : option (fg * mcu) :=
  let (p, m) := s in
  match ev with
  | F_call k =>
      match p with
      | Idle _ => Some (entry rb k, m)
      | _ => None
      end
  | F_step =>
      match p with
      | Idle _ => None
      | _ => Some (fg_step rb p m)
      end
  | F_irq e =>
      if is_interrupt e then
        match step rb e m with
        | Some m' => Some (p, m')
        | None => None
        end
      else None
  end.

Fixpoint frun (rb : option Z) (es : list fevent) (s : fg * mcu) : option (fg * mcu) :=
  match es with
  | [] => Some s
  | e :: es' =>
      match fstep rb e s with
      | Some s' => frun rb es' s'
      | None => None
      end
  end.

(** A call with [n] accesses in a row, and a frame on the RX line, as
    schedules. *)
Definition uninterrupted (k : call) (n : nat) : list fevent :=
  F_call k :: repeat F_step n.

Definition frame_irqs (tcnt t : Z) (pins : list Z) : list fevent :=
  map F_irq (frame_events tcnt t pins).

(** The schedule of the race on [rx_tail], for a ring of four bytes.
    Five frames and two reads leave the ring full with the tail at 2; the
    sixth frame has reached its stop bit when [fdserial_recv] is entered;
    the call has made the test of line 227 when the stop bit is sampled;
    then it goes on with line 230. *)
Definition recv_race : list fevent :=
  frame_irqs 50 154 (frame_pins 1) ++
  frame_irqs 50 154 (frame_pins 2) ++
  frame_irqs 50 154 (frame_pins 3) ++
  uninterrupted K_recv 7 ++
  uninterrupted K_recv 7 ++
  frame_irqs 50 154 (frame_pins 4) ++
  frame_irqs 50 154 (frame_pins 5) ++
  frame_irqs 50 154 (removelast (frame_pins 6)) ++
  uninterrupted K_recv 5 ++
  [F_irq (Hardware 154 (pin_level true)); F_irq Irq_COMPB] ++
  repeat F_step 2.

(** The same events with the stop bit sampled before the call. *)
Definition recv_no_race : list fevent :=
  frame_irqs 50 154 (frame_pins 1) ++
  frame_irqs 50 154 (frame_pins 2) ++
  frame_irqs 50 154 (frame_pins 3) ++
  uninterrupted K_recv 7 ++
  uninterrupted K_recv 7 ++
  frame_irqs 50 154 (frame_pins 4) ++
  frame_irqs 50 154 (frame_pins 5) ++
  frame_irqs 50 154 (frame_pins 6) ++
  uninterrupted K_recv 6.

(** The schedule of the race on TIMSK: [fdserial_send] has loaded TIMSK
    at line 82 when a falling edge on the RX line is served; then it
    stores. *)
Definition start_tx_race (c tcnt pinb : Z) : list fevent :=
  uninterrupted (K_send c) 7 ++
  [F_irq (Hardware tcnt pinb); F_irq Irq_INT0; F_step].

(** The positions of [fdserial_init]. *)
Definition in_init (p : fg) : bool :=
  match p with
  | Init_L130 | Init_L131 | Init_L133 | Init_L134 | Init_L137 | Init_L138
  | Init_L142_load | Init_L142_store _
  | Init_L144 | Init_L145 | Init_L146 | Init_L147
  | Init_L150_load | Init_L150_store _
  | Init_L151_load | Init_L151_store _
  | Init_L154_load | Init_L154_store _
  | Init_L155_load | Init_L155_store _
  | Init_L55_load | Init_L55_store _
  | Init_L158
  | Init_L45_load | Init_L45_store _
  | Init_L64_load | Init_L64_store _
  | Init_L66_load | Init_L66_store _ => true
  | _ => false
  end.

Definition not_init (ev : fevent) : bool :=
  match ev with
  | F_call K_init => false
  | _ => true
  end.




(** The B-compare handler between the test of line 227 and the load of
    line 230. *)
Definition tears_line_230 (p : fg) (ev : fevent) : bool :=
  match p, ev with
  | Recv_L230_load _, F_irq Irq_COMPB => true
  | _, _ => false
  end.

(** No event of a run is one of those that [tears] picks out. *)
Fixpoint untorn (tears : fg -> fevent -> bool)
    (rb : option Z) (es : list fevent) (s : fg * mcu) : bool :=
  match es with
  | [] => true
  | e :: es' =>
      negb (tears (fst s) e) &&
      match fstep rb e s with
      | Some s' => untorn tears rb es' s'
      | None => true
      end
  end.

(** The ring at a position of the foreground: both indices inside the
    array, and between the test of line 227 and the store of line 230 the
    index that the call is about to increment is not the last one. *)
Definition fg_ring (n : Z) (p : fg) (m : mcu) : Prop :=
  indices_in_range n m /\
  match p with
  | Recv_L230_load _ => rx_tail (fd_uart1 m) <> n - 1
  | Recv_L230_store _ t => 0 <= t < n - 1
  | _ => True
  end.

(** The receive direction switched off at a position of the foreground:
    the edge detector and the B-compare tick are both masked, the value
    about to be stored into TIMSK keeps the tick masked, and the receive
    engine has produced nothing since the state [m1]. *)
Definition deaf (m1 : mcu) (p : fg) (m : mcu) : Prop :=
  in_init p = false /\
  edge_enabled m = false /\
  rx_tick_enabled m = false /\
  match p with
  | Send_L82_store v => Z.testbit v OCIE1B = false
  | _ => True
  end /\
  rx_state (fd_uart1 m) = rx_state (fd_uart1 m1) /\
  rx_head (fd_uart1 m) = rx_head (fd_uart1 m1) /\
  rx_buf (fd_uart1 m) = rx_buf (fd_uart1 m1) /\
  (available (fd_uart1 m) = 0 \/
   available (fd_uart1 m) = available (fd_uart1 m1)).
(** ** Bit-level facts about register updates *)

Ltac split_ifs :=
  cbv zeta;
  repeat match goal with
         | |- context [if ?c then _ else _] => destruct c eqn:?
         end.


Section RegisterBits.

Lemma testbit_u8 (z i : Z) : 0 <= i < 8 -> Z.testbit (u8 z) i = Z.testbit z i.
Proof.
  intros Hi. unfold u8. change 256 with (2 ^ 8).
  apply Z.mod_pow2_bits_low. lia.
Qed.

Lemma u8_range (z : Z) : 0 <= u8 z < 256.
Proof. unfold u8. apply Z.mod_pos_bound. lia. Qed.

Lemma u8_small (z : Z) : 0 <= z < 256 -> u8 z = z.
Proof. intros H. unfold u8. apply Z.mod_small. exact H. Qed.

Lemma testbit_mask (k j : Z) :
  0 <= k -> Z.testbit (Z.shiftl 1 k) j = (k =? j).
Proof. intros Hk. rewrite Z.shiftl_1_l. apply Z.pow2_bits_eqb. exact Hk. Qed.

Lemma reg_or_spec (r k j : Z) :
  0 <= k -> 0 <= j < 8 ->
  Z.testbit (reg_or r (Z.shiftl 1 k)) j = Z.testbit r j || (k =? j).
Proof.
  intros Hk Hj. unfold reg_or.
  rewrite testbit_u8, Z.lor_spec, testbit_mask by lia. reflexivity.
Qed.

Lemma reg_andnot_spec (r k j : Z) :
  0 <= k -> 0 <= j < 8 ->
  Z.testbit (reg_andnot r (Z.shiftl 1 k)) j = Z.testbit r j && negb (k =? j).
Proof.
  intros Hk Hj. unfold reg_andnot.
  rewrite testbit_u8, Z.land_spec, Z.lnot_spec, testbit_mask by lia.
  reflexivity.
Qed.

Lemma land_1_testbit (z : Z) : (Z.land z 1 =? 0) = negb (Z.testbit z 0).
Proof.
  change 1 with (Z.ones 1). rewrite Z.land_ones by lia.
  change (2 ^ 1) with 2. rewrite <- Z.bit0_mod.
  destruct (Z.testbit z 0); reflexivity.
Qed.

Lemma land_mask (p k : Z) :
  0 <= k ->
  Z.land p (Z.shiftl 1 k) = if Z.testbit p k then Z.shiftl 1 k else 0.
Proof.
  intros Hk. apply Z.bits_inj'. intros n Hn.
  rewrite Z.land_spec, testbit_mask by lia.
  destruct (Z.testbit p k) eqn:Hp; rewrite ?testbit_mask, ?Z.bits_0 by lia;
    destruct (Z.eqb_spec k n) as [<-|Hne]; rewrite ?Hp, ?andb_false_r; reflexivity.
Qed.

Lemma read_bit_spec (p : Z) :
  (u8 (Z.land p S1_RX_PIN) =? 0) = negb (Z.testbit p PORTB2).
Proof.
  unfold S1_RX_PIN. rewrite land_mask by (unfold PORTB2; lia).
  destruct (Z.testbit p PORTB2); reflexivity.
Qed.

Lemma lor_128 (s : Z) :
  0 <= s < 256 -> u8 (Z.lor (Z.shiftr s 1) 128) = s / 2 + 128.
Proof.
  intros Hs. rewrite Z.shiftr_div_pow2 by lia. change (2 ^ 1) with 2.
  assert (Ha : 0 <= s / 2 < 128).
  { split; [apply Z.div_pos; lia | apply Z.div_lt_upper_bound; lia]. }
  rewrite <- Z.add_nocarry_lor.
  - apply u8_small. lia.
  - change 128 with (Z.shiftl 1 7). rewrite land_mask by lia.
    rewrite <- (Z.mod_small (s / 2) (2 ^ 7)) by (change (2 ^ 7) with 128; lia).
    rewrite Z.mod_pow2_bits_high by lia. reflexivity.
Qed.

Lemma shift_in_arith (s t B N : Z) :
  0 <= N <= 7 ->
  (s / 2 + t * 128) / 2 ^ N + B * 2 ^ (8 - N) =
  s / 2 ^ (N + 1) + (t + 2 * B) * 2 ^ (7 - N).
Proof.
  intros HN.
  replace 128 with (2 ^ (7 - N) * 2 ^ N)
    by (rewrite <- Z.pow_add_r by lia; replace (7 - N + N) with 7 by lia; reflexivity).
  replace (8 - N) with (Z.succ (7 - N)) by lia.
  rewrite Z.pow_succ_r by lia.
  rewrite Z.mul_assoc, Z.div_add by (apply Z.pow_nonzero; lia).
  rewrite Z.div_div by (try apply Z.pow_pos_nonneg; lia).
  replace (N + 1) with (Z.succ N) by lia. rewrite Z.pow_succ_r by lia.
  ring.
Qed.

Lemma buf_get_set (buf : list Z) (i v : Z) :
  0 <= i < Z.of_nat (length buf) -> buf_get (buf_set buf i v) i = v.
Proof.
  intros Hi. unfold buf_get, buf_set.
  apply list_lookup_total_insert_eq. lia.
Qed.

Lemma buf_get_set_ne (buf : list Z) (i j v : Z) :
  0 <= i -> 0 <= j -> i <> j -> buf_get (buf_set buf i v) j = buf_get buf j.
Proof.
  intros Hi Hj Hne. unfold buf_get, buf_set.
  apply list_lookup_total_insert_ne. lia.
Qed.

End RegisterBits.

(** ** The counter *)

Section Counter.

Lemma ctc_next_mod (top c : Z) :
  0 <= c <= top -> top < 256 -> ctc_next top c = (c + 1) mod (top + 1).
Proof.
  intros Hc Ht. unfold ctc_next.
  destruct (Z.eqb_spec c top) as [->|Hne].
  - rewrite Z_mod_same_full. reflexivity.
  - rewrite u8_small by lia. symmetry. apply Z.mod_small. lia.
Qed.

Lemma ctc_run_mod (top : Z) (n : nat) (c : Z) :
  0 <= c <= top -> top < 256 ->
  ctc_run top n c = (c + Z.of_nat n) mod (top + 1).
Proof.
  revert c. induction n as [|n IH]; intros c Hc Ht.
  - cbn [ctc_run]. rewrite Z.add_0_r. symmetry. apply Z.mod_small. lia.
  - cbn [ctc_run]. rewrite ctc_next_mod by assumption.
    rewrite IH.
    + rewrite Z.add_mod_idemp_l by lia. f_equal. lia.
    + pose proof (Z.mod_pos_bound (c + 1) (top + 1) ltac:(lia)). lia.
    + exact Ht.
Qed.

(** A compare value inside the counter range comes round again after
    TOP + 1 counts. *)
Lemma ctc_period (c : Z) :
  0 <= c <= SERIAL_TOP ->
  ctc_run SERIAL_TOP (Z.to_nat (SERIAL_TOP + 1)) c = c.
Proof.
  intros Hc. unfold SERIAL_TOP in *. rewrite ctc_run_mod by lia.
  change (Z.of_nat (Z.to_nat (207 + 1))) with (1 * 208).
  change (207 + 1) with 208. rewrite Z.mod_add by lia. apply Z.mod_small. lia.
Qed.

End Counter.

(** ** The transmit engine *)

Section Transmit.

(** One tick in the DataBit state with bits left to send. *)
Lemma compa_data_bit (m : mcu) :
  tx_state (fd_uart1 m) = 2 ->
  let m' := ISR_TIMER1_COMPA m in
  tx_line m' = Z.testbit (send_byte (fd_uart1 m)) 0 /\
  send_byte (fd_uart1 m') = Z.shiftr (send_byte (fd_uart1 m)) 1 /\
  send_bits (fd_uart1 m') = u8 (send_bits (fd_uart1 m) - 1) /\
  tx_state (fd_uart1 m') = (if u8 (send_bits (fd_uart1 m) - 1) =? 0 then 3 else 2) /\
  send_ready (fd_uart1 m') = send_ready (fd_uart1 m) /\
  TIMSK (io m') = TIMSK (io m) /\
  OCR1A (io m') = OCR1A (io m).
Proof.
  intros Hs. unfold ISR_TIMER1_COMPA. rewrite Hs. cbn -[Z.testbit Z.shiftr u8 Z.land].
  rewrite land_1_testbit.
  destruct (Z.testbit (send_byte (fd_uart1 m)) 0) eqn:Hb;
    cbn -[Z.testbit Z.shiftr u8 Z.land];
    destruct (u8 (send_bits (fd_uart1 m) - 1) =? 0);
    cbn -[Z.testbit Z.shiftr u8 Z.land]; unfold tx_line;
    cbn -[Z.testbit Z.shiftr u8 Z.land];
    repeat split; try assumption; unfold S1_TX_PIN;
    first [ rewrite reg_or_spec by (unfold PORTB3; lia)
          | rewrite reg_andnot_spec by (unfold PORTB3; lia) ];
    cbn; first [ apply orb_true_r | apply andb_false_r ].
Qed.

Lemma tx_ticks_S (k : nat) (m : mcu) :
  fst (tx_ticks (S k) m) =
    tx_line (ISR_TIMER1_COMPA m) :: fst (tx_ticks k (ISR_TIMER1_COMPA m)) /\
  snd (tx_ticks (S k) m) = snd (tx_ticks k (ISR_TIMER1_COMPA m)).
Proof.
  cbn [tx_ticks]. destruct (tx_ticks k (ISR_TIMER1_COMPA m)). split; reflexivity.
Qed.

Lemma tx_ticks_add (j k : nat) (m : mcu) :
  fst (tx_ticks (j + k) m) = fst (tx_ticks j m) ++ fst (tx_ticks k (snd (tx_ticks j m))) /\
  snd (tx_ticks (j + k) m) = snd (tx_ticks k (snd (tx_ticks j m))).
Proof.
  revert m. induction j as [|j IH]; intros m.
  - split; reflexivity.
  - change (S j + k)%nat with (S (j + k)).
    destruct (tx_ticks_S (j + k) m) as [-> ->].
    destruct (tx_ticks_S j m) as [-> ->].
    destruct (IH (ISR_TIMER1_COMPA m)) as [-> ->].
    split; reflexivity.
Qed.

(** The handler never moves the compare value, so that successive ticks
    are one full counter period apart. *)
Lemma compa_keeps_OCR1A (m : mcu) :
  OCR1A (io (ISR_TIMER1_COMPA m)) = OCR1A (io m).
Proof.
  unfold ISR_TIMER1_COMPA.
  repeat match goal with
         | |- context [if ?c then _ else _] => destruct c
         end; reflexivity.
Qed.

Lemma tx_ticks_keep_OCR1A (k : nat) (m : mcu) :
  OCR1A (io (snd (tx_ticks k m))) = OCR1A (io m).
Proof.
  revert m. induction k as [|k IH]; intros m; [reflexivity|].
  destruct (tx_ticks_S k m) as [_ ->]. rewrite IH. apply compa_keeps_OCR1A.
Qed.

(** The DataBit state shifts out [send_bits] bits, least significant first,
    and then moves to StopBit. *)
Lemma compa_data_bits (n : nat) (m : mcu) :
  tx_state (fd_uart1 m) = 2 ->
  send_bits (fd_uart1 m) = Z.of_nat (S n) ->
  (S n < 256)%nat ->
  fst (tx_ticks (S n) m) =
    map (fun i => Z.testbit (send_byte (fd_uart1 m)) (Z.of_nat i)) (seq 0 (S n)) /\
  tx_state (fd_uart1 (snd (tx_ticks (S n) m))) = 3 /\
  send_ready (fd_uart1 (snd (tx_ticks (S n) m))) = send_ready (fd_uart1 m) /\
  TIMSK (io (snd (tx_ticks (S n) m))) = TIMSK (io m).
Proof.
  revert m. induction n as [|n IH]; intros m Hst Hbits Hn;
    destruct (compa_data_bit m Hst) as (Hl & Hby & Hbi & Hs' & Hr & Ht & _);
    destruct (tx_ticks_S (S n) m) as [E1 E2] || destruct (tx_ticks_S 0 m) as [E1 E2];
    rewrite E1, E2; clear E1 E2; rewrite Hbits in *.
  - cbn [tx_ticks fst snd seq map]. rewrite Hl.
    change (u8 (Z.of_nat 1 - 1) =? 0) with true in Hs'. cbn in Hs'.
    repeat split; assumption.
  - assert (Hu : u8 (Z.of_nat (S (S n)) - 1) = Z.of_nat (S n)).
    { replace (Z.of_nat (S (S n)) - 1) with (Z.of_nat (S n)) by lia.
      apply u8_small. lia. }
    rewrite Hu in Hbi, Hs'.
    destruct (Z.eqb_spec (Z.of_nat (S n)) 0) as [H0|_]; [lia|].
    destruct (IH (ISR_TIMER1_COMPA m) Hs' Hbi ltac:(lia)) as (I1 & I2 & I3 & I4).
    rewrite I1, I2, I3, I4, Hl, Hr, Ht, Hby.
    repeat split.
    replace (seq 0 (S (S n))) with (0%nat :: map S (seq 0 (S n)))
      by (rewrite seq_shift; reflexivity).
    rewrite map_cons, map_map. f_equal.
    apply map_ext. intros i. rewrite Z.shiftr_spec by lia.
    f_equal. lia.
Qed.

Lemma compa_start_bit (m : mcu) :
  tx_state (fd_uart1 m) = 1 ->
  let m' := ISR_TIMER1_COMPA m in
  tx_line m' = false /\
  tx_state (fd_uart1 m') = 2 /\
  send_bits (fd_uart1 m') = 8 /\
  send_byte (fd_uart1 m') = send_byte (fd_uart1 m) /\
  send_ready (fd_uart1 m') = send_ready (fd_uart1 m) /\
  TIMSK (io m') = TIMSK (io m).
Proof.
  intros Hs. unfold ISR_TIMER1_COMPA, tx_line. rewrite Hs.
  cbn -[Z.testbit reg_andnot]. repeat split.
  unfold S1_TX_PIN. rewrite reg_andnot_spec by (unfold PORTB3; lia).
  apply andb_false_r.
Qed.

Lemma compa_stop_bit (m : mcu) :
  tx_state (fd_uart1 m) = 3 ->
  let m' := ISR_TIMER1_COMPA m in
  tx_line m' = true /\
  tx_state (fd_uart1 m') = 4 /\
  send_ready (fd_uart1 m') = send_ready (fd_uart1 m) /\
  TIMSK (io m') = TIMSK (io m).
Proof.
  intros Hs. unfold ISR_TIMER1_COMPA, tx_line. rewrite Hs.
  cbn -[Z.testbit reg_or]. repeat split.
  unfold S1_TX_PIN. rewrite reg_or_spec by (unfold PORTB3; lia).
  apply orb_true_r.
Qed.

Lemma compa_return (m : mcu) :
  tx_state (fd_uart1 m) = 4 ->
  let m' := ISR_TIMER1_COMPA m in
  send_ready (fd_uart1 m') = 1 /\
  tx_state (fd_uart1 m') = 0 /\
  tx_tick_enabled m' = false.
Proof.
  intros Hs. unfold ISR_TIMER1_COMPA, tx_tick_enabled. rewrite Hs.
  cbn -[Z.testbit reg_andnot]. repeat split.
  rewrite reg_andnot_spec by (unfold OCIE1A; lia).
  apply andb_false_r.
Qed.

Lemma send_arms (b : Z) (m : mcu) :
  send_ready (fd_uart1 m) <> 0 ->
  exists m1, fdserial_send b m = Some m1 /\
    tx_state (fd_uart1 m1) = 1 /\
    send_byte (fd_uart1 m1) = u8 b /\
    send_ready (fd_uart1 m1) = 0 /\
    OCR1A (io m1) = TCNT1 (io m) /\
    tx_tick_enabled m1 = true.
Proof.
  intros Hr. unfold fdserial_send.
  destruct (Z.eqb_spec (send_ready (fd_uart1 m)) 0) as [E|_]; [contradiction|].
  eexists. split; [reflexivity|]. unfold tx_tick_enabled.
  cbn -[Z.testbit reg_or u8]. repeat split.
  rewrite reg_or_spec by (unfold OCIE1A; lia). apply orb_true_r.
Qed.

(** C3: after [fdserial_send b] the A-compare ticks drive the TX line low
    for the start bit, then to the eight bits of [b], least significant
    first, then high for the stop bit; [send_ready] stays clear until the
    following tick, which sets it, restores Idle and switches the tick off.
    The compare value is never moved and comes round every TOP + 1 counts,
    so that each level lasts one timer period. *)
Theorem send_emits_frame (b : Z) (m : mcu) :
  0 <= b < 256 ->
  send_ready (fd_uart1 m) <> 0 ->
  exists m1, fdserial_send b m = Some m1 /\
    tx_tick_enabled m1 = true /\
    fst (tx_ticks 10 m1) = false :: lsb_first b ++ [true] /\
    send_ready (fd_uart1 (snd (tx_ticks 10 m1))) = 0 /\
    tx_state (fd_uart1 (snd (tx_ticks 10 m1))) = 4 /\
    send_ready (fd_uart1 (snd (tx_ticks 11 m1))) = 1 /\
    tx_state (fd_uart1 (snd (tx_ticks 11 m1))) = 0 /\
    tx_tick_enabled (snd (tx_ticks 11 m1)) = false /\
    (forall k, OCR1A (io (snd (tx_ticks k m1))) = TCNT1 (io m)) /\
    (0 <= TCNT1 (io m) <= SERIAL_TOP ->
     ctc_run SERIAL_TOP (Z.to_nat (SERIAL_TOP + 1)) (TCNT1 (io m)) = TCNT1 (io m)).
Proof.
  intros Hb Hr.
  destruct (send_arms b m Hr) as (m1 & Hsend & Hs1 & Hby1 & Hr1 & Ho1 & He1).
  exists m1. split; [exact Hsend|]. split; [exact He1|].
  rewrite u8_small in Hby1 by exact Hb.
  destruct (compa_start_bit m1 Hs1) as (Hl2 & Hs2 & Hbi2 & Hby2 & Hr2 & _).
  set (m2 := ISR_TIMER1_COMPA m1) in *.
  destruct (compa_data_bits 7 m2 Hs2 Hbi2 ltac:(lia)) as (Hl3 & Hs3 & Hr3 & _).
  set (m3 := snd (tx_ticks 8 m2)) in *.
  destruct (compa_stop_bit m3 Hs3) as (Hl4 & Hs4 & Hr4 & _).
  set (m4 := ISR_TIMER1_COMPA m3) in *.
  destruct (compa_return m4 Hs4) as (Hr5 & Hs5 & He5).
  assert (E9 : snd (tx_ticks 9 m1) = m3).
  { destruct (tx_ticks_S 8 m1) as [_ ->]. reflexivity. }
  assert (E10 : snd (tx_ticks 10 m1) = m4).
  { destruct (tx_ticks_add 9 1 m1) as [_ E]. change (9 + 1)%nat with 10%nat in E.
    rewrite E, E9. reflexivity. }
  assert (E11 : snd (tx_ticks 11 m1) = ISR_TIMER1_COMPA m4).
  { destruct (tx_ticks_add 10 1 m1) as [_ E]. change (10 + 1)%nat with 11%nat in E.
    rewrite E, E10. reflexivity. }
  rewrite E10, E11.
  repeat split; try congruence.
  - destruct (tx_ticks_add 9 1 m1) as [E _]. change (9 + 1)%nat with 10%nat in E.
    rewrite E, E9. destruct (tx_ticks_S 8 m1) as [-> _]. fold m2.
    rewrite Hl2, Hl3, Hby2, Hby1. cbn [tx_ticks fst app]. fold m4.
    rewrite Hl4. reflexivity.
  - intros k. rewrite tx_ticks_keep_OCR1A. exact Ho1.
  - apply ctc_period.
Qed.

(** The scenario of the specification: after reset and [fdserial_init],
    0x55 goes out as low, then H L H L H L H L, then high. *)
Lemma send_emits_frame_witness :
  0 <= 85 < 256 /\
  send_ready (fd_uart1 (fdserial_init None (reset_state 0))) <> 0 /\
  exists m1, fdserial_send 85 (fdserial_init None (reset_state 0)) = Some m1 /\
    tx_tick_enabled m1 = true /\
    fst (tx_ticks 10 m1) =
      [false; true; false; true; false; true; false; true; false; true] /\
    send_ready (fd_uart1 (snd (tx_ticks 10 m1))) = 0 /\
    tx_state (fd_uart1 (snd (tx_ticks 10 m1))) = 4 /\
    send_ready (fd_uart1 (snd (tx_ticks 11 m1))) = 1 /\
    tx_state (fd_uart1 (snd (tx_ticks 11 m1))) = 0 /\
    tx_tick_enabled (snd (tx_ticks 11 m1)) = false /\
    (forall k, OCR1A (io (snd (tx_ticks k m1))) = 0) /\
    (0 <= 0 <= SERIAL_TOP ->
     ctc_run SERIAL_TOP (Z.to_nat (SERIAL_TOP + 1)) 0 = 0).
Proof.
  split; [lia|]. split; [vm_compute; discriminate|].
  apply (send_emits_frame 85 (fdserial_init None (reset_state 0)));
    [lia | vm_compute; discriminate].
Defined.

End Transmit.

(** ** The receive engine *)

Section Receive.

Variable RING_BUFFER : option Z.

Lemma byte_of_samples_range (l : list bool) :
  0 <= byte_of_samples l < 2 ^ Z.of_nat (length l).
Proof.
  induction l as [|b l IH]; [cbn; lia|].
  cbn [byte_of_samples length]. rewrite Nat2Z.inj_succ, Z.pow_succ_r by lia.
  destruct b; cbn [Z.b2z]; lia.
Qed.

Lemma byte_of_samples_testbit (l : list bool) (i : nat) :
  Z.testbit (byte_of_samples l) (Z.of_nat i) = nth i l false.
Proof.
  revert i. induction l as [|b l IH]; intros i.
  - cbn [byte_of_samples]. rewrite Z.bits_0. destruct i; reflexivity.
  - cbn [byte_of_samples]. rewrite Z.add_comm. destruct i as [|i].
    + apply Z.testbit_0_r.
    + rewrite Nat2Z.inj_succ, Z.testbit_succ_r by lia. apply IH.
Qed.

(** The midpoint of the start bit (and the unused state 1). *)
Lemma compb_start (p : Z) (m : mcu) :
  rx_state (fd_uart1 m) = 0 \/ rx_state (fd_uart1 m) = 1 ->
  ISR_TIMER1_COMPB RING_BUFFER (with_PINB p m) =
    Mcu (set_recv_bits 8 (set_rx_state 2 (fd_uart1 m))) (set_PINB p (io m)).
Proof.
  intros [Hs|Hs]; unfold ISR_TIMER1_COMPB, with_PINB; cbn [fd_uart1 io];
    rewrite Hs; reflexivity.
Qed.

(** One tick in the DataBit state: the shift register moves right and the
    sample enters at bit 7. *)
Lemma compb_data_bit (p : Z) (m : mcu) :
  rx_state (fd_uart1 m) = 2 ->
  0 <= recv_shift (fd_uart1 m) < 256 ->
  ISR_TIMER1_COMPB RING_BUFFER (with_PINB p m) =
    Mcu (let u := set_recv_bits (u8 (recv_bits (fd_uart1 m) - 1))
                    (set_recv_shift
                       (recv_shift (fd_uart1 m) / 2 + Z.b2z (rx_line p) * 128)
                       (fd_uart1 m)) in
         if u8 (recv_bits (fd_uart1 m) - 1) =? 0 then set_rx_state 3 u else u)
        (set_PINB p (io m)).
Proof.
  intros Hs Hr. unfold ISR_TIMER1_COMPB, with_PINB, rx_line. cbn [fd_uart1 io].
  rewrite Hs. cbn -[u8 Z.land Z.lor Z.shiftr Z.testbit Z.div].
  rewrite read_bit_spec.
  destruct (Z.testbit p PORTB2); cbn -[u8 Z.land Z.lor Z.shiftr Z.div].
  - rewrite lor_128 by exact Hr.
    destruct (u8 (recv_bits (fd_uart1 m) - 1) =? 0); reflexivity.
  - rewrite Z.shiftr_div_pow2 by lia. change (2 ^ 1) with 2. rewrite Z.add_0_r.
    destruct (u8 (recv_bits (fd_uart1 m) - 1) =? 0); reflexivity.
Qed.

(** The DataBit state takes [recv_bits] samples; each one enters at bit 7
    and moves down by one place per later sample. *)
Lemma compb_data_bits (pins : list Z) (m : mcu) :
  pins <> [] ->
  (length pins <= 8)%nat ->
  rx_state (fd_uart1 m) = 2 ->
  recv_bits (fd_uart1 m) = Z.of_nat (length pins) ->
  0 <= recv_shift (fd_uart1 m) < 256 ->
  rx_ticks RING_BUFFER pins m =
    Mcu (set_rx_state 3
           (set_recv_bits 0
              (set_recv_shift
                 (recv_shift (fd_uart1 m) / 2 ^ Z.of_nat (length pins) +
                  byte_of_samples (map rx_line pins) * 2 ^ (8 - Z.of_nat (length pins)))
                 (fd_uart1 m))))
        (set_PINB (List.last pins 0) (io m)).
Proof.
  revert m. induction pins as [|p ps IH]; intros m Hne Hlen Hst Hbits Hr;
    [contradiction|].
  cbn [rx_ticks]. rewrite (compb_data_bit p m Hst Hr), Hbits.
  assert (Hb : 0 <= Z.b2z (rx_line p) <= 1) by (destruct (rx_line p); cbn; lia).
  assert (Hd : 0 <= recv_shift (fd_uart1 m) / 2 < 128).
  { split; [apply Z.div_pos; lia | apply Z.div_lt_upper_bound; lia]. }
  cbn [length] in *. rewrite Nat2Z.inj_succ.
  replace (Z.succ (Z.of_nat (length ps)) - 1) with (Z.of_nat (length ps)) by lia.
  rewrite u8_small by lia.
  destruct ps as [|p' ps'].
  - cbn -[Z.div Z.mul]. rewrite Z.mul_0_r, Z.add_0_r.
    change (2 ^ 1) with 2. reflexivity.
  - destruct (Z.eqb_spec (Z.of_nat (length (p' :: ps'))) 0) as [E|_];
      [cbn [length] in E; lia|].
    rewrite IH; clear IH.
    + cbn [fd_uart1 io recv_shift set_recv_bits set_recv_shift set_rx_state
           set_PINB map byte_of_samples List.last].
      set (N := Z.of_nat (length (p' :: ps'))).
      assert (HN : 0 <= N <= 7) by (subst N; cbn [length] in *; lia).
      replace (8 - Z.succ N) with (7 - N) by lia.
      replace (Z.succ N) with (N + 1) by lia.
      rewrite shift_in_arith by exact HN.
      cbn -[Z.div Z.mul Z.pow Z.add Z.sub]. reflexivity.
    + discriminate.
    + cbn [length] in *. lia.
    + exact Hst.
    + reflexivity.
    + cbn [fd_uart1 recv_shift set_recv_bits set_recv_shift]. lia.
Qed.

(** C4: eight B-compare ticks in the DataBit state, started with
    [recv_bits = 8], leave in [recv_shift] the byte whose bit [i] is the
    [i]-th sample, whatever the shift register held before, and move the
    engine to AwaitHigh. *)
Theorem recv_assembles_lsb_first (pins : list Z) (m : mcu) :
  length pins = 8%nat ->
  rx_state (fd_uart1 m) = 2 ->
  recv_bits (fd_uart1 m) = 8 ->
  0 <= recv_shift (fd_uart1 m) < 256 ->
  let m' := rx_ticks RING_BUFFER pins m in
  recv_shift (fd_uart1 m') = byte_of_samples (map rx_line pins) /\
  (forall i, (i < 8)%nat ->
     Z.testbit (recv_shift (fd_uart1 m')) (Z.of_nat i) =
     rx_line (nth i pins 0)) /\
  rx_state (fd_uart1 m') = 3.
Proof.
  intros Hlen Hst Hbits Hr m'.
  assert (E : recv_shift (fd_uart1 m') = byte_of_samples (map rx_line pins)).
  { subst m'. rewrite compb_data_bits; try assumption.
    - rewrite Hlen. cbn [fd_uart1 recv_shift set_rx_state set_recv_bits set_recv_shift].
      change (2 ^ (8 - Z.of_nat 8)) with 1.
      rewrite Z.div_small by (change (2 ^ Z.of_nat 8) with 256; lia). lia.
    - intros ->. discriminate.
    - lia.
    - rewrite Hlen. exact Hbits. }
  split; [exact E|]. split.
  - intros i Hi. rewrite E, byte_of_samples_testbit.
    change false with (rx_line 0). apply map_nth.
  - subst m'. rewrite compb_data_bits; try assumption.
    + reflexivity.
    + intros ->. discriminate.
    + lia.
    + rewrite Hlen. exact Hbits.
Qed.

Lemma rx_ticks_app (ps qs : list Z) (m : mcu) :
  rx_ticks RING_BUFFER (ps ++ qs) m =
    rx_ticks RING_BUFFER qs (rx_ticks RING_BUFFER ps m).
Proof.
  revert m. induction ps as [|p ps IH]; intros m; [reflexivity|].
  cbn [app rx_ticks]. apply IH.
Qed.

Lemma rx_line_pin_level (b : bool) : rx_line (pin_level b) = b.
Proof. destruct b; reflexivity. Qed.

Lemma samples_of_pins (s : list bool) : map rx_line (map pin_level s) = s.
Proof.
  induction s as [|b s IH]; [reflexivity|].
  cbn [map]. rewrite rx_line_pin_level, IH. reflexivity.
Qed.

(** The AwaitHigh state: a low sample changes nothing, a high sample
    publishes the byte, returns to Idle and hands over to the edge
    detector. *)
Lemma compb_await_high (p : Z) (m : mcu) :
  rx_state (fd_uart1 m) = 3 ->
  ISR_TIMER1_COMPB RING_BUFFER (with_PINB p m) =
    if rx_line p
    then Mcu (set_rx_state 0 (rx_publish RING_BUFFER (fd_uart1 m)))
             (_enable_int0 (_stop_rx (set_PINB p (io m))))
    else with_PINB p m.
Proof.
  intros Hs. unfold ISR_TIMER1_COMPB, with_PINB, rx_line. cbn [fd_uart1 io].
  rewrite Hs. cbn -[u8 Z.land Z.testbit rx_publish _enable_int0 _stop_rx].
  rewrite read_bit_spec. destruct (Z.testbit p PORTB2); reflexivity.
Qed.

(** The state of the instance after a frame has been published. *)
Lemma receive_frame_uart (tcnt : Z) (s : list bool) (m : mcu) :
  length s = 8%nat ->
  rx_state (fd_uart1 m) = 0 ->
  0 <= recv_shift (fd_uart1 m) < 256 ->
  let m' := receive_frame RING_BUFFER tcnt (frame_of_samples s) m in
  fd_uart1 m' =
    set_rx_state 0
      (rx_publish RING_BUFFER
         (set_rx_state 3
            (set_recv_bits 0 (set_recv_shift (byte_of_samples s) (fd_uart1 m))))) /\
  edge_enabled m' = true /\
  rx_tick_enabled m' = false.
Proof.
  intros Hlen Hst Hr m'. subst m'. unfold receive_frame, frame_of_samples.
  set (m1 := ISR_INT0 (with_TCNT1 tcnt m)).
  assert (Hu1 : fd_uart1 m1 = fd_uart1 m) by reflexivity.
  cbn [rx_ticks]. rewrite compb_start by (left; rewrite Hu1; exact Hst).
  rewrite rx_ticks_app.
  rewrite (compb_data_bits (map pin_level s));
    rewrite ?length_map, ?Hlen;
    [ | intros E; apply (f_equal (@length Z)) in E;
        rewrite length_map, Hlen in E; discriminate
      | lia | reflexivity | reflexivity
      | cbn [fd_uart1 recv_shift set_recv_bits set_rx_state]; rewrite Hu1; exact Hr ].
  cbn [rx_ticks]. rewrite compb_await_high by reflexivity.
  rewrite rx_line_pin_level, samples_of_pins.
  cbn [fd_uart1 io recv_shift set_recv_bits set_rx_state set_recv_shift].
  rewrite Hu1. change (2 ^ (8 - Z.of_nat 8)) with 1.
  rewrite Z.div_small by (change (2 ^ Z.of_nat 8) with 256; lia).
  rewrite Z.add_0_l, Z.mul_1_r.
  split; [|split].
  - f_equal.
  - unfold edge_enabled. cbn -[Z.testbit reg_or reg_andnot flag_write].
    rewrite reg_or_spec by (unfold INT0; lia). apply orb_true_r.
  - unfold rx_tick_enabled. cbn -[Z.testbit reg_or reg_andnot flag_write].
    rewrite reg_andnot_spec by (unfold OCIE1B; lia). apply andb_false_r.
Qed.

(** The wire order of a byte and the assembly of samples are inverse. *)
Lemma byte_of_lsb_first (b : Z) :
  0 <= b < 256 -> byte_of_samples (lsb_first b) = b.
Proof.
  intros Hb. apply Z.bits_inj'. intros i Hi.
  destruct (Z.ltb_spec i 8) as [L|L].
  - rewrite <- (Z2Nat.id i) by lia. rewrite byte_of_samples_testbit.
    unfold lsb_first.
    assert (Hn : (Z.to_nat i < 8)%nat) by lia.
    revert Hn. generalize (Z.to_nat i). intros k Hk.
    do 8 (destruct k as [|k]; [reflexivity|]). lia.
  - pose proof (byte_of_samples_range (lsb_first b)) as R.
    change (2 ^ Z.of_nat (length (lsb_first b))) with (2 ^ 8) in R.
    rewrite <- (Z.mod_small (byte_of_samples (lsb_first b)) (2 ^ 8)) by exact R.
    rewrite <- (Z.mod_small b (2 ^ 8)) by (change (2 ^ 8) with 256; lia).
    rewrite !Z.mod_pow2_bits_high by lia. reflexivity.
Qed.

Lemma receive_frame_byte (tcnt b : Z) (m : mcu) :
  0 <= b < 256 ->
  rx_state (fd_uart1 m) = 0 ->
  0 <= recv_shift (fd_uart1 m) < 256 ->
  let m' := receive_frame RING_BUFFER tcnt (frame_pins b) m in
  fd_uart1 m' = published RING_BUFFER b (fd_uart1 m) /\
  rx_state (fd_uart1 m') = 0 /\
  0 <= recv_shift (fd_uart1 m') < 256.
Proof.
  intros Hb Hst Hr m'.
  destruct (receive_frame_uart tcnt (lsb_first b) m eq_refl Hst Hr) as (Hu & _).
  rewrite byte_of_lsb_first in Hu by exact Hb.
  fold (frame_pins b) in Hu. fold m' in Hu. fold (published RING_BUFFER b (fd_uart1 m)) in Hu.
  rewrite Hu. split; [reflexivity|].
  unfold published, rx_publish. destruct RING_BUFFER as [k|]; split_ifs;
    cbn [rx_state recv_shift set_rx_state set_rx_tail set_rx_head set_rx_buf
         set_recv_bits set_recv_shift set_recv_byte set_available rx_head rx_tail];
    split; (reflexivity || exact Hb).
Qed.

End Receive.

(** ** Timing: the counter and the edge handler *)

Section Timing.

(** The edge handler leaves everything but OCR1B, GIMSK, TIFR and TIMSK. *)
Lemma int0_spec (m : mcu) :
  let c := TCNT1 (io m) in
  let m' := ISR_INT0 m in
  OCR1B (io m') =
    (if c >=? SERIAL_HALFBIT then u8 (c - SERIAL_HALFBIT) else u8 (c + SERIAL_HALFBIT)) /\
  edge_enabled m' = false /\
  rx_tick_enabled m' = true /\
  tx_tick_enabled m' = tx_tick_enabled m /\
  fd_uart1 m' = fd_uart1 m.
Proof.
  unfold ISR_INT0, edge_enabled, rx_tick_enabled, tx_tick_enabled.
  destruct (TCNT1 (io m) >=? SERIAL_HALFBIT);
    cbn -[Z.testbit reg_or reg_andnot u8 flag_write];
    rewrite reg_andnot_spec, !reg_or_spec by (unfold INT0, OCIE1A, OCIE1B; lia);
    repeat split; try apply andb_false_r; try apply orb_true_r; apply orb_false_r.
Qed.

(** C5: for a counter value in [0, TOP] the edge handler writes
    [tcnt - HALFBIT] or [tcnt + HALFBIT] to OCR1B, which is
    [(tcnt + HALFBIT) mod (TOP + 1)] and a valid compare value; the counter
    reaches it after exactly HALFBIT counts and not before, and again every
    TOP + 1 counts; the handler masks INT0 and enables the B tick. *)
Theorem int0_schedules_half_bit (m : mcu) :
  0 <= TCNT1 (io m) <= SERIAL_TOP ->
  let tcnt := TCNT1 (io m) in
  let m' := ISR_INT0 m in
  OCR1B (io m') =
    (if tcnt >=? SERIAL_HALFBIT then tcnt - SERIAL_HALFBIT else tcnt + SERIAL_HALFBIT) /\
  OCR1B (io m') = spec_sample_point tcnt /\
  0 <= OCR1B (io m') <= SERIAL_TOP /\
  ctc_run SERIAL_TOP (Z.to_nat SERIAL_HALFBIT) tcnt = OCR1B (io m') /\
  (forall k, (0 < k < Z.to_nat SERIAL_HALFBIT)%nat ->
     ctc_run SERIAL_TOP k tcnt <> OCR1B (io m')) /\
  ctc_run SERIAL_TOP (Z.to_nat (SERIAL_TOP + 1)) (OCR1B (io m')) = OCR1B (io m') /\
  (forall k, (0 < k < Z.to_nat (SERIAL_TOP + 1))%nat ->
     ctc_run SERIAL_TOP k (OCR1B (io m')) <> OCR1B (io m')) /\
  edge_enabled m' = false /\
  rx_tick_enabled m' = true.
Proof.
  intros Hc tcnt m'.
  destruct (int0_spec m) as (Ho & He & Hrx & _ & _).
  fold m' in Ho, He, Hrx. fold tcnt in Ho, Hc.
  unfold SERIAL_TOP, SERIAL_HALFBIT, spec_sample_point in *.
  assert (Hv : OCR1B (io m') = (if tcnt >=? 104 then tcnt - 104 else tcnt + 104)).
  { rewrite Ho. destruct (tcnt >=? 104) eqn:E; apply u8_small; lia. }
  assert (Hm : OCR1B (io m') = (tcnt + 104) mod (207 + 1)).
  { rewrite Hv. destruct (Z.geb_spec tcnt 104).
    - replace (tcnt + 104) with (tcnt - 104 + 1 * 208) by lia.
      rewrite Z.mod_add by lia. symmetry. apply Z.mod_small. lia.
    - symmetry. apply Z.mod_small. lia. }
  assert (Hrange : 0 <= OCR1B (io m') <= 207).
  { rewrite Hv. destruct (Z.geb_spec tcnt 104); lia. }
  repeat split; try assumption; try lia.
  - rewrite ctc_run_mod by lia. rewrite Hm. reflexivity.
  - intros k Hk. rewrite ctc_run_mod by lia. rewrite Hm.
    change (207 + 1) with 208. intros E.
    assert (Hk' : 0 < Z.of_nat k < 104) by lia.
    revert E. generalize (Z.of_nat k) Hk'. intros z Hz E.
    pose proof (Z.div_mod (tcnt + z) 208 ltac:(lia)).
    pose proof (Z.div_mod (tcnt + 104) 208 ltac:(lia)).
    pose proof (Z.mod_pos_bound (tcnt + z) 208 ltac:(lia)).
    pose proof (Z.mod_pos_bound (tcnt + 104) 208 ltac:(lia)).
    lia.
  - rewrite ctc_run_mod by lia. change (Z.of_nat (Z.to_nat (207 + 1))) with (1 * 208).
    change (207 + 1) with 208. rewrite Z.mod_add by lia. apply Z.mod_small. lia.
  - intros k Hk. rewrite ctc_run_mod by lia. change (207 + 1) with 208. intros E.
    assert (Hk' : 0 < Z.of_nat k < 208) by lia.
    revert E. generalize (Z.of_nat k) Hk'. intros z Hz E.
    pose proof (Z.div_mod (OCR1B (io m') + z) 208 ltac:(lia)).
    pose proof (Z.mod_pos_bound (OCR1B (io m') + z) 208 ltac:(lia)).
    lia.
Qed.

End Timing.

(** ** The foreground API *)

Section Api.

Variable RING_BUFFER : option Z.

(** The instance as [fdserial_init] leaves it. *)
Lemma init_fields (m0 : mcu) :
  let u := fd_uart1 (fdserial_init RING_BUFFER m0) in
  tx_state u = 0 /\ rx_state u = 0 /\ send_ready u = 1 /\ available u = 0 /\
  recv_shift u = recv_shift (fd_uart1 m0) /\
  rx_buf u = rx_buf (fd_uart1 m0) /\
  (RING_BUFFER <> None -> rx_head u = 0 /\ rx_tail u = 0).
Proof.
  unfold fdserial_init. destruct RING_BUFFER; cbn; repeat split; congruence.
Qed.

(** C8, as the code has it: [fdserial_init] sets [tx_state], [rx_state],
    [available] and the ring indices to zero and [send_ready] to one, and
    leaves the other fields of the instance alone; it does not write TIMSK,
    so the two tick interrupts stay as they were; it enables the edge
    detector, selects the falling edge bit, loads the compare registers
    and the top value, installs CTC mode with the prescaler running, makes
    the TX pin an output driven high and the RX pin an input with
    pull-up. *)
Theorem init_establishes (m0 : mcu) :
  let m := fdserial_init RING_BUFFER m0 in
  let u := fd_uart1 m in
  let r := io m in
  (tx_state u = 0 /\ rx_state u = 0 /\ send_ready u = 1 /\ available u = 0) /\
  (RING_BUFFER <> None -> rx_head u = 0 /\ rx_tail u = 0) /\
  fdserial_available RING_BUFFER m = 0 /\
  (send_byte u = send_byte (fd_uart1 m0) /\
   send_bits u = send_bits (fd_uart1 m0) /\
   delay u = delay (fd_uart1 m0) /\
   recv_shift u = recv_shift (fd_uart1 m0) /\
   recv_bits u = recv_bits (fd_uart1 m0) /\
   recv_byte u = recv_byte (fd_uart1 m0) /\
   rx_buf u = rx_buf (fd_uart1 m0)) /\
  (TIMSK r = TIMSK (io m0) /\
   tx_tick_enabled m = tx_tick_enabled m0 /\
   rx_tick_enabled m = rx_tick_enabled m0) /\
  (edge_enabled m = true /\ Z.testbit (MCUCR r) ISC01 = true) /\
  (TCNT1 r = 0 /\ OCR1A r = 16 /\ OCR1B r = 32 /\ OCR1C r = SERIAL_TOP) /\
  (TCCR1 r = Z.lor (Z.shiftl 1 CTC1) PRESCALER /\
   Z.testbit (TCCR1 r) CTC1 = true /\
   Z.land (TCCR1 r) 15 = PRESCALER) /\
  (Z.testbit (DDRB r) PORTB3 = true /\ tx_line m = true) /\
  (Z.testbit (DDRB r) PORTB2 = false /\ Z.testbit (PORTB r) PORTB2 = true).
Proof.
  unfold fdserial_init, fdserial_available, edge_enabled, tx_tick_enabled,
    rx_tick_enabled, tx_line, S1_TX_PIN, S1_RX_PIN.
  destruct RING_BUFFER as [n|];
    cbn -[Z.testbit reg_or reg_andnot flag_write];
    rewrite ?reg_or_spec, ?reg_andnot_spec, ?reg_or_spec
      by (unfold INT0, ISC01, PORTB2, PORTB3; lia);
    cbn [Z.eqb PORTB2 PORTB3 INT0 ISC01 Pos.eqb negb];
    rewrite ?orb_true_r, ?andb_false_r, ?orb_false_r, ?andb_true_r;
    repeat split; try reflexivity; try apply orb_true_r;
    try (intros _; repeat split; reflexivity); try congruence.
Qed.

(** C6, as the code has it: [fdserial_alarm] returns only from a state
    with [send_ready] set; while [ms * F] fits 32 bits it loads [delay] with
    the whole bit periods in [ms * F / P / 1000] timer counts, rounded
    down, clears [send_ready] and enters the Delay state, whatever the
    counter reads; it writes the counter minus the left-over count, as a
    byte, to OCR1A, and when the counter is at least the left-over count
    that is the counter back-dated by exactly that count, a valid compare
    value. *)
Theorem alarm_programs_delay (ms : Z) (m : mcu) :
  0 <= ms ->
  ms * CPU_FREQ < 2 ^ 32 ->
  let ticks := ms * CPU_FREQ / PRESCALER_DIVISOR / 1000 in
  let remainder := ticks mod (SERIAL_TOP + 1) in
  match fdserial_alarm ms m with
  | None => send_ready (fd_uart1 m) = 0
  | Some m' =>
      send_ready (fd_uart1 m) <> 0 /\
      delay (fd_uart1 m') = ticks / (SERIAL_TOP + 1) /\
      ticks = delay (fd_uart1 m') * (SERIAL_TOP + 1) + remainder /\
      OCR1A (io m') = u8 (TCNT1 (io m) - remainder) /\
      (remainder <= TCNT1 (io m) <= SERIAL_TOP ->
       OCR1A (io m') = TCNT1 (io m) - remainder /\
       0 <= OCR1A (io m') <= SERIAL_TOP) /\
      send_ready (fd_uart1 m') = 0 /\
      tx_state (fd_uart1 m') = 5
  end.
Proof.
  intros Hms Hfit ticks remainder. unfold fdserial_alarm.
  destruct (Z.eqb_spec (send_ready (fd_uart1 m)) 0) as [E|E]; [exact E|].
  cbn [fd_uart1 io delay send_ready tx_state OCR1A set_delay set_send_ready
       set_tx_state set_OCR1A].
  unfold CPU_FREQ, PRESCALER_DIVISOR, SERIAL_TOP in *.
  change (207 + 1) with 208 in *.
  assert (Hu : u32 (ms * 8000000) = ms * 8000000)
    by (unfold u32; apply Z.mod_small; lia).
  rewrite Hu. fold ticks.
  assert (Ht : 0 <= ticks < 2 ^ 32).
  { subst ticks. split.
    - apply Z.div_pos; [apply Z.div_pos|]; lia.
    - apply Z.div_lt_upper_bound; [lia|]. apply Z.div_lt_upper_bound; lia. }
  pose proof (Z.div_mod ticks 208 ltac:(lia)) as Hdm.
  pose proof (Z.mod_pos_bound ticks 208 ltac:(lia)) as Hmb.
  fold remainder in Hdm, Hmb.
  assert (Hq : 0 <= ticks / 208) by (apply Z.div_pos; lia).
  assert (Hr : u8 (u32 (ticks - u32 (ticks / 208 * 208))) = remainder).
  { unfold u32. rewrite (Z.mod_small (ticks / 208 * 208)) by lia.
    replace (ticks - ticks / 208 * 208) with remainder by lia.
    rewrite Z.mod_small by lia. apply u8_small. lia. }
  rewrite Hr.
  split; [exact E|]. split; [reflexivity|]. split; [lia|].
  split; [reflexivity|]. split; [|split; reflexivity].
  intros Hc. rewrite u8_small by lia. lia.
Qed.

End Api.

(** ** The receive ring *)

Section Ring.

Variable n : Z.
Hypothesis n_range : 1 <= n <= 256.

Lemma ring_next_range (x : Z) :
  0 <= x < n ->
  ring_next n x = (if x =? n - 1 then 0 else x + 1) /\ 0 <= ring_next n x < n.
Proof.
  intros Hx. unfold ring_next.
  destruct (Z.eqb_spec x (n - 1)); [lia|].
  rewrite u8_small by lia. lia.
Qed.

Lemma spec_available_cases (h t : Z) :
  0 <= h < n -> 0 <= t < n ->
  spec_available n h t = if h - t <? 0 then h - t + n else h - t.
Proof.
  intros Hh Ht. unfold spec_available.
  destruct (Z.ltb_spec (h - t) 0).
  - apply Z.mod_small. lia.
  - replace (h - t + n) with (h - t + 1 * n) by lia.
    rewrite Z.mod_add by lia. apply Z.mod_small. lia.
Qed.

(** Reading until the ring is empty takes as many calls as the distance
    from the tail to the head. *)
Lemma drain_length (fuel : nat) (m : mcu) :
  0 <= rx_head (fd_uart1 m) < n ->
  0 <= rx_tail (fd_uart1 m) < n ->
  spec_available n (rx_head (fd_uart1 m)) (rx_tail (fd_uart1 m)) <= Z.of_nat fuel ->
  Z.of_nat (length (drain (Some n) fuel m)) =
    spec_available n (rx_head (fd_uart1 m)) (rx_tail (fd_uart1 m)).
Proof.
  revert m. induction fuel as [|fuel IH]; intros m Hh Ht Hc;
    rewrite spec_available_cases in * by assumption.
  - cbn [drain length]. destruct (Z.ltb_spec (rx_head (fd_uart1 m) - rx_tail (fd_uart1 m)) 0); lia.
  - cbn [drain]. unfold fdserial_recv.
    destruct (Z.eqb_spec (rx_head (fd_uart1 m)) (rx_tail (fd_uart1 m))) as [E|E].
    + cbn [length]. rewrite E, Z.sub_diag. reflexivity.
    + cbn [length]. rewrite Nat2Z.inj_succ, IH; clear IH;
        cbn [fd_uart1 rx_head rx_tail set_rx_tail];
        destruct (ring_next_range (rx_tail (fd_uart1 m)) Ht) as [-> _];
        try rewrite spec_available_cases;
        try (destruct (Z.eqb_spec (rx_tail (fd_uart1 m)) (n - 1));
             repeat match goal with
                    | |- context [?a <? ?b] => destruct (Z.ltb_spec a b)
                    | H : context [?a <? ?b] |- _ => destruct (Z.ltb_spec a b)
                    end; lia).
Qed.

Lemma unread_length (m : mcu) :
  0 <= rx_head (fd_uart1 m) < n ->
  0 <= rx_tail (fd_uart1 m) < n ->
  Z.of_nat (length (unread n m)) =
    spec_available n (rx_head (fd_uart1 m)) (rx_tail (fd_uart1 m)) /\
  Z.of_nat (length (unread n m)) <= n - 1.
Proof.
  intros Hh Ht. unfold unread.
  assert (Hb : spec_available n (rx_head (fd_uart1 m)) (rx_tail (fd_uart1 m)) <= n - 1).
  { rewrite spec_available_cases by assumption.
    destruct (Z.ltb_spec (rx_head (fd_uart1 m) - rx_tail (fd_uart1 m)) 0); lia. }
  rewrite drain_length; try assumption; [lia | lia].
Qed.

Lemma unread_nil_iff (m : mcu) :
  unread n m = [] <-> rx_head (fd_uart1 m) = rx_tail (fd_uart1 m).
Proof.
  unfold unread. destruct (Z.to_nat n) as [|k] eqn:Hk; [lia|].
  cbn [drain]. unfold fdserial_recv.
  destruct (Z.eqb_spec (rx_head (fd_uart1 m)) (rx_tail (fd_uart1 m))) as [E|E].
  - split; auto.
  - split; [discriminate | contradiction].
Qed.

(** What [fdserial_available] computes through its signed [char]. *)
Lemma available_ring (m : mcu) :
  0 <= rx_head (fd_uart1 m) < n ->
  0 <= rx_tail (fd_uart1 m) < n ->
  0 <= fdserial_available (Some n) m < n /\
  (n <= 128 ->
   fdserial_available (Some n) m =
     spec_available n (rx_head (fd_uart1 m)) (rx_tail (fd_uart1 m))).
Proof.
  intros Hh Ht. unfold fdserial_available.
  rewrite spec_available_cases by assumption.
  generalize (rx_head (fd_uart1 m)) (rx_tail (fd_uart1 m)) Hh Ht.
  clear Hh Ht. intros h t Hh Ht. unfold s8, u8.
  pose proof (Z.div_mod (h - t) 256 ltac:(lia)) as D1.
  pose proof (Z.mod_pos_bound (h - t) 256 ltac:(lia)) as B1.
  destruct (Z.ltb_spec ((h - t) mod 256) 128) as [L|L];
    cbv zeta;
    match goal with
    | |- context [?d <? 0] => destruct (Z.ltb_spec d 0) as [L0|L0]
    end;
    match goal with
    | |- context [?x mod 256] =>
        lazymatch x with
        | h - t => fail
        | _ => pose proof (Z.div_mod x 256 ltac:(lia)) as D2;
               pose proof (Z.mod_pos_bound x 256 ltac:(lia)) as B2
        end
    end;
    (split; [|intros Hn; destruct (Z.ltb_spec (h - t) 0)]); lia.
Qed.

(** The distance from the tail to the head shrinks by one when the tail
    moves on. *)
Lemma spec_available_next_tail (h t : Z) :
  0 <= h < n -> 0 <= t < n -> h <> t ->
  spec_available n h (ring_next n t) = spec_available n h t - 1.
Proof.
  intros Hh Ht Hne.
  destruct (ring_next_range t Ht) as [E R].
  rewrite !spec_available_cases by assumption. rewrite E.
  destruct (Z.eqb_spec t (n - 1));
    repeat match goal with
           | |- context [?a <? ?b] => destruct (Z.ltb_spec a b)
           end; lia.
Qed.

Lemma spec_available_zero (h t : Z) :
  0 <= h < n -> 0 <= t < n -> (spec_available n h t = 0 <-> h = t).
Proof.
  intros Hh Ht. rewrite spec_available_cases by assumption.
  destruct (Z.ltb_spec (h - t) 0); lia.
Qed.

(** What successive reads return is the stretch of the array from the
    tail up to the head. *)
Lemma drain_slice (fuel : nat) (m : mcu) :
  0 <= rx_head (fd_uart1 m) < n ->
  0 <= rx_tail (fd_uart1 m) < n ->
  spec_available n (rx_head (fd_uart1 m)) (rx_tail (fd_uart1 m)) <= Z.of_nat fuel ->
  drain (Some n) fuel m =
    ring_slice n (rx_buf (fd_uart1 m)) (rx_tail (fd_uart1 m))
      (Z.to_nat (spec_available n (rx_head (fd_uart1 m)) (rx_tail (fd_uart1 m)))).
Proof.
  revert m. induction fuel as [|fuel IH]; intros m Hh Ht Hc.
  - assert (E : spec_available n (rx_head (fd_uart1 m)) (rx_tail (fd_uart1 m)) = 0).
    { rewrite spec_available_cases in * by assumption.
      destruct (Z.ltb_spec (rx_head (fd_uart1 m) - rx_tail (fd_uart1 m)) 0); lia. }
    rewrite E. reflexivity.
  - cbn [drain]. unfold fdserial_recv.
    destruct (Z.eqb_spec (rx_head (fd_uart1 m)) (rx_tail (fd_uart1 m))) as [E|E].
    + rewrite (proj2 (spec_available_zero _ _ Hh Ht) E). reflexivity.
    + pose proof (spec_available_next_tail _ _ Hh Ht E) as Hn.
      destruct (ring_next_range _ Ht) as [_ R].
      assert (Hpos : 0 < spec_available n (rx_head (fd_uart1 m)) (rx_tail (fd_uart1 m))).
      { rewrite spec_available_cases by assumption.
        destruct (Z.ltb_spec (rx_head (fd_uart1 m) - rx_tail (fd_uart1 m)) 0); lia. }
      rewrite IH; cbn [fd_uart1 rx_head rx_tail rx_buf set_rx_tail];
        [ | assumption | assumption | lia ].
      rewrite Hn.
      replace (Z.to_nat (spec_available n (rx_head (fd_uart1 m)) (rx_tail (fd_uart1 m))))
        with (S (Z.to_nat (spec_available n (rx_head (fd_uart1 m))
                             (rx_tail (fd_uart1 m)) - 1))) by lia.
      reflexivity.
Qed.

Lemma unread_slice (m : mcu) :
  0 <= rx_head (fd_uart1 m) < n ->
  0 <= rx_tail (fd_uart1 m) < n ->
  unread n m =
    ring_slice n (rx_buf (fd_uart1 m)) (rx_tail (fd_uart1 m))
      (Z.to_nat (spec_available n (rx_head (fd_uart1 m)) (rx_tail (fd_uart1 m)))).
Proof.
  intros Hh Ht. unfold unread. apply drain_slice; try assumption.
  rewrite spec_available_cases by assumption.
  destruct (Z.ltb_spec (rx_head (fd_uart1 m) - rx_tail (fd_uart1 m)) 0); lia.
Qed.

(** Storing at the head extends the stretch from the tail by the new
    byte and leaves the earlier ones. *)
Lemma ring_slice_store (buf : list Z) (b h : Z) (k : nat) (t : Z) :
  Z.of_nat (length buf) = n ->
  0 <= h < n -> 0 <= t < n ->
  spec_available n h t = Z.of_nat k ->
  ring_slice n (buf_set buf h b) t (S k) = ring_slice n buf t k ++ [b].
Proof.
  intros Hlen Hh. revert t. induction k as [|k IH]; intros t Ht Hd.
  - assert (E : h = t) by (apply (spec_available_zero h t Hh Ht); exact Hd).
    subst t. cbn [ring_slice app]. rewrite buf_get_set by lia. reflexivity.
  - assert (Hne : h <> t).
    { intros E. apply (spec_available_zero h t Hh Ht) in E. lia. }
    destruct (ring_next_range _ Ht) as [_ R].
    change (ring_slice n (buf_set buf h b) t (S (S k)))
      with (buf_get (buf_set buf h b) t
              :: ring_slice n (buf_set buf h b) (ring_next n t) (S k)).
    rewrite IH by (try assumption; rewrite spec_available_next_tail by assumption; lia).
    rewrite buf_get_set_ne by lia. reflexivity.
Qed.

(** Publishing a byte is a push on the queue of unread bytes: the byte is
    appended and, when the ring is full, the oldest one is dropped. *)
Lemma unread_publish (m : mcu) (r : avr_io) :
  Z.of_nat (length (rx_buf (fd_uart1 m))) = n ->
  0 <= rx_head (fd_uart1 m) < n ->
  0 <= rx_tail (fd_uart1 m) < n ->
  unread n (Mcu (rx_publish (Some n) (fd_uart1 m)) r) =
    queue_push n (unread n m) (recv_shift (fd_uart1 m)).
Proof.
  intros Hlen Hh Ht.
  pose proof (ring_slice_store (rx_buf (fd_uart1 m)) (recv_shift (fd_uart1 m)) (rx_head (fd_uart1 m))
                (Z.to_nat (spec_available n (rx_head (fd_uart1 m)) (rx_tail (fd_uart1 m)))) (rx_tail (fd_uart1 m))
                Hlen Hh Ht) as K.
  assert (Hc : 0 <= spec_available n (rx_head (fd_uart1 m)) (rx_tail (fd_uart1 m)) <= n - 1).
  { rewrite spec_available_cases by assumption.
    destruct (Z.ltb_spec (rx_head (fd_uart1 m) - rx_tail (fd_uart1 m)) 0); lia. }
  rewrite <- (unread_slice m Hh Ht) in K. specialize (K ltac:(lia)).
  destruct (ring_next_range _ Hh) as [Eh Rh].
  destruct (ring_next_range _ Ht) as [Et Rt].
  pose proof (unread_length m Hh Ht) as [Hul _].
  unfold queue_push. cbv zeta.
  assert (Hq : Z.of_nat (length (unread n m ++ [recv_shift (fd_uart1 m)])) =
               spec_available n (rx_head (fd_uart1 m)) (rx_tail (fd_uart1 m)) + 1).
  { rewrite length_app. cbn [length]. lia. }
  rewrite Hq, <- K. clear Hq.
  rewrite unread_slice; unfold rx_publish; cbv zeta;
    cbn [fd_uart1 rx_head rx_tail rx_buf set_rx_head set_rx_tail set_rx_buf].
  - destruct (Z.eqb_spec (ring_next n (rx_head (fd_uart1 m))) (rx_tail (fd_uart1 m))) as [E|E];
      cbn [rx_head rx_tail rx_buf set_rx_head set_rx_tail set_rx_buf].
    + (* the ring was full *)
      assert (Hfull : spec_available n (rx_head (fd_uart1 m)) (rx_tail (fd_uart1 m)) = n - 1).
      { rewrite spec_available_cases by assumption. rewrite Eh in E.
        destruct (Z.eqb_spec (rx_head (fd_uart1 m)) (n - 1));
          destruct (Z.ltb_spec (rx_head (fd_uart1 m) - rx_tail (fd_uart1 m)) 0); lia. }
      destruct (Z.ltb_spec
                  (spec_available n (rx_head (fd_uart1 m)) (rx_tail (fd_uart1 m)) + 1) n)
        as [L|L]; [lia|].
      rewrite Hfull. rewrite E.
      assert (Hd : spec_available n (rx_tail (fd_uart1 m)) (ring_next n (rx_tail (fd_uart1 m))) = n - 1).
      { rewrite spec_available_cases by assumption. rewrite Et.
        destruct (Z.eqb_spec (rx_tail (fd_uart1 m)) (n - 1));
          match goal with
          | |- context [?a <? ?b] => destruct (Z.ltb_spec a b)
          end; lia. }
      rewrite Hd. reflexivity.
    + (* room left *)
      assert (Hroom : spec_available n (ring_next n (rx_head (fd_uart1 m))) (rx_tail (fd_uart1 m))
                      = spec_available n (rx_head (fd_uart1 m)) (rx_tail (fd_uart1 m)) + 1).
      { rewrite !spec_available_cases by assumption. rewrite Eh in *.
        destruct (Z.eqb_spec (rx_head (fd_uart1 m)) (n - 1));
          repeat match goal with
                 | |- context [?a <? ?b] => destruct (Z.ltb_spec a b)
                 end; lia. }
      assert (Hlt : spec_available n (rx_head (fd_uart1 m)) (rx_tail (fd_uart1 m)) < n - 1).
      { pose proof (spec_available_cases (ring_next n (rx_head (fd_uart1 m))) (rx_tail (fd_uart1 m)) Rh Ht) as C.
        rewrite Hroom in C.
        destruct (Z.ltb_spec (ring_next n (rx_head (fd_uart1 m)) - rx_tail (fd_uart1 m)) 0); lia. }
      destruct (Z.ltb_spec
                  (spec_available n (rx_head (fd_uart1 m)) (rx_tail (fd_uart1 m)) + 1) n)
        as [L|L]; [|lia].
      rewrite Hroom.
      replace (Z.to_nat (spec_available n (rx_head (fd_uart1 m)) (rx_tail (fd_uart1 m)) + 1))
        with (S (Z.to_nat (spec_available n (rx_head (fd_uart1 m)) (rx_tail (fd_uart1 m))))) by lia.
      reflexivity.
  - destruct (ring_next n (rx_head (fd_uart1 m)) =? rx_tail (fd_uart1 m));
      cbn [rx_head set_rx_head set_rx_tail set_rx_buf]; exact Rh.
  - destruct (ring_next n (rx_head (fd_uart1 m)) =? rx_tail (fd_uart1 m));
      cbn [rx_tail set_rx_head set_rx_tail set_rx_buf]; assumption.
Qed.

(** A read takes the oldest unread byte. *)
Lemma unread_recv (m m' : mcu) (c : Z) :
  0 <= rx_head (fd_uart1 m) < n ->
  0 <= rx_tail (fd_uart1 m) < n ->
  fdserial_recv (Some n) m = Some (c, m') ->
  unread n m = c :: unread n m'.
Proof.
  intros Hh Ht Hrecv.
  assert (Hc : 0 <= spec_available n (rx_head (fd_uart1 m)) (rx_tail (fd_uart1 m)) <= n - 1).
  { rewrite spec_available_cases by assumption.
    destruct (Z.ltb_spec (rx_head (fd_uart1 m) - rx_tail (fd_uart1 m)) 0); lia. }
  unfold unread at 1.
  replace (Z.to_nat n) with (S (Z.to_nat (n - 1))) by lia.
  cbn [drain]. rewrite Hrecv. f_equal.
  unfold fdserial_recv in Hrecv.
  destruct (Z.eqb_spec (rx_head (fd_uart1 m)) (rx_tail (fd_uart1 m))) as [E|E];
    [discriminate|].
  inversion Hrecv; subst c m'; clear Hrecv.
  destruct (ring_next_range _ Ht) as [_ R].
  pose proof (spec_available_next_tail _ _ Hh Ht E) as Hn.
  unfold unread.
  rewrite !drain_slice;
    cbn [fd_uart1 rx_head rx_tail rx_buf set_rx_tail]; try assumption; try lia.
  reflexivity.
Qed.

End Ring.

(** ** Invariants of the reachable states *)

Section Reach.

(** The transmit handler leaves the receive side alone. *)
Lemma compa_keeps_rx (m : mcu) :
  let m' := ISR_TIMER1_COMPA m in
  rx_head (fd_uart1 m') = rx_head (fd_uart1 m) /\
  rx_tail (fd_uart1 m') = rx_tail (fd_uart1 m) /\
  available (fd_uart1 m') = available (fd_uart1 m) /\
  rx_buf (fd_uart1 m') = rx_buf (fd_uart1 m).
Proof.
  unfold ISR_TIMER1_COMPA. split_ifs; repeat split; reflexivity.
Qed.

(** The receive handler leaves the transmit side alone. *)
Lemma compb_keeps_tx (rb : option Z) (m : mcu) :
  let m' := ISR_TIMER1_COMPB rb m in
  tx_state (fd_uart1 m') = tx_state (fd_uart1 m) /\
  send_ready (fd_uart1 m') = send_ready (fd_uart1 m) /\
  tx_tick_enabled m' = tx_tick_enabled m /\
  OCR1B (io m') = OCR1B (io m).
Proof.
  unfold ISR_TIMER1_COMPB, rx_publish, tx_tick_enabled.
  destruct rb as [k|]; split_ifs; repeat split; try reflexivity;
    try (cbn -[Z.testbit reg_or reg_andnot flag_write];
         rewrite ?reg_andnot_spec by (unfold OCIE1A, OCIE1B; lia);
         apply andb_true_r).
Qed.

Lemma rx_ticks_keep_OCR1B (rb : option Z) (pins : list Z) (m : mcu) :
  OCR1B (io (rx_ticks rb pins m)) = OCR1B (io m).
Proof.
  revert m. induction pins as [|p ps IH]; intros m; [reflexivity|].
  cbn [rx_ticks]. rewrite IH.
  destruct (compb_keeps_tx rb (with_PINB p m)) as (_ & _ & _ & ->).
  reflexivity.
Qed.

Section RingIndices.

Variable n : Z.
Hypothesis n_range : 1 <= n <= 256.

Lemma publish_indices (u : fd_uart) :
  0 <= rx_head u < n -> 0 <= rx_tail u < n ->
  let u' := rx_publish (Some n) u in
  0 <= rx_head u' < n /\ 0 <= rx_tail u' < n /\
  (2 <= n -> rx_head u' <> rx_tail u').
Proof.
  intros Hh Ht. unfold rx_publish. cbv zeta.
  cbn [rx_head rx_tail set_rx_head set_rx_tail set_rx_buf].
  destruct (ring_next_range n n_range (rx_head u) Hh) as [Eh Rh].
  destruct (ring_next_range n n_range (rx_tail u) Ht) as [Et Rt].
  destruct (Z.eqb_spec (ring_next n (rx_head u)) (rx_tail u)) as [E|E];
    cbn [rx_head rx_tail set_rx_head set_rx_tail set_rx_buf].
  - repeat split; try lia. intros Hn. rewrite E, Et.
    destruct (Z.eqb_spec (rx_tail u) (n - 1)); lia.
  - repeat split; lia.
Qed.

Lemma compb_indices (m : mcu) :
  indices_in_range n m -> indices_in_range n (ISR_TIMER1_COMPB (Some n) m).
Proof.
  intros [Hh Ht]. unfold indices_in_range, ISR_TIMER1_COMPB. split_ifs;
    cbn [fd_uart1 rx_head rx_tail set_rx_state set_recv_bits set_recv_shift];
    try (split; assumption).
  destruct (publish_indices (fd_uart1 m) Hh Ht) as (H1 & H2 & _).
  split; assumption.
Qed.

Lemma step_indices (e : event) (m m' : mcu) :
  step (Some n) e m = Some m' -> indices_in_range n m -> indices_in_range n m'.
Proof.
  intros Hstep [Hh Ht]. unfold indices_in_range.
  destruct e; cbn [step] in Hstep.
  - destruct (is_byte tcnt && is_byte pinb); inversion Hstep; subst m'.
    split; assumption.
  - inversion Hstep; subst m'. cbn. lia.
  - unfold fdserial_send in Hstep.
    destruct (send_ready (fd_uart1 m) =? 0); inversion Hstep; subst m'.
    split; assumption.
  - unfold fdserial_recv in Hstep.
    destruct (rx_head (fd_uart1 m) =? rx_tail (fd_uart1 m));
      inversion Hstep; subst m'.
    cbn [fd_uart1 rx_head rx_tail set_rx_tail].
    destruct (ring_next_range n n_range _ Ht) as [_ R]. split; assumption.
  - unfold fdserial_alarm in Hstep.
    destruct (send_ready (fd_uart1 m) =? 0); inversion Hstep; subst m'.
    split; assumption.
  - destruct (tx_tick_enabled m); inversion Hstep; subst m'.
    destruct (compa_keeps_rx m) as (-> & -> & _). split; assumption.
  - destruct (rx_tick_enabled m); inversion Hstep; subst m'.
    apply compb_indices. split; assumption.
  - destruct (edge_enabled m); inversion Hstep; subst m'.
    destruct (int0_spec m) as (_ & _ & _ & _ & ->). split; assumption.
Qed.

Lemma reachable_indices (m : mcu) :
  reachable (Some n) m -> indices_in_range n m.
Proof.
  induction 1 as [m0|e m m' _ IH Hstep].
  - unfold indices_in_range. cbn. lia.
  - exact (step_indices e m m' Hstep IH).
Qed.

End RingIndices.

(** [fdserial_alarm] does not touch the interrupt mask, and neither does
    the expiry of the Delay state. *)
Lemma alarm_keeps_TIMSK (duration : Z) (m m' : mcu) :
  fdserial_alarm duration m = Some m' -> TIMSK (io m') = TIMSK (io m).
Proof.
  unfold fdserial_alarm. destruct (send_ready (fd_uart1 m) =? 0); [discriminate|].
  intros H. inversion H. reflexivity.
Qed.

Lemma compa_delay_keeps_TIMSK (m : mcu) :
  tx_state (fd_uart1 m) = 5 ->
  TIMSK (io (ISR_TIMER1_COMPA m)) = TIMSK (io m).
Proof.
  intros Hs. unfold ISR_TIMER1_COMPA. rewrite Hs.
  change (5 =? 0) with false. change (5 =? 1) with false.
  change (5 =? 2) with false. change (5 =? 3) with false.
  change (5 =? 4) with false. change (5 =? 5) with true.
  split_ifs; reflexivity.
Qed.

Lemma run_reachable (rb : option Z) (es : list event) (m m' : mcu) :
  reachable rb m -> run rb es m = Some m' -> reachable rb m'.
Proof.
  revert m. induction es as [|e es IH]; intros m Hr Hrun; cbn [run] in Hrun.
  - inversion Hrun; subst. exact Hr.
  - destruct (step rb e m) as [m1|] eqn:Hs; [|discriminate].
    apply (IH m1); [|exact Hrun]. exact (reach_step rb e m m1 Hr Hs).
Qed.

(** In single-slot mode [available] is a flag. *)
Lemma step_available_flag (e : event) (m m' : mcu) :
  step None e m = Some m' ->
  available (fd_uart1 m) = 0 \/ available (fd_uart1 m) = 1 ->
  available (fd_uart1 m') = 0 \/ available (fd_uart1 m') = 1.
Proof.
  intros Hstep Ha. destruct e; cbn [step] in Hstep.
  - destruct (is_byte tcnt && is_byte pinb); inversion Hstep; subst m'. exact Ha.
  - inversion Hstep; subst m'. left. reflexivity.
  - unfold fdserial_send in Hstep.
    destruct (send_ready (fd_uart1 m) =? 0); inversion Hstep; subst m'. exact Ha.
  - unfold fdserial_recv in Hstep.
    destruct (available (fd_uart1 m) =? 0); inversion Hstep; subst m'.
    left. reflexivity.
  - unfold fdserial_alarm in Hstep.
    destruct (send_ready (fd_uart1 m) =? 0); inversion Hstep; subst m'. exact Ha.
  - destruct (tx_tick_enabled m); inversion Hstep; subst m'.
    destruct (compa_keeps_rx m) as (_ & _ & -> & _). exact Ha.
  - destruct (rx_tick_enabled m); inversion Hstep; subst m'.
    unfold ISR_TIMER1_COMPB, rx_publish. split_ifs;
      cbn [fd_uart1 available set_rx_state set_recv_bits set_recv_shift
           set_recv_byte set_available]; auto.
  - destruct (edge_enabled m); inversion Hstep; subst m'.
    destruct (int0_spec m) as (_ & _ & _ & _ & ->). exact Ha.
Qed.

Lemma reachable_available_flag (m : mcu) :
  reachable None m ->
  available (fd_uart1 m) = 0 \/ available (fd_uart1 m) = 1.
Proof.
  induction 1 as [m0|e m m' _ IH Hstep].
  - left. reflexivity.
  - exact (step_available_flag e m m' Hstep IH).
Qed.

(** Once in the Delay state with the A-compare interrupt masked, nothing
    but a new [fdserial_init] changes the transmit side. *)
Lemma step_delay_stuck (rb : option Z) (e : event) (m m' : mcu) :
  step rb e m = Some m' ->
  e <> Call_init ->
  tx_state (fd_uart1 m) = 5 /\ send_ready (fd_uart1 m) = 0 /\
    tx_tick_enabled m = false ->
  tx_state (fd_uart1 m') = 5 /\ send_ready (fd_uart1 m') = 0 /\
    tx_tick_enabled m' = false.
Proof.
  intros Hstep Hne (Hs & Hr & Ht). destruct e; cbn [step] in Hstep.
  - destruct (is_byte tcnt && is_byte pinb); inversion Hstep; subst m'.
    repeat split; assumption.
  - contradiction.
  - unfold fdserial_send in Hstep. rewrite Hr in Hstep. discriminate.
  - unfold fdserial_recv in Hstep. destruct rb as [k|];
      match type of Hstep with
      | context [if ?c then _ else _] => destruct c
      end; inversion Hstep; subst m'; repeat split; assumption.
  - unfold fdserial_alarm in Hstep. rewrite Hr in Hstep. discriminate.
  - rewrite Ht in Hstep. discriminate.
  - destruct (rx_tick_enabled m); inversion Hstep; subst m'.
    destruct (compb_keeps_tx rb m) as (-> & -> & -> & _).
    repeat split; assumption.
  - destruct (edge_enabled m); inversion Hstep; subst m'.
    destruct (int0_spec m) as (_ & _ & _ & -> & ->).
    repeat split; assumption.
Qed.

Lemma run_delay_stuck (rb : option Z) (es : list event) (m m' : mcu) :
  run rb es m = Some m' ->
  ~ In Call_init es ->
  tx_state (fd_uart1 m) = 5 /\ send_ready (fd_uart1 m) = 0 /\
    tx_tick_enabled m = false ->
  tx_state (fd_uart1 m') = 5 /\ send_ready (fd_uart1 m') = 0 /\
    tx_tick_enabled m' = false.
Proof.
  revert m. induction es as [|e es IH]; intros m Hrun Hni Hinv; cbn [run] in Hrun.
  - inversion Hrun; subst. exact Hinv.
  - destruct (step rb e m) as [m1|] eqn:Hs; [|discriminate].
    apply (IH m1); [exact Hrun | |].
    + intros Hin. apply Hni. right. exact Hin.
    + apply (step_delay_stuck rb e m m1 Hs); [|exact Hinv].
      intros ->. apply Hni. left. reflexivity.
Qed.

End Reach.

(** ** Ring overflow *)

Section RingOverflow.

(** C2, as the code has it: a ring of four holds three unread bytes.  After
    the frames 1, 2, 3, 4, 5, 6 with no read in between, three calls of
    [fdserial_recv] return 4, 5 and 6, and a fourth call finds the ring
    empty and waits. *)
Theorem ring_of_four_keeps_three (m0 : mcu) (t1 t2 t3 t4 t5 t6 : Z) :
  length (rx_buf (fd_uart1 m0)) = 4%nat ->
  0 <= recv_shift (fd_uart1 m0) < 256 ->
  let m := receive_bytes (Some 4)
             [(t1, 1); (t2, 2); (t3, 3); (t4, 4); (t5, 5); (t6, 6)]
             (fdserial_init (Some 4) m0) in
  exists m1 m2 m3,
    fdserial_recv (Some 4) m = Some (4, m1) /\
    fdserial_recv (Some 4) m1 = Some (5, m2) /\
    fdserial_recv (Some 4) m2 = Some (6, m3) /\
    fdserial_recv (Some 4) m3 = None.
Proof.
  destruct m0 as [[sr ts sb sbi dl av rs rsh rbi rby rh rt buf] r0].
  cbn [fd_uart1 rx_buf recv_shift]. intros Hlen Hr.
  destruct buf as [|a [|b [|c [|d [|e l]]]]]; try discriminate Hlen.
  set (i0 := fdserial_init (Some 4)
               (Mcu (Uart sr ts sb sbi dl av rs rsh rbi rby rh rt [a; b; c; d]) r0)) in *.
  assert (S0 : rx_state (fd_uart1 i0) = 0) by reflexivity.
  assert (R0 : 0 <= recv_shift (fd_uart1 i0) < 256) by exact Hr.
  unfold receive_bytes. cbn [fold_left fst snd].
  destruct (receive_frame_byte (Some 4) t1 1 i0 ltac:(lia) S0 R0) as (U1 & S1 & R1).
  set (f1 := receive_frame (Some 4) t1 (frame_pins 1) i0) in *.
  destruct (receive_frame_byte (Some 4) t2 2 f1 ltac:(lia) S1 R1) as (U2 & S2 & R2).
  set (f2 := receive_frame (Some 4) t2 (frame_pins 2) f1) in *.
  destruct (receive_frame_byte (Some 4) t3 3 f2 ltac:(lia) S2 R2) as (U3 & S3 & R3).
  set (f3 := receive_frame (Some 4) t3 (frame_pins 3) f2) in *.
  destruct (receive_frame_byte (Some 4) t4 4 f3 ltac:(lia) S3 R3) as (U4 & S4 & R4).
  set (f4 := receive_frame (Some 4) t4 (frame_pins 4) f3) in *.
  destruct (receive_frame_byte (Some 4) t5 5 f4 ltac:(lia) S4 R4) as (U5 & S5 & R5).
  set (f5 := receive_frame (Some 4) t5 (frame_pins 5) f4) in *.
  destruct (receive_frame_byte (Some 4) t6 6 f5 ltac:(lia) S5 R5) as (U6 & _ & _).
  set (f6 := receive_frame (Some 4) t6 (frame_pins 6) f5) in *.
  rewrite U5, U4, U3, U2, U1 in U6.
  clear U1 U2 U3 U4 U5 S0 S1 S2 S3 S4 S5 R0 R1 R2 R3 R4 R5.
  clearbody f6. clear f5 f4 f3 f2 f1.
  subst i0. destruct f6 as [u6 r6]. cbn [fd_uart1] in U6.
  vm_compute in U6. subst u6.
  do 3 eexists. repeat split.
Qed.

End RingOverflow.

(** ** Receiving a byte after initialisation *)

Section ReceiveScenario.

Variable RING_BUFFER : option Z.

(** The first byte published into an empty buffer is the one
    [fdserial_recv] returns. *)
Lemma recv_first_published (b : Z) (u0 : fd_uart) (m : mcu) :
  fd_uart1 m = published RING_BUFFER b u0 ->
  match RING_BUFFER with
  | Some n => 2 <= n <= 256 /\ Z.of_nat (length (rx_buf u0)) = n /\
              rx_head u0 = 0 /\ rx_tail u0 = 0
  | None => True
  end ->
  exists m', fdserial_recv RING_BUFFER m = Some (b, m').
Proof.
  intros Hu Hring. unfold fdserial_recv. rewrite Hu.
  unfold published, rx_publish. destruct RING_BUFFER as [n|].
  - destruct Hring as (Hn & Hlen & Hh & Ht).
    cbn [rx_head rx_tail rx_buf recv_shift set_rx_state set_recv_bits
         set_recv_shift set_rx_buf set_rx_head set_rx_tail].
    rewrite Hh, Ht.
    assert (E : ring_next n 0 = 1).
    { unfold ring_next. destruct (Z.eqb_spec 0 (n - 1)); [lia | reflexivity]. }
    rewrite E. change (1 =? 0) with false.
    cbn [rx_head rx_tail rx_buf recv_shift set_rx_state set_recv_bits
         set_recv_shift set_rx_buf set_rx_head set_rx_tail].
    rewrite ?Ht. change (1 =? 0) with false. cbv iota.
    rewrite buf_get_set by lia. eexists. reflexivity.
  - cbn. eexists. reflexivity.
Qed.

(** C7, as the code has it: with the edge taken at counter value 50 the
    sample point is 154, reached 104 counts later and again every 208
    counts, and no B-compare tick moves it; the samples L H L H L H L H,
    the first being bit 0, make [fdserial_recv] return 0xAA; the byte 0xA5
    is what the samples H L H L L H L H give. *)
Theorem receive_low_high_samples (m0 : mcu) :
  ring_allocated RING_BUFFER m0 ->
  0 <= recv_shift (fd_uart1 m0) < 256 ->
  let m1 := ISR_INT0 (with_TCNT1 50 (fdserial_init RING_BUFFER m0)) in
  OCR1B (io m1) = 154 /\
  ctc_run SERIAL_TOP 104 50 = 154 /\
  ctc_run SERIAL_TOP 208 154 = 154 /\
  (forall pins, OCR1B (io (rx_ticks RING_BUFFER pins m1)) = 154) /\
  (exists m3,
     fdserial_recv RING_BUFFER
       (rx_ticks RING_BUFFER
          (frame_of_samples [false; true; false; true; false; true; false; true]) m1)
     = Some (170, m3)) /\
  (exists m3,
     fdserial_recv RING_BUFFER
       (rx_ticks RING_BUFFER
          (frame_of_samples [true; false; true; false; false; true; false; true]) m1)
     = Some (165, m3)).
Proof.
  intros Hring Hr m1.
  destruct (init_fields RING_BUFFER m0) as (_ & Hst & _ & _ & Hsh & Hbuf & Hidx).
  set (i0 := fdserial_init RING_BUFFER m0) in *.
  assert (Hr0 : 0 <= recv_shift (fd_uart1 i0) < 256) by (rewrite Hsh; exact Hr).
  assert (Ho : OCR1B (io m1) = 154).
  { unfold m1. destruct (int0_spec (with_TCNT1 50 i0)) as (-> & _). reflexivity. }
  split; [exact Ho|]. split; [reflexivity|]. split; [reflexivity|]. split.
  { intros pins. rewrite rx_ticks_keep_OCR1B. exact Ho. }
  assert (Hrecv : forall s, length s = 8%nat ->
            exists m3, fdserial_recv RING_BUFFER
                         (rx_ticks RING_BUFFER (frame_of_samples s) m1)
                       = Some (byte_of_samples s, m3)).
  { intros s Hs.
    destruct (receive_frame_uart RING_BUFFER 50 s i0 Hs Hst Hr0) as (Hu & _).
    apply (recv_first_published (byte_of_samples s) (fd_uart1 i0)).
    - exact Hu.
    - unfold ring_allocated in Hring. destruct RING_BUFFER as [n|]; [|exact I].
      destruct Hring as [Hn Hlen]. destruct Hidx as [Hh Ht]; [discriminate|].
      rewrite Hbuf. repeat split; assumption || lia. }
  split; [apply (Hrecv [false; true; false; true; false; true; false; true] eq_refl)
         | apply (Hrecv [true; false; true; false; false; true; false; true] eq_refl)].
Qed.

End ReceiveScenario.

(** ** The claims about the reachable states and the API *)

Section Claims.

(** C1: the code does not keep the A-compare interrupt enabled exactly
    while [tx_state] is not Idle.  [fdserial_alarm] enters the Delay state
    without enabling the interrupt: after reset, [fdserial_init] and
    [fdserial_alarm 1] the engine is in Delay with the interrupt masked,
    the handler cannot run, and no later event but a new [fdserial_init]
    changes that, so the alarm never expires.  Where the interrupt was
    left enabled, the expiry of the Delay state restores Idle and leaves it
    enabled. *)
Theorem alarm_leaves_tx_tick_masked :
  (exists m,
     run None [Call_init; Call_alarm 1] (reset_state 0) = Some m /\
     reachable None m /\
     tx_state (fd_uart1 m) = 5 /\
     tx_tick_enabled m = false /\
     step None Irq_COMPA m = None /\
     (forall es m', ~ In Call_init es -> run None es m = Some m' ->
        tx_state (fd_uart1 m') = 5 /\ send_ready (fd_uart1 m') = 0 /\
        tx_tick_enabled m' = false)) /\
  (exists m,
     run None ([Call_init; Call_send 85; Call_init; Call_alarm 1]
               ++ repeat Irq_COMPA 9) (reset_state 0) = Some m /\
     reachable None m /\
     tx_state (fd_uart1 m) = 0 /\
     send_ready (fd_uart1 m) = 1 /\
     tx_tick_enabled m = true).
Proof.
  split.
  - eexists. split; [vm_compute; reflexivity|].
    split.
    { apply (run_reachable None [Call_alarm 1] (fdserial_init None (reset_state 0)));
        [apply reach_init | vm_compute; reflexivity]. }
    split; [reflexivity|]. split; [reflexivity|]. split; [reflexivity|].
    intros es m' Hni Hrun.
    apply (run_delay_stuck None es _ m' Hrun Hni).
    repeat split.
  - eexists. split; [vm_compute; reflexivity|].
    split.
    { apply (run_reachable None
               ([Call_send 85; Call_init; Call_alarm 1] ++ repeat Irq_COMPA 9)
               (fdserial_init None (reset_state 0)));
        [apply reach_init | vm_compute; reflexivity]. }
    repeat split.
Qed.

(** C9, as the code has it: in a ring of at most 128 bytes, with the
    indices in range, [fdserial_available] returns head minus tail, plus
    the ring size when that is negative, which is (head - tail + n) mod n
    and the number of unread bytes; in single-slot mode it returns 0
    or 1. *)
Theorem available_counts_unread :
  (forall n m, 1 <= n <= 128 -> indices_in_range n m ->
     let h := rx_head (fd_uart1 m) in
     let t := rx_tail (fd_uart1 m) in
     fdserial_available (Some n) m = (if h - t <? 0 then h - t + n else h - t) /\
     fdserial_available (Some n) m = spec_available n h t /\
     fdserial_available (Some n) m = Z.of_nat (length (unread n m))) /\
  (forall m, reachable None m ->
     fdserial_available None m = 0 \/ fdserial_available None m = 1).
Proof.
  split.
  - intros n m Hn [Hh Ht] h t.
    assert (Hn' : 1 <= n <= 256) by lia.
    destruct (available_ring n Hn' m Hh Ht) as [_ Ha].
    destruct (unread_length n Hn' m Hh Ht) as [Hu _].
    rewrite Hu, Ha by lia. fold h t.
    rewrite spec_available_cases by (assumption || lia).
    repeat split; reflexivity.
  - intros m Hr. exact (reachable_available_flag m Hr).
Qed.

(** The ring between calls that no handler interrupts: in ring mode every
    state reached by the events of [step] has both indices inside the
    array and holds at most RING_BUFFER - 1 unread bytes; head equal to
    tail means that nothing is unread; [fdserial_available] stays below
    RING_BUFFER; when publishing a byte moves the head onto the tail, the
    tail moves on, so that the indices differ afterwards; and publishing
    appends the byte to the unread ones and drops the oldest of them when
    that makes RING_BUFFER of them.  What a handler inside [fdserial_recv]
    does to the indices is the matter of [recv_race_moves_tail_out_of_ring]
    and [ring_indices_stay_inside]. *)
Lemma ring_holds_less_than_capacity (n : Z) (m : mcu) :
  1 <= n <= 256 ->
  reachable (Some n) m ->
  indices_in_range n m /\
  Z.of_nat (length (unread n m)) <= n - 1 /\
  Z.of_nat (length (unread n m)) =
    spec_available n (rx_head (fd_uart1 m)) (rx_tail (fd_uart1 m)) /\
  (rx_head (fd_uart1 m) = rx_tail (fd_uart1 m) <-> unread n m = []) /\
  0 <= fdserial_available (Some n) m < n /\
  (let u := fd_uart1 m in
   let u' := rx_publish (Some n) u in
   rx_head u' = ring_next n (rx_head u) /\
   rx_tail u' = (if ring_next n (rx_head u) =? rx_tail u
                 then ring_next n (rx_tail u) else rx_tail u) /\
   0 <= rx_head u' < n /\ 0 <= rx_tail u' < n /\
   (2 <= n -> rx_head u' <> rx_tail u')) /\
  (Z.of_nat (length (rx_buf (fd_uart1 m))) = n ->
   forall r,
     unread n (Mcu (rx_publish (Some n) (fd_uart1 m)) r) =
       queue_push n (unread n m) (recv_shift (fd_uart1 m))).
Proof.
  intros Hn Hr.
  pose proof (reachable_indices n Hn m Hr) as [Hh Ht].
  destruct (unread_length n Hn m Hh Ht) as [Hu Hb].
  destruct (available_ring n Hn m Hh Ht) as [Ha _].
  destruct (publish_indices n Hn (fd_uart1 m) Hh Ht) as (P1 & P2 & P3).
  split; [|split; [|split; [|split; [|split; [|split]]]]];
    [ | | | | | | intros Hlen r; apply unread_publish; assumption ].
  - split; assumption.
  - exact Hb.
  - exact Hu.
  - symmetry. apply unread_nil_iff. exact Hn.
  - exact Ha.
  - cbv zeta. split; [|split; [|repeat split; assumption || apply P1 || apply P2]].
    + unfold rx_publish. split_ifs; reflexivity.
    + unfold rx_publish. cbv zeta.
      cbn [rx_head rx_tail set_rx_head set_rx_tail set_rx_buf].
      destruct (ring_next n (rx_head (fd_uart1 m)) =? rx_tail (fd_uart1 m));
        reflexivity.
Qed.

(** *** Concrete runs *)

(** C2 as stated fails: after the six frames the first read returns 4,
    not 3, since the ring of four has dropped 1, 2 and 3. *)
Lemma ring_of_four_first_read :
  let m := receive_bytes (Some 4)
             [(50, 1); (50, 2); (50, 3); (50, 4); (50, 5); (50, 6)]
             (fdserial_init (Some 4) (reset_state 4)) in
  option_map fst (fdserial_recv (Some 4) m) = Some 4 /\
  option_map fst (fdserial_recv (Some 4) m) <> Some 3 /\
  unread 4 m = [4; 5; 6].
Proof.
  vm_compute. repeat split. discriminate.
Qed.

Lemma ring_of_four_keeps_three_witness :
  length (rx_buf (fd_uart1 (reset_state 4))) = 4%nat /\
  0 <= recv_shift (fd_uart1 (reset_state 4)) < 256 /\
  exists m1 m2 m3,
    fdserial_recv (Some 4)
      (receive_bytes (Some 4)
         [(50, 1); (50, 2); (50, 3); (50, 4); (50, 5); (50, 6)]
         (fdserial_init (Some 4) (reset_state 4))) = Some (4, m1) /\
    fdserial_recv (Some 4) m1 = Some (5, m2) /\
    fdserial_recv (Some 4) m2 = Some (6, m3) /\
    fdserial_recv (Some 4) m3 = None.
Proof.
  split; [reflexivity|]. split; [cbn; lia|].
  apply (ring_of_four_keeps_three (reset_state 4) 50 50 50 50 50 50);
    [reflexivity | cbn; lia].
Defined.

Lemma recv_assembles_lsb_first_witness :
  let pins := map pin_level [false; true; false; true; false; true; false; true] in
  let m := rx_ticks None [pin_level false]
             (ISR_INT0 (with_TCNT1 50 (fdserial_init None (reset_state 0)))) in
  length pins = 8%nat /\
  rx_state (fd_uart1 m) = 2 /\
  recv_bits (fd_uart1 m) = 8 /\
  0 <= recv_shift (fd_uart1 m) < 256 /\
  recv_shift (fd_uart1 (rx_ticks None pins m)) = 170 /\
  rx_state (fd_uart1 (rx_ticks None pins m)) = 3.
Proof.
  intros pins m.
  assert (Hr : 0 <= recv_shift (fd_uart1 m) < 256) by (cbn; lia).
  pose proof (recv_assembles_lsb_first None pins m eq_refl eq_refl eq_refl Hr)
    as (H1 & _ & H3).
  repeat split; try exact H3; try exact H1; apply Hr.
Defined.

Lemma int0_schedules_half_bit_witness :
  let m := with_TCNT1 50 (fdserial_init None (reset_state 0)) in
  0 <= TCNT1 (io m) <= SERIAL_TOP /\
  OCR1B (io (ISR_INT0 m)) = 154 /\
  edge_enabled (ISR_INT0 m) = false /\
  rx_tick_enabled (ISR_INT0 m) = true.
Proof.
  intros m.
  assert (Hc : 0 <= TCNT1 (io m) <= SERIAL_TOP) by (cbn; unfold SERIAL_TOP; lia).
  pose proof (int0_schedules_half_bit m Hc) as (H1 & _ & _ & _ & _ & _ & _ & H8 & H9).
  repeat split; try exact H8; try exact H9; try exact H1; apply Hc.
Defined.

(** C6 as stated fails: one millisecond is 2000 timer counts, 9 whole
    periods and 128 counts; the code loads 9 where the ceiling is 10, and
    with the counter at 100 it writes 228 to OCR1A, above the top value. *)
Lemma alarm_rounds_down :
  option_map (fun m => delay (fd_uart1 m))
    (fdserial_alarm 1 (fdserial_init None (reset_state 0))) = Some 9 /\
  spec_alarm_periods 1 = 10 /\
  option_map (fun m => OCR1A (io m))
    (fdserial_alarm 1 (with_TCNT1 100 (fdserial_init None (reset_state 0)))) = Some 228 /\
  SERIAL_TOP < 228.
Proof.
  vm_compute. repeat split.
Qed.

Lemma alarm_programs_delay_witness :
  let m := fdserial_init None (reset_state 0) in
  0 <= 1 /\
  1 * CPU_FREQ < 2 ^ 32 /\
  match fdserial_alarm 1 m with
  | None => False
  | Some m' =>
      delay (fd_uart1 m') = 9 /\ OCR1A (io m') = 128 /\
      send_ready (fd_uart1 m') = 0 /\ tx_state (fd_uart1 m') = 5
  end /\
  match fdserial_alarm 1 (with_TCNT1 200 m) with
  | None => False
  | Some m' =>
      delay (fd_uart1 m') = 9 /\ OCR1A (io m') = 72 /\
      send_ready (fd_uart1 m') = 0 /\ tx_state (fd_uart1 m') = 5
  end.
Proof.
  intros m.
  assert (H1 : 0 <= 1) by lia.
  assert (H2 : 1 * CPU_FREQ < 2 ^ 32) by (unfold CPU_FREQ; lia).
  pose proof (alarm_programs_delay 1 m H1 H2) as H.
  pose proof (alarm_programs_delay 1 (with_TCNT1 200 m) H1 H2) as H'.
  cbv zeta in H, H'.
  split; [exact H1|]. split; [exact H2|]. split.
  - destruct (fdserial_alarm 1 m) as [m'|] eqn:E.
    + destruct H as (_ & Hd & _ & Ho & _ & Hr & Hs).
      repeat split; assumption.
    + vm_compute in E. discriminate E.
  - destruct (fdserial_alarm 1 (with_TCNT1 200 m)) as [m'|] eqn:E.
    + destruct H' as (_ & Hd & _ & _ & Ho & Hr & Hs).
      destruct Ho as [Ho _].
      { split; apply Z.leb_le; vm_compute; reflexivity. }
      repeat split; assumption.
    + vm_compute in E. discriminate E.
Defined.

(** C7 as stated fails: the samples L H L H L H L H give 0xAA. *)
Lemma receive_low_high_is_AA :
  option_map fst
    (fdserial_recv None
       (rx_ticks None
          (frame_of_samples [false; true; false; true; false; true; false; true])
          (ISR_INT0 (with_TCNT1 50 (fdserial_init None (reset_state 0))))))
  = Some 170 /\
  170 <> 165.
Proof.
  vm_compute. split; [reflexivity | discriminate].
Qed.

Lemma receive_low_high_samples_witness :
  ring_allocated (Some 4) (reset_state 4) /\
  0 <= recv_shift (fd_uart1 (reset_state 4)) < 256 /\
  OCR1B (io (ISR_INT0 (with_TCNT1 50 (fdserial_init (Some 4) (reset_state 4))))) = 154 /\
  exists m3,
    fdserial_recv (Some 4)
      (rx_ticks (Some 4)
         (frame_of_samples [false; true; false; true; false; true; false; true])
         (ISR_INT0 (with_TCNT1 50 (fdserial_init (Some 4) (reset_state 4)))))
    = Some (170, m3).
Proof.
  assert (Ha : ring_allocated (Some 4) (reset_state 4)) by (cbn; lia).
  assert (Hr : 0 <= recv_shift (fd_uart1 (reset_state 4)) < 256) by (cbn; lia).
  pose proof (receive_low_high_samples (Some 4) (reset_state 4) Ha Hr)
    as (H1 & _ & _ & _ & H5 & _).
  split; [exact Ha|]. split; [exact Hr|]. split; [exact H1 | exact H5].
Defined.

(** C8 as stated fails: called again while a byte is on its way out,
    [fdserial_init] leaves the A-compare interrupt enabled and the byte in
    [send_byte]. *)
Lemma init_keeps_tick_mask :
  exists m0,
    run None [Call_init; Call_send 85] (reset_state 0) = Some m0 /\
    tx_tick_enabled (fdserial_init None m0) = true /\
    send_byte (fd_uart1 (fdserial_init None m0)) = 85.
Proof.
  eexists. split; [vm_compute; reflexivity|]. split; reflexivity.
Qed.

(** C9 as stated fails: with a ring of 200 bytes and 150 of them unread
    the signed [char] difference is -106 and the function returns 94. *)
Lemma available_wrong_on_large_ring :
  let m := Nat.iter 150 (receive_frame (Some 200) 50 (frame_pins 65))
             (fdserial_init (Some 200) (reset_state 200)) in
  rx_head (fd_uart1 m) = 150 /\
  rx_tail (fd_uart1 m) = 0 /\
  length (unread 200 m) = 150%nat /\
  fdserial_available (Some 200) m = 94 /\
  spec_available 200 150 0 = 150.
Proof.
  vm_compute. repeat split.
Qed.

Lemma available_counts_unread_witness :
  let m := receive_bytes (Some 4) [(50, 1); (50, 2)]
             (fdserial_init (Some 4) (reset_state 4)) in
  1 <= 4 <= 128 /\
  indices_in_range 4 m /\
  fdserial_available (Some 4) m = 2 /\
  fdserial_available (Some 4) m = Z.of_nat (length (unread 4 m)).
Proof.
  intros m.
  assert (Hn : 1 <= 4 <= 128) by lia.
  assert (Hi : indices_in_range 4 m) by (vm_compute; repeat split; discriminate).
  pose proof (proj1 available_counts_unread 4 m Hn Hi) as (H1 & _ & H3).
  split; [exact Hn|]. split; [exact Hi|]. split; [exact H1 | exact H3].
Defined.

End Claims.

(** ** Whole frames on the TX line *)

Section TransmitFrames.

(** While bits are left, the DataBit state keeps the engine busy. *)
Lemma compa_data_prefix (j n : nat) (m : mcu) :
  tx_state (fd_uart1 m) = 2 ->
  send_bits (fd_uart1 m) = Z.of_nat (S n) ->
  (S n < 256)%nat ->
  (j <= n)%nat ->
  tx_state (fd_uart1 (snd (tx_ticks j m))) = 2 /\
  send_bits (fd_uart1 (snd (tx_ticks j m))) = Z.of_nat (S n - j) /\
  send_ready (fd_uart1 (snd (tx_ticks j m))) = send_ready (fd_uart1 m) /\
  TIMSK (io (snd (tx_ticks j m))) = TIMSK (io m).
Proof.
  revert n m. induction j as [|j IH]; intros n m Hst Hbits Hn Hj.
  - cbn [tx_ticks snd]. rewrite Nat.sub_0_r. repeat split; assumption.
  - destruct n as [|n]; [lia|].
    destruct (compa_data_bit m Hst) as (_ & _ & Hbi & Hs' & Hr & Ht & _).
    destruct (tx_ticks_S j m) as [_ ->].
    rewrite Hbits in Hbi, Hs'.
    assert (Hu : u8 (Z.of_nat (S (S n)) - 1) = Z.of_nat (S n)).
    { replace (Z.of_nat (S (S n)) - 1) with (Z.of_nat (S n)) by lia.
      apply u8_small. lia. }
    rewrite Hu in Hbi, Hs'.
    destruct (Z.eqb_spec (Z.of_nat (S n)) 0) as [H0|_]; [lia|].
    destruct (IH n (ISR_TIMER1_COMPA m) Hs' Hbi ltac:(lia) ltac:(lia))
      as (I1 & I2 & I3 & I4).
    rewrite I1, I2, I3, I4, Hr, Ht. repeat split.
Qed.

(** The Return tick leaves the line where the stop bit put it. *)
Lemma compa_return_line (m : mcu) :
  tx_state (fd_uart1 m) = 4 -> tx_line (ISR_TIMER1_COMPA m) = tx_line m.
Proof.
  intros Hs. unfold tx_line, ISR_TIMER1_COMPA. rewrite Hs. reflexivity.
Qed.

(** The course of the transmit engine after [fdserial_send]. *)
Lemma send_trajectory (b : Z) (m : mcu) :
  0 <= b < 256 ->
  send_ready (fd_uart1 m) <> 0 ->
  exists m1, fdserial_send b m = Some m1 /\
    fst (tx_ticks 10 m1) = frame_levels b /\
    fst (tx_ticks 11 m1) = frame_levels b ++ [true] /\
    (forall k, (k <= 10)%nat ->
       send_ready (fd_uart1 (snd (tx_ticks k m1))) = 0 /\
       tx_tick_enabled (snd (tx_ticks k m1)) = true /\
       1 <= tx_state (fd_uart1 (snd (tx_ticks k m1))) <= 4) /\
    send_ready (fd_uart1 (snd (tx_ticks 11 m1))) = 1 /\
    tx_state (fd_uart1 (snd (tx_ticks 11 m1))) = 0 /\
    tx_tick_enabled (snd (tx_ticks 11 m1)) = false.
Proof.
  intros Hb Hr.
  destruct (send_arms b m Hr) as (m1 & Hsend & Hs1 & Hby1 & Hr1 & Ho1 & He1).
  exists m1. split; [exact Hsend|].
  rewrite u8_small in Hby1 by exact Hb.
  destruct (compa_start_bit m1 Hs1) as (Hl2 & Hs2 & Hbi2 & Hby2 & Hr2 & Ht2).
  set (m2 := ISR_TIMER1_COMPA m1) in *.
  destruct (compa_data_bits 7 m2 Hs2 Hbi2 ltac:(lia)) as (Hl3 & Hs3 & Hr3 & Ht3).
  set (m3 := snd (tx_ticks 8 m2)) in *.
  destruct (compa_stop_bit m3 Hs3) as (Hl4 & Hs4 & Hr4 & Ht4).
  set (m4 := ISR_TIMER1_COMPA m3) in *.
  destruct (compa_return m4 Hs4) as (Hr5 & Hs5 & He5).
  assert (E9 : snd (tx_ticks 9 m1) = m3).
  { destruct (tx_ticks_S 8 m1) as [_ ->]. reflexivity. }
  assert (E10 : snd (tx_ticks 10 m1) = m4).
  { destruct (tx_ticks_add 9 1 m1) as [_ E]. change (9 + 1)%nat with 10%nat in E.
    rewrite E, E9. reflexivity. }
  assert (E11 : snd (tx_ticks 11 m1) = ISR_TIMER1_COMPA m4).
  { destruct (tx_ticks_add 10 1 m1) as [_ E]. change (10 + 1)%nat with 11%nat in E.
    rewrite E, E10. reflexivity. }
  assert (L10 : fst (tx_ticks 10 m1) = frame_levels b).
  { destruct (tx_ticks_add 9 1 m1) as [E _]. change (9 + 1)%nat with 10%nat in E.
    rewrite E, E9. destruct (tx_ticks_S 8 m1) as [-> _]. fold m2.
    rewrite Hl2, Hl3, Hby2, Hby1. cbn [tx_ticks fst app]. fold m4.
    rewrite Hl4. reflexivity. }
  assert (En : forall x, tx_tick_enabled x = Z.testbit (TIMSK (io x)) OCIE1A)
    by reflexivity.
  split; [exact L10|]. split.
  { destruct (tx_ticks_add 10 1 m1) as [E _]. change (10 + 1)%nat with 11%nat in E.
    assert (Hl5 : tx_line (ISR_TIMER1_COMPA m4) = true).
    { rewrite (compa_return_line m4 Hs4). exact Hl4. }
    rewrite E, L10, E10. cbn [tx_ticks fst]. rewrite Hl5. reflexivity. }
  split.
  { intros k Hk.
    destruct k as [|k]; [cbn [tx_ticks snd]; rewrite Hr1, He1, Hs1; repeat split; lia|].
    destruct (tx_ticks_S k m1) as [_ ->]. fold m2.
    destruct (Nat.le_gt_cases k 7) as [Hk7|Hk7].
    - destruct (compa_data_prefix k 7 m2 Hs2 Hbi2 ltac:(lia) Hk7) as (P1 & _ & P3 & P4).
      rewrite En, P1, P3, P4, Hr2, Ht2, Hr1, <- En, He1. repeat split; lia.
    - destruct (Nat.eq_dec k 8%nat) as [->|Hk8].
      + fold m3. rewrite En, Hs3, Hr3, Ht3, Hr2, Ht2, Hr1, <- En, He1.
        repeat split; lia.
      + assert (k = 9)%nat by lia. subst k.
        destruct (tx_ticks_add 8 1 m2) as [_ E]. change (8 + 1)%nat with 9%nat in E.
        rewrite E. fold m3. cbn [tx_ticks snd]. fold m4.
        rewrite En, Hs4, Hr4, Ht4, Hr3, Ht3, Hr2, Ht2, Hr1, <- En, He1.
        repeat split; lia. }
  rewrite E11. repeat split; assumption.
Qed.

(** X1: from [fdserial_send] until the tenth tick after it the transmit
    side is busy: [fdserial_sendok] is 0 and neither [fdserial_send] nor
    [fdserial_alarm] gets past its wait loop; after the eleventh tick
    [fdserial_sendok] is 1 and the next [fdserial_send] is taken. *)
Theorem send_busy_for_whole_frame (b c d : Z) (m : mcu) :
  0 <= b < 256 ->
  send_ready (fd_uart1 m) <> 0 ->
  exists m1, fdserial_send b m = Some m1 /\
    (forall k, (k <= 10)%nat ->
       fdserial_sendok (snd (tx_ticks k m1)) = 0 /\
       fdserial_send c (snd (tx_ticks k m1)) = None /\
       fdserial_alarm d (snd (tx_ticks k m1)) = None) /\
    fdserial_sendok (snd (tx_ticks 11 m1)) = 1 /\
    fdserial_send c (snd (tx_ticks 11 m1)) <> None.
Proof.
  intros Hb Hr.
  destruct (send_trajectory b m Hb Hr) as (m1 & Hs & _ & _ & Hbusy & Hr11 & _).
  exists m1. split; [exact Hs|]. split; [|split].
  - intros k Hk. destruct (Hbusy k Hk) as (H0 & _).
    unfold fdserial_sendok, fdserial_send, fdserial_alarm. rewrite H0.
    repeat split.
  - exact Hr11.
  - unfold fdserial_send. rewrite Hr11. discriminate.
Qed.

Lemma send_busy_for_whole_frame_witness :
  0 <= 85 < 256 /\
  send_ready (fd_uart1 (fdserial_init None (reset_state 0))) <> 0 /\
  exists m1, fdserial_send 85 (fdserial_init None (reset_state 0)) = Some m1 /\
    (forall k, (k <= 10)%nat ->
       fdserial_sendok (snd (tx_ticks k m1)) = 0 /\
       fdserial_send 66 (snd (tx_ticks k m1)) = None /\
       fdserial_alarm 1 (snd (tx_ticks k m1)) = None) /\
    fdserial_sendok (snd (tx_ticks 11 m1)) = 1 /\
    fdserial_send 66 (snd (tx_ticks 11 m1)) <> None.
Proof.
  split; [lia|]. split; [vm_compute; discriminate|].
  apply (send_busy_for_whole_frame 85 66 1 (fdserial_init None (reset_state 0)));
    [lia | vm_compute; discriminate].
Defined.

(** X2: bytes handed to [fdserial_send] one after the other leave as one
    frame each, in the order of the calls: start bit, eight data bits from
    bit 0 up, stop bit, and one more bit time of idle line before the next
    start bit. *)
Theorem send_stream_in_order (bs : list Z) (m : mcu) :
  Forall (fun b => 0 <= b < 256) bs ->
  send_ready (fd_uart1 m) <> 0 ->
  exists m',
    send_stream bs m =
      Some (concat (map (fun b => frame_levels b ++ [true]) bs), m') /\
    send_ready (fd_uart1 m') <> 0.
Proof.
  revert m. induction bs as [|b bs IH]; intros m Hbs Hr.
  - exists m. split; [reflexivity | exact Hr].
  - inversion Hbs as [|b' bs' Hb Hbs']; subst.
    destruct (send_trajectory b m Hb Hr) as (m1 & Hs & _ & L11 & _ & Hr11 & _).
    cbn [send_stream]. rewrite Hs.
    destruct (tx_ticks 11 m1) as [lv m2] eqn:E. cbn [fst snd] in L11, Hr11.
    destruct (IH m2 Hbs') as (m' & Hrest & Hr').
    { rewrite Hr11. discriminate. }
    rewrite Hrest. exists m'. split; [|exact Hr'].
    cbn [map concat]. rewrite L11. reflexivity.
Qed.

Lemma send_stream_in_order_witness :
  Forall (fun b => 0 <= b < 256) [85; 0; 255] /\
  send_ready (fd_uart1 (fdserial_init None (reset_state 0))) <> 0 /\
  exists m',
    send_stream [85; 0; 255] (fdserial_init None (reset_state 0)) =
      Some (concat (map (fun b => frame_levels b ++ [true]) [85; 0; 255]), m') /\
    send_ready (fd_uart1 m') <> 0.
Proof.
  assert (H : Forall (fun b => 0 <= b < 256) [85; 0; 255]).
  { repeat constructor; lia. }
  split; [exact H|]. split; [vm_compute; discriminate|].
  apply (send_stream_in_order [85; 0; 255] (fdserial_init None (reset_state 0)) H).
  vm_compute; discriminate.
Defined.

End TransmitFrames.

(** ** The Delay state *)

Section Delay.

(** One tick of the Delay state. *)
Lemma compa_delay_tick (m : mcu) :
  tx_state (fd_uart1 m) = 5 ->
  ISR_TIMER1_COMPA m =
    Mcu (let u := set_delay (u32 (delay (fd_uart1 m) - 1)) (fd_uart1 m) in
         if u32 (delay (fd_uart1 m) - 1) =? 0
         then set_tx_state 0 (set_send_ready 1 u) else u)
        (io m).
Proof.
  intros Hs. unfold ISR_TIMER1_COMPA. rewrite Hs. reflexivity.
Qed.

(** The countdown: [delay] ticks, neither more nor less, and nothing else
    changes on the way. *)
Lemma delay_countdown (d : nat) (m : mcu) :
  tx_state (fd_uart1 m) = 5 ->
  delay (fd_uart1 m) = Z.of_nat (S d) ->
  Z.of_nat (S d) < 2 ^ 32 ->
  (forall k, (k <= d)%nat ->
     fd_uart1 (snd (tx_ticks k m)) =
       set_delay (Z.of_nat (S d - k)) (fd_uart1 m) /\
     io (snd (tx_ticks k m)) = io m) /\
  fd_uart1 (snd (tx_ticks (S d) m)) =
    set_tx_state 0 (set_send_ready 1 (set_delay 0 (fd_uart1 m))) /\
  io (snd (tx_ticks (S d) m)) = io m /\
  fst (tx_ticks (S d) m) = repeat (tx_line m) (S d).
Proof.
  revert m. induction d as [|d IH]; intros m Hs Hd Hlt.
  - pose proof (compa_delay_tick m Hs) as E. rewrite Hd in E.
    change (u32 (Z.of_nat 1 - 1)) with 0 in E. cbn [Z.eqb] in E.
    split; [|split; [|split]].
    + intros k Hk. assert (k = 0)%nat by lia. subst k. cbn [tx_ticks snd].
      split; [|reflexivity].
      replace (Z.of_nat (1 - 0)) with (delay (fd_uart1 m)) by (rewrite Hd; reflexivity).
      destruct m as [u r]. destruct u. reflexivity.
    + cbn [tx_ticks snd]. rewrite E. reflexivity.
    + cbn [tx_ticks snd]. rewrite E. reflexivity.
    + cbn [tx_ticks fst repeat]. rewrite E. reflexivity.
  - pose proof (compa_delay_tick m Hs) as E. rewrite Hd in E.
    assert (Hu : u32 (Z.of_nat (S (S d)) - 1) = Z.of_nat (S d)).
    { unfold u32. replace (Z.of_nat (S (S d)) - 1) with (Z.of_nat (S d)) by lia.
      apply Z.mod_small. lia. }
    rewrite Hu in E.
    destruct (Z.eqb_spec (Z.of_nat (S d)) 0) as [H0|_]; [lia|]. cbv zeta in E.
    set (m1 := ISR_TIMER1_COMPA m) in *.
    assert (Hs1 : tx_state (fd_uart1 m1) = 5) by (rewrite E; exact Hs).
    assert (Hd1 : delay (fd_uart1 m1) = Z.of_nat (S d)) by (rewrite E; reflexivity).
    destruct (IH m1 Hs1 Hd1 ltac:(lia)) as (Ipre & Iu & Iio & Ilv).
    assert (Eu : fd_uart1 m1 = set_delay (Z.of_nat (S d)) (fd_uart1 m))
      by (rewrite E; reflexivity).
    assert (Eio : io m1 = io m) by (rewrite E; reflexivity).
    assert (El : tx_line m1 = tx_line m) by (unfold tx_line; rewrite Eio; reflexivity).
    split; [|split; [|split]].
    + intros k Hk. destruct k as [|k].
      * cbn [tx_ticks snd]. split; [|reflexivity].
        replace (Z.of_nat (S (S d) - 0)) with (delay (fd_uart1 m))
          by (rewrite Hd; reflexivity).
        clear. destruct m as [u r]. destruct u. reflexivity.
      * destruct (tx_ticks_S k m) as [_ ->]. fold m1.
        destruct (Ipre k ltac:(lia)) as [-> ->]. rewrite Eu, Eio.
        split; reflexivity.
    + destruct (tx_ticks_S (S d) m) as [_ ->]. fold m1. rewrite Iu, Eu. reflexivity.
    + destruct (tx_ticks_S (S d) m) as [_ ->]. fold m1. rewrite Iio. exact Eio.
    + destruct (tx_ticks_S (S d) m) as [-> _]. fold m1. rewrite Ilv, El.
      reflexivity.
Qed.

(** X3: in the Delay state with [delay] = n >= 1 the transmit side stays
    busy for the first n - 1 ticks and becomes ready at the n-th; the ticks
    change no register, so the TX line keeps its level and the A-compare
    interrupt stays as it was. *)
Theorem delay_state_counts_down (m : mcu) :
  tx_state (fd_uart1 m) = 5 ->
  send_ready (fd_uart1 m) = 0 ->
  1 <= delay (fd_uart1 m) < 2 ^ 32 ->
  let n := Z.to_nat (delay (fd_uart1 m)) in
  (forall k, (k < n)%nat ->
     tx_state (fd_uart1 (snd (tx_ticks k m))) = 5 /\
     fdserial_sendok (snd (tx_ticks k m)) = 0 /\
     delay (fd_uart1 (snd (tx_ticks k m))) = delay (fd_uart1 m) - Z.of_nat k) /\
  tx_state (fd_uart1 (snd (tx_ticks n m))) = 0 /\
  fdserial_sendok (snd (tx_ticks n m)) = 1 /\
  io (snd (tx_ticks n m)) = io m /\
  tx_tick_enabled (snd (tx_ticks n m)) = tx_tick_enabled m /\
  fst (tx_ticks n m) = repeat (tx_line m) n.
Proof.
  intros Hs Hr Hd n.
  assert (Hn : n = S (Nat.pred n)) by lia.
  assert (Hd' : delay (fd_uart1 m) = Z.of_nat (S (Nat.pred n))) by lia.
  destruct (delay_countdown (Nat.pred n) m Hs Hd' ltac:(lia)) as (Hpre & Hu & Hio & Hlv).
  rewrite <- Hn in Hu, Hio, Hlv.
  split; [|split; [|split; [|split; [|split]]]].
  - intros k Hk. destruct (Hpre k ltac:(lia)) as [Eu _].
    unfold fdserial_sendok. rewrite Eu.
    cbn [tx_state send_ready delay set_delay]. repeat split; try assumption. lia.
  - rewrite Hu. reflexivity.
  - unfold fdserial_sendok. rewrite Hu. reflexivity.
  - exact Hio.
  - unfold tx_tick_enabled. rewrite Hio. reflexivity.
  - exact Hlv.
Qed.

Lemma delay_state_counts_down_witness :
  let m := Mcu (set_tx_state 5 (set_send_ready 0 (set_delay 9
                  (fd_uart1 (fdserial_init None (reset_state 0))))))
               (io (fdserial_init None (reset_state 0))) in
  tx_state (fd_uart1 m) = 5 /\
  send_ready (fd_uart1 m) = 0 /\
  1 <= delay (fd_uart1 m) < 2 ^ 32 /\
  tx_state (fd_uart1 (snd (tx_ticks 9 m))) = 0 /\
  fdserial_sendok (snd (tx_ticks 9 m)) = 1.
Proof.
  intros m.
  assert (Hd : 1 <= delay (fd_uart1 m) < 2 ^ 32) by (cbn; lia).
  pose proof (delay_state_counts_down m eq_refl eq_refl Hd) as (_ & H1 & H2 & _).
  split; [reflexivity|]. split; [reflexivity|]. split; [exact Hd|].
  split; [exact H1 | exact H2].
Defined.

(** X4: an alarm shorter than one bit period loads [delay] with 0; the
    first tick decrements it to 2^32 - 1, and the transmit side stays busy
    for 2^32 ticks before it is ready again. *)
Theorem alarm_below_one_period_wraps (ms : Z) (m : mcu) :
  send_ready (fd_uart1 m) <> 0 ->
  u32 (ms * CPU_FREQ) / PRESCALER_DIVISOR / 1000 < SERIAL_TOP + 1 ->
  exists m', fdserial_alarm ms m = Some m' /\
    delay (fd_uart1 m') = 0 /\
    (forall k, Z.of_nat k < 2 ^ 32 ->
       tx_state (fd_uart1 (snd (tx_ticks k m'))) = 5 /\
       fdserial_sendok (snd (tx_ticks k m')) = 0) /\
    (forall k, Z.of_nat k = 2 ^ 32 ->
       tx_state (fd_uart1 (snd (tx_ticks k m'))) = 0 /\
       fdserial_sendok (snd (tx_ticks k m')) = 1).
Proof.
  intros Hr Hlt. unfold fdserial_alarm.
  destruct (Z.eqb_spec (send_ready (fd_uart1 m)) 0) as [E|_]; [contradiction|].
  eexists. split; [reflexivity|].
  set (t := u32 (ms * CPU_FREQ) / PRESCALER_DIVISOR / 1000) in *.
  assert (Ht : 0 <= t).
  { subst t. apply Z.div_pos; [apply Z.div_pos|]; try (unfold PRESCALER_DIVISOR; lia).
    unfold u32. apply Z.mod_pos_bound. lia. }
  assert (Hc : t / (SERIAL_TOP + 1) = 0).
  { apply Z.div_small. unfold SERIAL_TOP in *. lia. }
  rewrite Hc.
  match goal with
  | |- context [Mcu ?u ?r] => set (m' := Mcu u r)
  end.
  assert (Hs' : tx_state (fd_uart1 m') = 5) by reflexivity.
  assert (Hd' : delay (fd_uart1 m') = 0) by reflexivity.
  assert (Hr' : send_ready (fd_uart1 m') = 0) by reflexivity.
  clearbody m'.
  pose proof (compa_delay_tick m' Hs') as E1. rewrite Hd' in E1.
  change (u32 (0 - 1)) with (2 ^ 32 - 1) in E1.
  change (2 ^ 32 - 1 =? 0) with false in E1. cbv zeta iota in E1.
  set (m1 := ISR_TIMER1_COMPA m') in *.
  assert (Hs1 : tx_state (fd_uart1 m1) = 5) by (rewrite E1; exact Hs').
  assert (Hr1 : send_ready (fd_uart1 m1) = 0) by (rewrite E1; exact Hr').
  pose (d := Z.to_nat (2 ^ 32 - 2)).
  assert (Hd1 : delay (fd_uart1 m1) = Z.of_nat (S d)).
  { rewrite E1. cbn [fd_uart1 delay set_delay]. subst d. lia. }
  destruct (delay_countdown d m1 Hs1 Hd1 ltac:(subst d; lia)) as (Hpre & Hu & _ & _).
  split; [exact Hd'|]. split.
  - intros k Hk. unfold fdserial_sendok. destruct k as [|k].
    + cbn [tx_ticks snd]. split; assumption.
    + destruct (tx_ticks_S k m') as [_ ->]. fold m1.
      destruct (Hpre k ltac:(subst d; lia)) as [-> _].
      cbn [tx_state send_ready set_delay]. split; assumption.
  - intros k Hk. assert (Ek : k = S (S d)) by (subst d; lia).
    rewrite Ek. unfold fdserial_sendok.
    destruct (tx_ticks_S (S d) m') as [_ ->]. fold m1. rewrite Hu.
    split; reflexivity.
Qed.

Lemma alarm_below_one_period_wraps_witness :
  send_ready (fd_uart1 (fdserial_init None (reset_state 0))) <> 0 /\
  u32 (0 * CPU_FREQ) / PRESCALER_DIVISOR / 1000 < SERIAL_TOP + 1 /\
  exists m', fdserial_alarm 0 (fdserial_init None (reset_state 0)) = Some m' /\
    delay (fd_uart1 m') = 0 /\
    (forall k, Z.of_nat k < 2 ^ 32 ->
       tx_state (fd_uart1 (snd (tx_ticks k m'))) = 5 /\
       fdserial_sendok (snd (tx_ticks k m')) = 0) /\
    (forall k, Z.of_nat k = 2 ^ 32 ->
       tx_state (fd_uart1 (snd (tx_ticks k m'))) = 0 /\
       fdserial_sendok (snd (tx_ticks k m')) = 1).
Proof.
  assert (H1 : send_ready (fd_uart1 (fdserial_init None (reset_state 0))) <> 0)
    by (vm_compute; discriminate).
  assert (H2 : u32 (0 * CPU_FREQ) / PRESCALER_DIVISOR / 1000 < SERIAL_TOP + 1)
    by (vm_compute; reflexivity).
  split; [exact H1|]. split; [exact H2|].
  exact (alarm_below_one_period_wraps 0 (fdserial_init None (reset_state 0)) H1 H2).
Defined.

(** Nothing that happens during a wait loop gets the Delay state going
    when the A-compare interrupt is masked. *)
Lemma wait_send_ready_stuck (rb : option Z) (es : list event) (m : mcu) :
  tx_state (fd_uart1 m) = 5 /\ send_ready (fd_uart1 m) = 0 /\
    tx_tick_enabled m = false ->
  wait_send_ready rb es m = None.
Proof.
  revert m. induction es as [|e es IH]; intros m Hinv;
    pose proof Hinv as (_ & Hr & _); cbn [wait_send_ready]; rewrite Hr;
    cbn [Z.eqb]; [reflexivity|].
  destruct (is_interrupt e) eqn:Hi; [|reflexivity].
  destruct (step rb e m) as [m1|] eqn:Hs; [|reflexivity].
  apply IH. apply (step_delay_stuck rb e m m1 Hs); [|exact Hinv].
  intros ->. discriminate Hi.
Qed.

(** X5: called with the A-compare interrupt masked, as it is after
    [fdserial_init] on a reset device and after every completed byte,
    [fdserial_delay] never returns, whatever interrupts are served while it
    waits: [fdserial_alarm] does not enable the interrupt that would count
    the delay down. *)
Theorem delay_never_returns_when_masked
  (rb : option Z) (duration : Z) (es : list event) (m : mcu) :
  tx_tick_enabled m = false ->
  fdserial_delay rb duration es m = None.
Proof.
  intros Hm. unfold fdserial_delay.
  destruct (fdserial_alarm duration m) as [m'|] eqn:Ha; [|reflexivity].
  apply wait_send_ready_stuck.
  pose proof (alarm_keeps_TIMSK duration m m' Ha) as Ht.
  unfold fdserial_alarm in Ha.
  destruct (send_ready (fd_uart1 m) =? 0); [discriminate|].
  inversion Ha; subst m'; clear Ha.
  repeat split. unfold tx_tick_enabled in *. cbn [io] in *. rewrite Ht. exact Hm.
Qed.

Lemma delay_never_returns_when_masked_witness :
  tx_tick_enabled (fdserial_init None (reset_state 0)) = false /\
  fdserial_delay None 100 (repeat Irq_COMPA 2000) (fdserial_init None (reset_state 0))
    = None.
Proof.
  split; [reflexivity|].
  apply (delay_never_returns_when_masked None 100 (repeat Irq_COMPA 2000)
           (fdserial_init None (reset_state 0))).
  reflexivity.
Defined.

End Delay.

(** ** Frames that are not well formed *)

Section Framing.

Variable RING_BUFFER : option Z.

(** Low samples in the AwaitHigh state change nothing but the pin
    register. *)
Lemma rx_ticks_await_low (lows : list Z) (m : mcu) :
  rx_state (fd_uart1 m) = 3 ->
  Forall (fun p => rx_line p = false) lows ->
  fd_uart1 (rx_ticks RING_BUFFER lows m) = fd_uart1 m /\
  TIMSK (io (rx_ticks RING_BUFFER lows m)) = TIMSK (io m) /\
  GIMSK (io (rx_ticks RING_BUFFER lows m)) = GIMSK (io m).
Proof.
  revert m. induction lows as [|p ps IH]; intros m Hs Hl.
  - repeat split.
  - inversion Hl as [|p' ps' Hp Hps]; subst.
    cbn [rx_ticks]. rewrite compb_await_high by exact Hs. rewrite Hp.
    destruct (IH (with_PINB p m) Hs Hps) as (-> & -> & ->). repeat split.
Qed.

(** A frame with any start sample, eight data samples, any number of low
    samples where the stop bit should be, and at last a high sample. *)
Lemma receive_any_frame (p0 ph : Z) (data lows : list Z) (m : mcu) :
  rx_state (fd_uart1 m) = 0 \/ rx_state (fd_uart1 m) = 1 ->
  0 <= recv_shift (fd_uart1 m) < 256 ->
  length data = 8%nat ->
  Forall (fun p => rx_line p = false) lows ->
  rx_line ph = true ->
  let b := byte_of_samples (map rx_line data) in
  let waiting := rx_ticks RING_BUFFER (p0 :: data ++ lows) m in
  let done := rx_ticks RING_BUFFER (p0 :: data ++ lows ++ [ph]) m in
  fd_uart1 waiting =
    set_rx_state 3 (set_recv_bits 0 (set_recv_shift b (fd_uart1 m))) /\
  TIMSK (io waiting) = TIMSK (io m) /\
  GIMSK (io waiting) = GIMSK (io m) /\
  fd_uart1 done = published RING_BUFFER b (fd_uart1 m) /\
  edge_enabled done = true /\
  rx_tick_enabled done = false.
Proof.
  intros Hst Hr Hlen Hlows Hph b waiting done.
  assert (Hdata : rx_ticks RING_BUFFER (p0 :: data) m =
            Mcu (set_rx_state 3 (set_recv_bits 0 (set_recv_shift b (fd_uart1 m))))
                (set_PINB (List.last data 0) (io m))).
  { cbn [rx_ticks]. rewrite compb_start by exact Hst.
    rewrite (compb_data_bits RING_BUFFER data); rewrite ?Hlen;
      [ | intros E; rewrite E in Hlen; discriminate
        | lia | reflexivity | reflexivity | exact Hr ].
    cbn [fd_uart1 io recv_shift set_recv_bits set_rx_state set_recv_shift set_PINB].
    change (2 ^ (8 - Z.of_nat 8)) with 1.
    rewrite Z.div_small by (change (2 ^ Z.of_nat 8) with 256; lia).
    rewrite Z.add_0_l, Z.mul_1_r. reflexivity. }
  set (m3 := rx_ticks RING_BUFFER (p0 :: data) m) in *.
  assert (Hs3 : rx_state (fd_uart1 m3) = 3) by (rewrite Hdata; reflexivity).
  destruct (rx_ticks_await_low lows m3 Hs3 Hlows) as (Wu & Wt & Wg).
  assert (Ew : waiting = rx_ticks RING_BUFFER lows m3).
  { subst waiting m3. change (p0 :: data ++ lows) with ((p0 :: data) ++ lows).
    apply rx_ticks_app. }
  assert (Ed : done = rx_ticks RING_BUFFER [ph] waiting).
  { subst done waiting. change (p0 :: data ++ lows ++ [ph])
      with ((p0 :: data) ++ lows ++ [ph]).
    change (p0 :: data ++ lows) with ((p0 :: data) ++ lows).
    rewrite !rx_ticks_app. reflexivity. }
  clearbody waiting done. subst waiting.
  assert (Hsw : rx_state (fd_uart1 (rx_ticks RING_BUFFER lows m3)) = 3)
    by (rewrite Wu; exact Hs3).
  split; [rewrite Wu, Hdata; reflexivity|].
  split; [rewrite Wt, Hdata; reflexivity|].
  split; [rewrite Wg, Hdata; reflexivity|].
  subst done. cbn [rx_ticks]. rewrite compb_await_high by exact Hsw. rewrite Hph.
  split; [|split].
  - cbn [fd_uart1]. rewrite Wu, Hdata. reflexivity.
  - unfold edge_enabled. cbn -[Z.testbit reg_or reg_andnot flag_write].
    rewrite reg_or_spec by (unfold INT0; lia). apply orb_true_r.
  - unfold rx_tick_enabled. cbn -[Z.testbit reg_or reg_andnot flag_write].
    rewrite reg_andnot_spec by (unfold OCIE1B; lia). apply andb_false_r.
Qed.

End Framing.

(** ** Delivery to the foreground *)

Section Delivery.

(** Reading depends on the ring alone. *)
Lemma drain_ring_fields (n : Z) (fuel : nat) (m1 m2 : mcu) :
  rx_head (fd_uart1 m1) = rx_head (fd_uart1 m2) ->
  rx_tail (fd_uart1 m1) = rx_tail (fd_uart1 m2) ->
  rx_buf (fd_uart1 m1) = rx_buf (fd_uart1 m2) ->
  drain (Some n) fuel m1 = drain (Some n) fuel m2.
Proof.
  revert m1 m2. induction fuel as [|fuel IH]; intros m1 m2 Hh Ht Hb;
    [reflexivity|].
  cbn [drain]. unfold fdserial_recv. rewrite Hh, Ht, Hb.
  destruct (rx_head (fd_uart1 m2) =? rx_tail (fd_uart1 m2)); [reflexivity|].
  f_equal. apply IH; cbn [fd_uart1 rx_head rx_tail rx_buf set_rx_tail];
    congruence.
Qed.

Lemma published_rx_state (rb : option Z) (b : Z) (u : fd_uart) :
  rx_state (published rb b u) = 0 /\ recv_shift (published rb b u) = b.
Proof.
  unfold published, rx_publish. destruct rb as [n|]; split_ifs; split; reflexivity.
Qed.

(** Once the engine has published [b], the foreground has it, and the
    engine is at rest again. *)
Lemma published_delivers (rb : option Z) (b : Z) (m m' : mcu) :
  0 <= b < 256 ->
  rx_idle rb m ->
  fd_uart1 m' = published rb b (fd_uart1 m) ->
  delivered rb m m' b /\ rx_idle rb m'.
Proof.
  intros Hb (Hst & Hr & Hring) Hu.
  destruct (published_rx_state rb b (fd_uart1 m)) as [Ps Pr].
  unfold delivered, rx_idle. rewrite Hu, Ps, Pr.
  destruct rb as [n|].
  - destruct Hring as (Hn & Hlen & Hh & Ht).
    set (u3 := set_rx_state 3 (set_recv_bits 0 (set_recv_shift b (fd_uart1 m)))).
    pose proof (unread_publish n Hn (Mcu u3 (io m)) (io m') Hlen Hh Ht) as K.
    cbn [fd_uart1] in K.
    destruct (publish_indices n Hn u3 Hh Ht) as (P1 & P2 & _).
    assert (Hf : rx_head (published (Some n) b (fd_uart1 m))
                   = rx_head (rx_publish (Some n) u3) /\
                 rx_tail (published (Some n) b (fd_uart1 m))
                   = rx_tail (rx_publish (Some n) u3) /\
                 rx_buf (published (Some n) b (fd_uart1 m))
                   = rx_buf (rx_publish (Some n) u3)).
    { unfold published. fold u3. repeat split. }
    destruct Hf as (F1 & F2 & F3).
    split.
    + unfold unread in *.
      pose proof (drain_ring_fields n (Z.to_nat n) m'
                    (Mcu (rx_publish (Some n) u3) (io m'))) as D.
      cbn [fd_uart1] in D. rewrite Hu in D. rewrite (D F1 F2 F3), K.
      f_equal. apply drain_ring_fields; reflexivity.
    + split; [reflexivity|]. split; [exact Hb|]. split; [exact Hn|].
      unfold indices_in_range. rewrite Hu, F1, F2, F3. split; [|split; assumption].
      unfold rx_publish. cbv zeta. split_ifs;
        cbn [rx_buf set_rx_tail set_rx_head set_rx_buf]; unfold buf_set;
        rewrite length_insert; exact Hlen.
  - split; [|split; [reflexivity | split; [exact Hb | exact I]]].
    unfold fdserial_recv. rewrite Hu. reflexivity.
Qed.

Lemma rx_idle_start (rb : option Z) (m : mcu) :
  rx_idle rb m ->
  (rx_state (fd_uart1 m) = 0 \/ rx_state (fd_uart1 m) = 1) /\
  0 <= recv_shift (fd_uart1 m) < 256.
Proof. intros (Hs & Hr & _). split; [left; exact Hs | exact Hr]. Qed.

(** X6: the receive engine checks neither the start bit nor the stop bit.
    Whatever the sample at the midpoint of the start bit and whatever the
    other input pins read, the eight data samples make the byte.  While
    the line is still low where the stop bit should be, the engine waits in
    AwaitHigh: the foreground sees no new byte and the edge detector and
    the B-compare interrupt stay as they are.  The first high sample
    delivers the byte, re-arms the edge detector and masks the B-compare
    interrupt. *)
Theorem frame_with_late_stop_bit
  (rb : option Z) (p0 ph : Z) (data lows : list Z) (m : mcu) :
  rx_idle rb m ->
  length data = 8%nat ->
  Forall (fun p => rx_line p = false) lows ->
  rx_line ph = true ->
  let b := byte_of_samples (map rx_line data) in
  let waiting := rx_ticks rb (p0 :: data ++ lows) m in
  let done := rx_ticks rb (p0 :: data ++ lows ++ [ph]) m in
  (rx_state (fd_uart1 waiting) = 3 /\
   fdserial_available rb waiting = fdserial_available rb m /\
   edge_enabled waiting = edge_enabled m /\
   rx_tick_enabled waiting = rx_tick_enabled m) /\
  (delivered rb m done b /\ rx_idle rb done /\
   edge_enabled done = true /\ rx_tick_enabled done = false).
Proof.
  intros Hidle Hlen Hlows Hph b waiting done.
  destruct (rx_idle_start rb m Hidle) as [Hst Hr].
  destruct (receive_any_frame rb p0 ph data lows m Hst Hr Hlen Hlows Hph)
    as (Wu & Wt & Wg & Du & De & Dr).
  fold b waiting done in Wu, Wt, Wg, Du, De, Dr.
  assert (Hb : 0 <= b < 256).
  { pose proof (byte_of_samples_range (map rx_line data)) as R.
    rewrite length_map, Hlen in R. exact R. }
  split.
  - unfold fdserial_available, edge_enabled, rx_tick_enabled.
    rewrite Wu, Wt, Wg. repeat split.
  - destruct (published_delivers rb b m done Hb Hidle Du) as [D I].
    split; [exact D|]. split; [exact I|]. split; assumption.
Qed.

Lemma frame_with_late_stop_bit_witness :
  let m := fdserial_init (Some 4) (reset_state 4) in
  let data := map pin_level [true; false; true; false; false; true; false; true] in
  let lows := [0; 0; 0] in
  rx_idle (Some 4) m /\
  length data = 8%nat /\
  Forall (fun p => rx_line p = false) lows /\
  rx_line 255 = true /\
  rx_state (fd_uart1 (rx_ticks (Some 4) (255 :: data ++ lows) m)) = 3 /\
  delivered (Some 4) m (rx_ticks (Some 4) (255 :: data ++ lows ++ [255]) m) 165.
Proof.
  intros m data lows.
  assert (H1 : rx_idle (Some 4) m).
  { unfold rx_idle, indices_in_range. cbn. lia. }
  assert (H3 : Forall (fun p => rx_line p = false) lows)
    by (repeat constructor).
  pose proof (frame_with_late_stop_bit (Some 4) 255 255 data lows m H1 eq_refl H3 eq_refl)
    as ((W1 & _) & (D1 & _)).
  split; [exact H1|]. split; [reflexivity|]. split; [exact H3|].
  split; [reflexivity|]. split; [exact W1 | exact D1].
Defined.

(** X7: in single-slot mode a byte that is not read before the next one
    has arrived is overwritten: after two frames [fdserial_recv] returns
    the second byte, and the call after that waits, with the slot zeroed. *)
Theorem single_slot_keeps_latest (t1 t2 b1 b2 : Z) (m : mcu) :
  rx_idle None m ->
  0 <= b1 < 256 ->
  0 <= b2 < 256 ->
  let m2 := receive_bytes None [(t1, b1); (t2, b2)] m in
  exists m3,
    fdserial_recv None m2 = Some (b2, m3) /\
    fdserial_recv None m3 = None /\
    fdserial_available None m3 = 0 /\
    recv_byte (fd_uart1 m3) = 0.
Proof.
  intros (Hst & Hr & _) H1 H2. unfold receive_bytes. cbn [fold_left fst snd].
  destruct (receive_frame_byte None t1 b1 m H1 Hst Hr) as (U1 & S1 & R1).
  set (f1 := receive_frame None t1 (frame_pins b1) m) in *.
  destruct (receive_frame_byte None t2 b2 f1 H2 S1 R1) as (U2 & _ & _).
  set (f2 := receive_frame None t2 (frame_pins b2) f1) in *.
  clearbody f2. unfold fdserial_recv, fdserial_available. rewrite U2.
  cbn. eexists. repeat split.
Qed.

Lemma single_slot_keeps_latest_witness :
  rx_idle None (fdserial_init None (reset_state 0)) /\
  0 <= 65 < 256 /\
  0 <= 66 < 256 /\
  exists m3,
    fdserial_recv None
      (receive_bytes None [(50, 65); (120, 66)] (fdserial_init None (reset_state 0)))
      = Some (66, m3) /\
    fdserial_recv None m3 = None /\
    fdserial_available None m3 = 0 /\
    recv_byte (fd_uart1 m3) = 0.
Proof.
  assert (H : rx_idle None (fdserial_init None (reset_state 0))).
  { unfold rx_idle. cbn. lia. }
  split; [exact H|]. split; [lia|]. split; [lia|].
  apply (single_slot_keeps_latest 50 120 65 66 (fdserial_init None (reset_state 0)) H);
    lia.
Defined.

(** A queue that drops its oldest element at [n] keeps the latest
    [n - 1] of all that went in. *)
Lemma queue_push_fold (n : Z) (bs q : list Z) :
  1 <= n ->
  (length q <= Z.to_nat (n - 1))%nat ->
  fold_left (queue_push n) bs q =
    drop (length (q ++ bs) - Z.to_nat (n - 1)) (q ++ bs).
Proof.
  intros Hn. revert q. induction bs as [|b bs IH]; intros q Hq.
  - cbn [fold_left]. rewrite app_nil_r.
    replace (length q - Z.to_nat (n - 1))%nat with 0%nat by lia. reflexivity.
  - cbn [fold_left]. unfold queue_push at 2. cbv zeta.
    assert (Hl : length (q ++ [b]) = S (length q))
      by (rewrite length_app; cbn [length]; lia).
    replace (q ++ b :: bs) with ((q ++ [b]) ++ bs)
      by (rewrite <- app_assoc; reflexivity).
    destruct (Z.ltb_spec (Z.of_nat (length (q ++ [b]))) n) as [L|L].
    + rewrite IH by lia. reflexivity.
    + destruct (q ++ [b]) as [|x q'] eqn:E; [discriminate Hl|].
      cbn [tail]. cbn [length] in Hl, L.
      rewrite IH by lia.
      cbn [app length].
      replace (S (length (q' ++ bs)) - Z.to_nat (n - 1))%nat
        with (S (length (q' ++ bs) - Z.to_nat (n - 1)))
        by (rewrite length_app; lia).
      reflexivity.
Qed.

Lemma fold_left_step {A B : Type} (f : A -> B -> A) (x : B) (l : list B) (a : A) :
  fold_left f (x :: l) a = fold_left f l (f a x).
Proof. reflexivity. Qed.

(** Frame after frame, the unread bytes follow the queue. *)
Lemma receive_bytes_unread (n : Z) (frames : list (Z * Z)) (m : mcu) :
  rx_idle (Some n) m ->
  Forall (fun f => 0 <= snd f < 256) frames ->
  unread n (receive_bytes (Some n) frames m) =
    fold_left (queue_push n) (map snd frames) (unread n m) /\
  rx_idle (Some n) (receive_bytes (Some n) frames m).
Proof.
  unfold receive_bytes. revert m.
  induction frames as [|[t b] fs IH]; intros m Hidle Hfs.
  - split; [reflexivity | exact Hidle].
  - inversion Hfs as [|f fs' Hb Hfs']; subst. cbn [snd] in Hb.
    rewrite map_cons, !fold_left_step. cbn [fst snd].
    pose proof Hidle as (Hst & Hr & _).
    destruct (receive_frame_byte (Some n) t b m Hb Hst Hr) as (U & _ & _).
    set (f1 := receive_frame (Some n) t (frame_pins b) m) in *. clearbody f1.
    destruct (published_delivers (Some n) b m f1 Hb Hidle U) as [D I].
    unfold delivered in D. rewrite <- D. apply IH; assumption.
Qed.

(** X8: in ring mode, after any number of frames with no read in between,
    the unread bytes are the bytes that were unread before followed by the
    received ones, in the order of arrival, cut down to the latest
    RING_BUFFER - 1: overflow loses the oldest bytes and nothing else. *)
Theorem ring_keeps_latest (n : Z) (frames : list (Z * Z)) (m : mcu) :
  rx_idle (Some n) m ->
  Forall (fun f => 0 <= snd f < 256) frames ->
  let m' := receive_bytes (Some n) frames m in
  let all := unread n m ++ map snd frames in
  unread n m' = drop (length all - Z.to_nat (n - 1)) all /\
  rx_idle (Some n) m'.
Proof.
  intros Hidle Hfs m' all.
  destruct (receive_bytes_unread n frames m Hidle Hfs) as [Hu Hi].
  pose proof Hidle as (_ & _ & Hn & _ & Hh & Ht).
  destruct (unread_length n Hn m Hh Ht) as [_ Hlen].
  split; [|exact Hi].
  subst m' all. rewrite Hu. apply queue_push_fold; lia.
Qed.

Lemma ring_keeps_latest_witness :
  let m := fdserial_init (Some 4) (reset_state 4) in
  let frames := [(50, 1); (60, 2); (70, 3); (80, 4); (90, 5); (100, 6)] in
  rx_idle (Some 4) m /\
  Forall (fun f => 0 <= snd f < 256) frames /\
  unread 4 (receive_bytes (Some 4) frames m) = [4; 5; 6].
Proof.
  intros m frames.
  assert (H1 : rx_idle (Some 4) m).
  { unfold rx_idle, indices_in_range. cbn. lia. }
  assert (H2 : Forall (fun f => 0 <= snd f < 256) frames).
  { repeat constructor; cbn; lia. }
  split; [exact H1|]. split; [exact H2|].
  exact (proj1 (ring_keeps_latest 4 frames m H1 H2)).
Defined.

End Delivery.

(** ** Independence of the two directions *)

Section Independence.

Lemma testbit_u8_any (z i : Z) :
  0 <= i -> Z.testbit (u8 z) i = (i <? 8) && Z.testbit z i.
Proof.
  intros Hi. unfold u8. change 256 with (2 ^ 8).
  destruct (Z.ltb_spec i 8).
  - rewrite Z.mod_pow2_bits_low by lia. reflexivity.
  - rewrite Z.mod_pow2_bits_high by lia. reflexivity.
Qed.

(** Updates of different bits of a register can be done in either
    order. *)
Lemma reg_andnot_andnot (t i j : Z) :
  0 <= i -> 0 <= j ->
  reg_andnot (reg_andnot t (Z.shiftl 1 i)) (Z.shiftl 1 j) =
  reg_andnot (reg_andnot t (Z.shiftl 1 j)) (Z.shiftl 1 i).
Proof.
  intros Hi Hj. unfold reg_andnot. apply Z.bits_inj'. intros k Hk.
  rewrite !testbit_u8_any, !Z.land_spec, !testbit_u8_any, !Z.land_spec,
    !Z.lnot_spec, !testbit_mask by lia.
  destruct (k <? 8), (Z.testbit t k), (i =? k), (j =? k); reflexivity.
Qed.

Lemma reg_andnot_or (t i j : Z) :
  0 <= i -> 0 <= j -> i <> j ->
  reg_andnot (reg_or t (Z.shiftl 1 i)) (Z.shiftl 1 j) =
  reg_or (reg_andnot t (Z.shiftl 1 j)) (Z.shiftl 1 i).
Proof.
  intros Hi Hj Hne. unfold reg_andnot, reg_or. apply Z.bits_inj'. intros k Hk.
  rewrite !testbit_u8_any, Z.land_spec, Z.lor_spec, !testbit_u8_any, Z.lor_spec,
    Z.land_spec, !Z.lnot_spec, !testbit_mask by lia.
  destruct (Z.eqb_spec i k), (Z.eqb_spec j k); try lia;
    destruct (k <? 8), (Z.testbit t k); reflexivity.
Qed.

Ltac norm_state :=
  cbv iota zeta;
  cbn [fd_uart1 io tx_state rx_state send_ready send_byte send_bits delay
       available recv_shift recv_bits recv_byte rx_head rx_tail rx_buf
       TCCR1 GIFR GIMSK TIMSK TIFR MCUCR TCNT1 OCR1A OCR1B OCR1C DDRB PORTB PINB
       set_tx_state set_send_bits set_send_byte set_send_ready set_delay
       set_rx_state set_recv_bits set_recv_shift set_recv_byte set_available
       set_rx_head set_rx_tail set_rx_buf
       set_PORTB set_PINB set_TIMSK set_GIFR set_GIMSK set_TIFR set_OCR1B
       Z.eqb Pos.eqb].

Ltac use_cases :=
  norm_state;
  repeat (progress
            (repeat match goal with
                    | H : (?a =? ?b) = _ |- context [?a =? ?b] => rewrite H
                    | H : ?a = true |- context [if ?a then _ else _] => rewrite H
                    | H : ?a = false |- context [if ?a then _ else _] => rewrite H
                    end;
             norm_state)).

Ltac split_cases :=
  use_cases;
  repeat (match goal with
          | |- context [if ?c then _ else _] => destruct c eqn:?
          end; use_cases).

(** The transmit handler, state by state. *)
Lemma compa_eq_idle (m : mcu) :
  tx_state (fd_uart1 m) = 0 -> ISR_TIMER1_COMPA m = m.
Proof. intros Hs. unfold ISR_TIMER1_COMPA. rewrite Hs. reflexivity. Qed.

Lemma compa_eq_start (m : mcu) :
  tx_state (fd_uart1 m) = 1 ->
  ISR_TIMER1_COMPA m =
    Mcu (set_send_bits 8 (set_tx_state 2 (fd_uart1 m)))
        (set_PORTB (reg_andnot (PORTB (io m)) S1_TX_PIN) (io m)).
Proof. intros Hs. unfold ISR_TIMER1_COMPA. rewrite Hs. reflexivity. Qed.

Lemma compa_eq_data (m : mcu) :
  tx_state (fd_uart1 m) = 2 ->
  ISR_TIMER1_COMPA m =
    Mcu (let u := set_send_bits (u8 (send_bits (fd_uart1 m) - 1))
                    (set_send_byte (Z.shiftr (send_byte (fd_uart1 m)) 1)
                       (fd_uart1 m)) in
         if u8 (send_bits (fd_uart1 m) - 1) =? 0 then set_tx_state 3 u else u)
        (if Z.land (send_byte (fd_uart1 m)) 1 =? 0
         then set_PORTB (reg_andnot (PORTB (io m)) S1_TX_PIN) (io m)
         else set_PORTB (reg_or (PORTB (io m)) S1_TX_PIN) (io m)).
Proof. intros Hs. unfold ISR_TIMER1_COMPA. rewrite Hs. reflexivity. Qed.

Lemma compa_eq_stop (m : mcu) :
  tx_state (fd_uart1 m) = 3 ->
  ISR_TIMER1_COMPA m =
    Mcu (set_tx_state 4 (fd_uart1 m))
        (set_PORTB (reg_or (PORTB (io m)) S1_TX_PIN) (io m)).
Proof. intros Hs. unfold ISR_TIMER1_COMPA. rewrite Hs. reflexivity. Qed.

Lemma compa_eq_return (m : mcu) :
  tx_state (fd_uart1 m) = 4 ->
  ISR_TIMER1_COMPA m =
    Mcu (set_tx_state 0 (set_send_ready 1 (fd_uart1 m))) (_stop_tx (io m)).
Proof. intros Hs. unfold ISR_TIMER1_COMPA. rewrite Hs. reflexivity. Qed.

Lemma compa_eq_other (m : mcu) :
  ~ 0 <= tx_state (fd_uart1 m) <= 5 -> ISR_TIMER1_COMPA m = m.
Proof.
  intros Hs. unfold ISR_TIMER1_COMPA.
  repeat match goal with
         | |- context [?a =? ?b] => destruct (Z.eqb_spec a b); [lia|]
         end.
  reflexivity.
Qed.

(** The receive handler in the DataBit state and outside its states. *)
Lemma compb_eq_data (rb : option Z) (p : Z) (m : mcu) :
  rx_state (fd_uart1 m) = 2 ->
  ISR_TIMER1_COMPB rb (with_PINB p m) =
    Mcu (let sh := Z.shiftr (recv_shift (fd_uart1 m)) 1 in
         let u := set_recv_bits (u8 (recv_bits (fd_uart1 m) - 1))
                    (set_recv_shift
                       (if u8 (Z.land p S1_RX_PIN) =? 0 then sh
                        else u8 (Z.lor sh 128)) (fd_uart1 m)) in
         if u8 (recv_bits (fd_uart1 m) - 1) =? 0 then set_rx_state 3 u else u)
        (set_PINB p (io m)).
Proof.
  intros Hs. unfold ISR_TIMER1_COMPB, with_PINB. cbn [fd_uart1 io].
  rewrite Hs. cbn [PINB set_PINB Z.eqb Pos.eqb].
  destruct (u8 (Z.land p S1_RX_PIN) =? 0); reflexivity.
Qed.

Lemma compb_eq_other (rb : option Z) (p : Z) (m : mcu) :
  ~ 0 <= rx_state (fd_uart1 m) <= 3 ->
  ISR_TIMER1_COMPB rb (with_PINB p m) = with_PINB p m.
Proof.
  intros Hs. remember (with_PINB p m) as x eqn:Ex.
  assert (Hx : ~ 0 <= rx_state (fd_uart1 x) <= 3) by (subst x; exact Hs).
  clear Ex Hs. unfold ISR_TIMER1_COMPB.
  repeat match goal with
         | |- context [?a =? 0] => destruct (Z.eqb_spec a 0); [lia|]
         | |- context [?a =? 1] => destruct (Z.eqb_spec a 1); [lia|]
         | |- context [?a =? 2] => destruct (Z.eqb_spec a 2); [lia|]
         | |- context [?a =? 3] => destruct (Z.eqb_spec a 3); [lia|]
         end.
  reflexivity.
Qed.

Ltac rewrite_compa :=
  first [ rewrite compa_eq_idle by (norm_state; assumption)
        | rewrite compa_eq_start by (norm_state; assumption)
        | rewrite compa_eq_data by (norm_state; assumption)
        | rewrite compa_eq_stop by (norm_state; assumption)
        | rewrite compa_eq_return by (norm_state; assumption)
        | rewrite compa_delay_tick by (norm_state; assumption)
        | rewrite compa_eq_other by (norm_state; assumption) ].

Ltac rewrite_compb :=
  first [ rewrite compb_start by (norm_state; (left; assumption) || (right; assumption))
        | rewrite compb_eq_data by (norm_state; assumption)
        | rewrite compb_await_high by (norm_state; assumption)
        | rewrite compb_eq_other by (norm_state; assumption) ].

Lemma tx_state_cases (z : Z) :
  z = 0 \/ z = 1 \/ z = 2 \/ z = 3 \/ z = 4 \/ z = 5 \/ ~ 0 <= z <= 5.
Proof. lia. Qed.

Lemma rx_state_cases (z : Z) :
  z = 0 \/ z = 1 \/ z = 2 \/ z = 3 \/ ~ 0 <= z <= 3.
Proof. lia. Qed.

(** The transmit handler and the receive handler commute: the state after
    both does not depend on which ran first. *)
Lemma compa_compb_commute (rb : option Z) (p : Z) (m : mcu) :
  ISR_TIMER1_COMPA (ISR_TIMER1_COMPB rb (with_PINB p m)) =
  ISR_TIMER1_COMPB rb (with_PINB p (ISR_TIMER1_COMPA m)).
Proof.
  destruct rb as [n|];
  (destruct (tx_state_cases (tx_state (fd_uart1 m)))
    as [Ht|[Ht|[Ht|[Ht|[Ht|[Ht|Ht]]]]]];
  destruct (rx_state_cases (rx_state (fd_uart1 m)))
    as [Hr|[Hr|[Hr|[Hr|Hr]]]];
  first [ rewrite (compb_start _ p m) by ((left; assumption) || (right; assumption))
        | rewrite (compb_eq_data _ p m) by assumption
        | rewrite (compb_await_high _ p m) by assumption
        | rewrite (compb_eq_other _ p m) by assumption ];
  first [ rewrite (compa_eq_idle m) by assumption
        | rewrite (compa_eq_start m) by assumption
        | rewrite (compa_eq_data m) by assumption
        | rewrite (compa_eq_stop m) by assumption
        | rewrite (compa_eq_return m) by assumption
        | rewrite (compa_delay_tick m) by assumption
        | rewrite (compa_eq_other m) by assumption ];
  unfold rx_publish; split_cases;
  try rewrite_compa; try rewrite_compb; unfold rx_publish;
  unfold with_PINB, _stop_tx, _stop_rx, _enable_int0, _start_rx, _disable_int0;
  split_cases; try reflexivity; try discriminate);
  rewrite (reg_andnot_andnot (TIMSK (io m)) OCIE1B OCIE1A)
    by (unfold OCIE1A, OCIE1B; lia);
  reflexivity.
Qed.

Lemma compa_int0_commute (m : mcu) :
  ISR_TIMER1_COMPA (ISR_INT0 m) = ISR_INT0 (ISR_TIMER1_COMPA m).
Proof.
  destruct (tx_state_cases (tx_state (fd_uart1 m)))
    as [Ht|[Ht|[Ht|[Ht|[Ht|[Ht|Ht]]]]]];
  first [ rewrite (compa_eq_idle m), (compa_eq_idle (ISR_INT0 m)) by exact Ht
        | rewrite (compa_eq_start m), (compa_eq_start (ISR_INT0 m)) by exact Ht
        | rewrite (compa_eq_data m), (compa_eq_data (ISR_INT0 m)) by exact Ht
        | rewrite (compa_eq_stop m), (compa_eq_stop (ISR_INT0 m)) by exact Ht
        | rewrite (compa_eq_return m), (compa_eq_return (ISR_INT0 m)) by exact Ht
        | rewrite (compa_delay_tick m), (compa_delay_tick (ISR_INT0 m)) by exact Ht
        | rewrite (compa_eq_other m), (compa_eq_other (ISR_INT0 m)) by exact Ht ];
  try reflexivity;
  unfold ISR_INT0, _stop_tx, _start_rx, _disable_int0;
  split_cases; try reflexivity;
  rewrite (reg_andnot_or (TIMSK (io m)) OCIE1B OCIE1A)
    by (unfold OCIE1A, OCIE1B; lia);
  reflexivity.
Qed.

Lemma compa_hardware_commute (tcnt p : Z) (m : mcu) :
  ISR_TIMER1_COMPA (with_PINB p (with_TCNT1 tcnt m)) =
  with_PINB p (with_TCNT1 tcnt (ISR_TIMER1_COMPA m)).
Proof.
  set (h := with_PINB p (with_TCNT1 tcnt m)).
  destruct (tx_state_cases (tx_state (fd_uart1 m)))
    as [Ht|[Ht|[Ht|[Ht|[Ht|[Ht|Ht]]]]]];
  first [ rewrite (compa_eq_idle m), (compa_eq_idle h) by exact Ht
        | rewrite (compa_eq_start m), (compa_eq_start h) by exact Ht
        | rewrite (compa_eq_data m), (compa_eq_data h) by exact Ht
        | rewrite (compa_eq_stop m), (compa_eq_stop h) by exact Ht
        | rewrite (compa_eq_return m), (compa_eq_return h) by exact Ht
        | rewrite (compa_delay_tick m), (compa_delay_tick h) by exact Ht
        | rewrite (compa_eq_other m), (compa_eq_other h) by exact Ht ];
  try reflexivity;
  subst h; unfold with_PINB, with_TCNT1, _stop_tx;
  split_cases; reflexivity.
Qed.

Lemma compb_counter_commute (rb : option Z) (t p : Z) (m : mcu) :
  ISR_TIMER1_COMPB rb (with_PINB p (with_TCNT1 t m)) =
  with_TCNT1 t (ISR_TIMER1_COMPB rb (with_PINB p m)).
Proof.
  destruct (rx_state_cases (rx_state (fd_uart1 m))) as [Hr|[Hr|[Hr|[Hr|Hr]]]];
  first [ rewrite (compb_start rb p m), (compb_start rb p (with_TCNT1 t m))
            by ((left; exact Hr) || (right; exact Hr))
        | rewrite (compb_eq_data rb p m), (compb_eq_data rb p (with_TCNT1 t m))
            by exact Hr
        | rewrite (compb_await_high rb p m), (compb_await_high rb p (with_TCNT1 t m))
            by exact Hr
        | rewrite (compb_eq_other rb p m), (compb_eq_other rb p (with_TCNT1 t m))
            by exact Hr ];
  unfold with_PINB, with_TCNT1, _stop_rx, _enable_int0;
  split_cases; reflexivity.
Qed.

Lemma with_PINB_same (m : mcu) : with_PINB (PINB (io m)) m = m.
Proof. destruct m as [u r]. destruct r. reflexivity. Qed.

(** The transmit handler leaves alone what the receive direction reads. *)
Lemma compa_keeps_rx_io (m : mcu) :
  PINB (io (ISR_TIMER1_COMPA m)) = PINB (io m) /\
  rx_tick_enabled (ISR_TIMER1_COMPA m) = rx_tick_enabled m /\
  edge_enabled (ISR_TIMER1_COMPA m) = edge_enabled m /\
  rx_state (fd_uart1 (ISR_TIMER1_COMPA m)) = rx_state (fd_uart1 m) /\
  recv_shift (fd_uart1 (ISR_TIMER1_COMPA m)) = recv_shift (fd_uart1 m).
Proof.
  unfold rx_tick_enabled, edge_enabled.
  destruct (tx_state_cases (tx_state (fd_uart1 m)))
    as [Ht|[Ht|[Ht|[Ht|[Ht|[Ht|Ht]]]]]];
  first [ rewrite (compa_eq_idle m) by exact Ht
        | rewrite (compa_eq_start m) by exact Ht
        | rewrite (compa_eq_data m) by exact Ht
        | rewrite (compa_eq_stop m) by exact Ht
        | rewrite (compa_eq_return m) by exact Ht
        | rewrite (compa_delay_tick m) by exact Ht
        | rewrite (compa_eq_other m) by exact Ht ];
  unfold _stop_tx; split_cases; repeat split; try reflexivity.
  rewrite reg_andnot_spec by (unfold OCIE1A, OCIE1B; lia).
  apply andb_true_r.
Qed.

(** The receive handlers and the hardware leave the TX line alone. *)
Lemma compb_keeps_line (rb : option Z) (m : mcu) :
  tx_line (ISR_TIMER1_COMPB rb m) = tx_line m.
Proof.
  unfold tx_line, ISR_TIMER1_COMPB, rx_publish.
  destruct rb as [k|]; split_ifs; reflexivity.
Qed.

Lemma int0_keeps_line (m : mcu) : tx_line (ISR_INT0 m) = tx_line m.
Proof.
  unfold tx_line, ISR_INT0. destruct (TCNT1 (io m) >=? SERIAL_HALFBIT); reflexivity.
Qed.

(** An event of the receive direction and a tick of the transmit
    direction: neither changes whether the other can happen, nor what it
    does. *)
Lemma rx_event_keeps_tx (rb : option Z) (e : event) (m m' : mcu) :
  is_rx_event e = true ->
  step rb e m = Some m' ->
  tx_tick_enabled m' = tx_tick_enabled m /\ tx_line m' = tx_line m /\
  send_ready (fd_uart1 m') = send_ready (fd_uart1 m) /\
  tx_state (fd_uart1 m') = tx_state (fd_uart1 m).
Proof.
  intros He Hs. destruct e; try discriminate He; cbn [step] in Hs.
  - destruct (is_byte tcnt && is_byte pinb); inversion Hs; subst m'.
    repeat split; reflexivity.
  - destruct (rx_tick_enabled m); inversion Hs; subst m'.
    destruct (compb_keeps_tx rb m) as (H1 & H2 & H3 & _).
    split; [exact H3 | split; [apply compb_keeps_line | split; assumption]].
  - destruct (edge_enabled m); inversion Hs; subst m'.
    destruct (int0_spec m) as (_ & _ & _ & H & Hu).
    cbv zeta in Hu.
    split; [exact H | split; [apply int0_keeps_line | rewrite Hu; split; reflexivity]].
Qed.

Lemma rx_event_after_tick (rb : option Z) (e : event) (m : mcu) :
  is_rx_event e = true ->
  step rb e (ISR_TIMER1_COMPA m) = option_map ISR_TIMER1_COMPA (step rb e m).
Proof.
  intros He. destruct (compa_keeps_rx_io m) as (Hp & Hb & Hg & _).
  destruct e; try discriminate He; cbn [step].
  - destruct (is_byte tcnt && is_byte pinb); [|reflexivity].
    cbn [option_map]. rewrite compa_hardware_commute. reflexivity.
  - rewrite Hb. destruct (rx_tick_enabled m); [|reflexivity].
    cbn [option_map]. f_equal.
    rewrite <- (with_PINB_same m) at 2.
    rewrite compa_compb_commute, <- Hp. rewrite with_PINB_same. reflexivity.
  - rewrite Hg. destruct (edge_enabled m); [|reflexivity].
    cbn [option_map]. rewrite compa_int0_commute. reflexivity.
Qed.

Lemma is_tx_event_inv (e : event) : is_tx_event e = true -> e = Irq_COMPA.
Proof. destruct e; (reflexivity || discriminate). Qed.

(** An event of the receive direction moves past a run of transmit
    ticks. *)
Lemma rx_event_past_ticks (rb : option Z) (e : event) (txs : list event) :
  is_rx_event e = true ->
  Forall (fun e' => is_tx_event e' = true) txs ->
  forall m,
    match step rb e m with
    | Some m' => run rb txs m'
    | None => None
    end =
    match run rb txs m with
    | Some m1 => step rb e m1
    | None => None
    end.
Proof.
  intros He Htx. induction Htx as [|a txs Ha _ IH]; intros m.
  - cbn [run]. destruct (step rb e m); reflexivity.
  - apply is_tx_event_inv in Ha. subst a. cbn [run step].
    destruct (step rb e m) as [m'|] eqn:Es.
    + destruct (rx_event_keeps_tx rb e m m' He Es) as (-> & _).
      destruct (tx_tick_enabled m); [|reflexivity].
      rewrite <- IH, rx_event_after_tick, Es by exact He. reflexivity.
    + destruct (tx_tick_enabled m); [|reflexivity].
      rewrite <- IH, rx_event_after_tick, Es by exact He. reflexivity.
Qed.

Lemma is_interrupt_cases (e : event) :
  is_interrupt e = true ->
  e = Irq_COMPA \/ is_rx_event e = true /\ is_tx_event e = false.
Proof. destruct e; try discriminate; intros _; auto. Qed.

Lemma filter_tx_events (es : list event) :
  Forall (fun e => is_tx_event e = true) (List.filter is_tx_event es).
Proof.
  apply List.Forall_forall. intros x Hx. apply List.filter_In in Hx. apply Hx.
Qed.

(** A run of interrupts is the run of its transmit ticks followed by the
    run of its receive events. *)
Lemma run_split (rb : option Z) (es : list event) :
  Forall (fun e => is_interrupt e = true) es ->
  forall m,
    run rb es m =
      match run rb (List.filter is_tx_event es) m with
      | Some m1 => run rb (List.filter is_rx_event es) m1
      | None => None
      end.
Proof.
  induction 1 as [|e es He Hes IH]; intros m; [reflexivity|].
  destruct (is_interrupt_cases e He) as [->|[Hrx Htx]].
  - cbn [List.filter is_tx_event is_rx_event run].
    destruct (step rb Irq_COMPA m); [apply IH | reflexivity].
  - cbn [List.filter]. rewrite Hrx, Htx. cbn [run].
    assert (Ft : Forall (fun e' => is_tx_event e' = true) (List.filter is_tx_event es)).
    { apply filter_tx_events. }
    pose proof (rx_event_past_ticks rb e _ Hrx Ft m) as P.
    destruct (step rb e m) as [m'|].
    + rewrite IH.
      destruct (run rb (List.filter is_tx_event es) m');
        destruct (run rb (List.filter is_tx_event es) m);
        try discriminate P; try reflexivity; rewrite <- P; reflexivity.
    + destruct (run rb (List.filter is_tx_event es) m); [|reflexivity].
      rewrite <- P. reflexivity.
Qed.

(** The receive events of a run do not show on the TX line. *)
Lemma run_levels_past_rx (rb : option Z) (e : event) (txs : list event) :
  is_rx_event e = true ->
  Forall (fun e' => is_tx_event e' = true) txs ->
  forall m m', step rb e m = Some m' ->
    run_levels rb txs m' = run_levels rb txs m.
Proof.
  intros He Htx. induction Htx as [|a txs Ha _ IH]; intros m m' Es; [reflexivity|].
  apply is_tx_event_inv in Ha. subst a. cbn [run_levels step is_tx_event].
  destruct (rx_event_keeps_tx rb e m m' He Es) as (-> & _).
  destruct (tx_tick_enabled m); [|reflexivity].
  assert (Es' : step rb e (ISR_TIMER1_COMPA m) = Some (ISR_TIMER1_COMPA m')).
  { rewrite rx_event_after_tick, Es by exact He. reflexivity. }
  destruct (rx_event_keeps_tx rb e _ _ He Es') as (_ & -> & _).
  rewrite (IH _ _ Es'). reflexivity.
Qed.

Lemma run_levels_split (rb : option Z) (es : list event) :
  Forall (fun e => is_interrupt e = true) es ->
  forall m m', run rb es m = Some m' ->
    run_levels rb es m = run_levels rb (List.filter is_tx_event es) m.
Proof.
  induction 1 as [|e es He Hes IH]; intros m m' Hrun; [reflexivity|].
  cbn [run] in Hrun.
  destruct (is_interrupt_cases e He) as [->|[Hrx Htx]].
  - cbn [List.filter is_tx_event run_levels].
    destruct (step rb Irq_COMPA m) as [m1|]; [|reflexivity].
    rewrite (IH _ _ Hrun). reflexivity.
  - cbn [List.filter run_levels]. rewrite Htx.
    destruct (step rb e m) as [m1|] eqn:Es; [|discriminate Hrun].
    cbn [app]. rewrite (IH _ _ Hrun).
    apply (run_levels_past_rx rb e); [exact Hrx | | exact Es].
    apply filter_tx_events.
Qed.

(** X10: the handler of the transmit direction commutes with the handlers
    of the receive direction and with the hardware's changes of counter
    and input pins, in what they do and in whether they are enabled.  So a
    schedule of handler runs and hardware changes, each handler run only
    while its interrupt is enabled, can take place exactly when its
    A-compare ticks alone followed by its receive events alone can, it
    ends in the same state, and it drives the TX line as the A-compare
    ticks alone do.  The schedule says which handlers run: that the edge
    handler's write to TIFR clears a pending A-compare flag, so that the
    hardware may drop a tick from the schedule, is the matter of
    [flag_writes_clear_every_flag]. *)
Theorem interrupts_split_by_direction
  (rb : option Z) (es : list event) (m : mcu) :
  Forall (fun e => is_interrupt e = true) es ->
  run rb es m =
    match run rb (List.filter is_tx_event es) m with
    | Some m1 => run rb (List.filter is_rx_event es) m1
    | None => None
    end /\
  (run rb es m <> None ->
   run_levels rb es m = run_levels rb (List.filter is_tx_event es) m).
Proof.
  intros H. split.
  - apply run_split. exact H.
  - intros Hrun. destruct (run rb es m) as [m'|] eqn:E; [|contradiction].
    exact (run_levels_split rb es H m m' E).
Qed.

(** The transmit ticks of a frame as a run of interrupts. *)
Lemma run_tx_ticks (rb : option Z) (k : nat) :
  forall m,
    (forall j, (j < k)%nat -> tx_tick_enabled (snd (tx_ticks j m)) = true) ->
    run rb (repeat Irq_COMPA k) m = Some (snd (tx_ticks k m)) /\
    run_levels rb (repeat Irq_COMPA k) m = fst (tx_ticks k m).
Proof.
  induction k as [|k IH]; intros m H; [split; reflexivity|].
  cbn [repeat run run_levels step is_tx_event].
  pose proof (H 0%nat ltac:(lia)) as H0. cbn [tx_ticks snd] in H0. rewrite H0.
  destruct (tx_ticks_S k m) as [F S]. rewrite F, S.
  destruct (IH (ISR_TIMER1_COMPA m)) as [R L].
  { intros j Hj. rewrite <- (proj2 (tx_ticks_S j m)). apply H. lia. }
  rewrite R, L. split; reflexivity.
Qed.

Lemma run_rx_keeps_tx (rb : option Z) (es : list event) :
  Forall (fun e => is_rx_event e = true) es ->
  forall m m', run rb es m = Some m' ->
    tx_tick_enabled m' = tx_tick_enabled m /\ tx_line m' = tx_line m /\
    send_ready (fd_uart1 m') = send_ready (fd_uart1 m) /\
    tx_state (fd_uart1 m') = tx_state (fd_uart1 m).
Proof.
  induction 1 as [|e es He _ IH]; intros m m' Hrun; cbn [run] in Hrun.
  - inversion Hrun. repeat split; reflexivity.
  - destruct (step rb e m) as [m1|] eqn:Es; [|discriminate].
    destruct (rx_event_keeps_tx rb e m m1 He Es) as (<- & <- & <- & <-).
    exact (IH _ _ Hrun).
Qed.

(** The transmit direction leaves alone what the receive direction owns. *)
Lemma compa_keeps_rx_view (m : mcu) : rx_view (ISR_TIMER1_COMPA m) = rx_view m.
Proof.
  unfold rx_view.
  destruct (compa_keeps_rx m) as (-> & -> & _ & ->).
  destruct (compa_keeps_rx_io m) as (_ & _ & -> & -> & ->).
  reflexivity.
Qed.

Lemma tx_ticks_keep_rx_view (k : nat) :
  forall m, rx_view (snd (tx_ticks k m)) = rx_view m.
Proof.
  induction k as [|k IH]; intros m; [reflexivity|].
  rewrite (proj2 (tx_ticks_S k m)), IH. apply compa_keeps_rx_view.
Qed.

Lemma send_keeps_rx_view (b : Z) (m m' : mcu) :
  fdserial_send b m = Some m' -> rx_view m' = rx_view m.
Proof.
  unfold fdserial_send. destruct (send_ready (fd_uart1 m) =? 0); [discriminate|].
  intros H. inversion H. reflexivity.
Qed.

Lemma rx_view_idle (rb : option Z) (m m' : mcu) :
  rx_view m' = rx_view m ->
  rx_idle rb m ->
  rx_idle rb m' /\ edge_enabled m' = edge_enabled m /\
  forall n, unread n m' = unread n m.
Proof.
  unfold rx_view. intros E. inversion E as [[E1 E2 E3 E4 E5 E6]].
  intros H. split; [|split].
  - unfold rx_idle, indices_in_range in *. rewrite E1, E2, E3, E4, E5. exact H.
  - reflexivity.
  - intros n. apply drain_ring_fields; assumption.
Qed.

(** While bits are left, the DataBit state leaves the interrupt masks
    alone. *)
Lemma rx_data_prefix (rb : option Z) (pins : list Z) :
  forall (n : nat) (m : mcu),
    rx_state (fd_uart1 m) = 2 ->
    recv_bits (fd_uart1 m) = Z.of_nat (length pins + S n) ->
    (length pins + S n < 256)%nat ->
    rx_state (fd_uart1 (rx_ticks rb pins m)) = 2 /\
    recv_bits (fd_uart1 (rx_ticks rb pins m)) = Z.of_nat (S n) /\
    TIMSK (io (rx_ticks rb pins m)) = TIMSK (io m) /\
    GIMSK (io (rx_ticks rb pins m)) = GIMSK (io m).
Proof.
  induction pins as [|p ps IH]; intros n m Hs Hb Hlt.
  - cbn [rx_ticks]. repeat split; try reflexivity; assumption.
  - cbn [rx_ticks]. cbn [length Nat.add] in Hb, Hlt.
    assert (Hz : u8 (recv_bits (fd_uart1 m) - 1) = Z.of_nat (length ps + S n)).
    { rewrite Hb. unfold u8. rewrite Z.mod_small; lia. }
    assert (Hnz : (u8 (recv_bits (fd_uart1 m) - 1) =? 0) = false).
    { rewrite Hz. apply Z.eqb_neq. lia. }
    rewrite (compb_eq_data rb p m Hs). cbv zeta. rewrite Hnz.
    match goal with
    | |- context [rx_ticks rb ps ?x] =>
        destruct (IH n x) as (R1 & R2 & R3 & R4);
          [exact Hs | exact Hz | lia | ]
    end.
    rewrite R1, R2, R3, R4. repeat split; reflexivity.
Qed.

Lemma with_TCNT1_twice (t t' : Z) (m : mcu) :
  with_TCNT1 t (with_TCNT1 t' m) = with_TCNT1 t m.
Proof. reflexivity. Qed.

(** The samples of a frame as a run of interrupts: each B-compare tick
    takes place as long as the tick before it has left the interrupt
    enabled. *)
Lemma run_samples (rb : option Z) (t : Z) (pins : list Z) :
  is_byte t = true ->
  Forall (fun p => is_byte p = true) pins ->
  forall m,
    (forall j, (j < length pins)%nat ->
       rx_tick_enabled (rx_ticks rb (take j pins) m) = true) ->
    run rb (sample_events t pins) (with_TCNT1 t m) =
      Some (with_TCNT1 t (rx_ticks rb pins m)).
Proof.
  intros Ht Hp. induction Hp as [|p ps Hb _ IH]; intros m G; [reflexivity|].
  unfold sample_events. cbn [flat_map app run step]. fold (sample_events t ps).
  rewrite Ht, Hb. cbn [andb].
  pose proof (G 0%nat ltac:(cbn [length]; lia)) as G0. cbn [take rx_ticks] in G0.
  change (rx_tick_enabled (with_PINB p (with_TCNT1 t (with_TCNT1 t m))))
    with (rx_tick_enabled m).
  rewrite G0, with_TCNT1_twice, compb_counter_commute.
  cbn [rx_ticks]. apply IH.
  intros j Hj. apply (G (S j)). cbn [length]. lia.
Qed.

Lemma run_samples_from (rb : option Z) (t p : Z) (ps : list Z) (m : mcu) :
  is_byte t = true ->
  Forall (fun q => is_byte q = true) (p :: ps) ->
  (forall j, (j < length (p :: ps))%nat ->
     rx_tick_enabled (rx_ticks rb (take j (p :: ps)) m) = true) ->
  run rb (sample_events t (p :: ps)) m =
    Some (with_TCNT1 t (rx_ticks rb (p :: ps) m)).
Proof.
  intros Ht Hp G. inversion Hp as [|? ? Hb Hps]; subst.
  unfold sample_events. cbn [flat_map app run step]. fold (sample_events t ps).
  rewrite Ht, Hb. cbn [andb].
  pose proof (G 0%nat ltac:(cbn [length]; lia)) as G0. cbn [take rx_ticks] in G0.
  change (rx_tick_enabled (with_PINB p (with_TCNT1 t m)))
    with (rx_tick_enabled m).
  rewrite G0, compb_counter_commute.
  cbn [rx_ticks]. apply (run_samples rb t ps Ht Hps).
  intros j Hj. apply (G (S j)). cbn [length]. lia.
Qed.

(** A whole frame under the interrupt enables: the edge handler masks the
    edge detector and enables the B-compare tick, which stays enabled for
    the start bit, the eight data bits and the stop bit, and is masked
    again by the tick that publishes the byte. *)
Lemma run_frame_events
  (rb : option Z) (tcnt t p0 ph : Z) (data : list Z) (m : mcu) :
  is_byte tcnt = true ->
  is_byte t = true ->
  Forall (fun q => is_byte q = true) (p0 :: data ++ [ph]) ->
  rx_state (fd_uart1 m) = 0 ->
  0 <= recv_shift (fd_uart1 m) < 256 ->
  edge_enabled m = true ->
  length data = 8%nat ->
  rx_line ph = true ->
  exists m',
    run rb (frame_events tcnt t (p0 :: data ++ [ph])) m = Some m' /\
    fd_uart1 m' = published rb (byte_of_samples (map rx_line data)) (fd_uart1 m) /\
    edge_enabled m' = true /\
    rx_tick_enabled m' = false.
Proof.
  intros Hc Ht Hp Hs Hr He Hl Hh.
  set (mI := ISR_INT0 (with_PINB (pin_level false) (with_TCNT1 tcnt m))).
  assert (Hu : fd_uart1 mI = fd_uart1 m) by reflexivity.
  assert (Hen : rx_tick_enabled mI = true).
  { subst mI. exact (proj1 (proj2 (proj2 (int0_spec _)))). }
  assert (Hs' : rx_state (fd_uart1 mI) = 0 \/ rx_state (fd_uart1 mI) = 1).
  { left. rewrite Hu. exact Hs. }
  assert (Hr' : 0 <= recv_shift (fd_uart1 mI) < 256) by (rewrite Hu; exact Hr).
  destruct (receive_any_frame rb p0 ph data [] mI Hs' Hr' Hl (List.Forall_nil _) Hh)
    as (W1 & W2 & _ & D1 & D2 & D3).
  cbn [app] in D1, D2, D3. rewrite app_nil_r in W1, W2.
  exists (with_TCNT1 t (rx_ticks rb (p0 :: data ++ [ph]) mI)).
  split; [|split; [|split]].
  - unfold frame_events. cbn [run step]. rewrite Hc.
    change (is_byte (pin_level false)) with true. cbn [andb].
    change (edge_enabled (with_PINB (pin_level false) (with_TCNT1 tcnt m)))
      with (edge_enabled m).
    rewrite He. fold mI.
    apply run_samples_from; [exact Ht | exact Hp |].
    intros j Hj. destruct j as [|j]; [exact Hen|].
    cbn [take]. rewrite length_cons, length_app, Hl in Hj. cbn [length] in Hj.
    rewrite take_app_le by lia.
    destruct (Nat.eq_dec j 8%nat) as [->|Hne].
    + rewrite <- Hl, firstn_all.
      unfold rx_tick_enabled. rewrite W2. exact Hen.
    + cbn [rx_ticks]. rewrite compb_start by exact Hs'.
      destruct (rx_data_prefix rb (take j data) (7 - j)%nat
                  (Mcu (set_recv_bits 8 (set_rx_state 2 (fd_uart1 mI)))
                       (set_PINB p0 (io mI))))
        as (_ & _ & T & _).
      * reflexivity.
      * rewrite length_take, Hl.
        cbn [fd_uart1 recv_bits set_recv_bits]. lia.
      * rewrite length_take, Hl. lia.
      * unfold rx_tick_enabled. rewrite T. exact Hen.
  - cbn [with_TCNT1 fd_uart1]. rewrite D1, Hu. reflexivity.
  - exact D2.
  - exact D3.
Qed.

Lemma pin_level_byte (l : bool) : is_byte (pin_level l) = true.
Proof. destruct l; reflexivity. Qed.

Lemma frame_of_samples_bytes (smp : list bool) :
  Forall (fun q => is_byte q = true) (frame_of_samples smp).
Proof.
  unfold frame_of_samples. apply List.Forall_cons; [apply pin_level_byte|].
  apply List.Forall_app. split.
  - apply List.Forall_map, List.Forall_forall. intros x _. apply pin_level_byte.
  - apply List.Forall_cons; [apply pin_level_byte | apply List.Forall_nil].
Qed.

Lemma frame_events_rx (tcnt t : Z) (pins : list Z) :
  Forall (fun e => is_rx_event e = true) (frame_events tcnt t pins).
Proof.
  unfold frame_events. do 2 (apply List.Forall_cons; [reflexivity|]).
  induction pins as [|p ps IH]; [apply List.Forall_nil|].
  unfold sample_events. cbn [flat_map app].
  do 2 (apply List.Forall_cons; [reflexivity|]). exact IH.
Qed.

(** X11: A byte is sent while another arrives.  Whatever the order in
    which the eleven transmit ticks and the events of the incoming frame
    (edge, ten samples) take place, every one of them finds its interrupt
    enabled, the TX line carries the frame of [b], the transmitter ends
    ready with its tick masked, and [c] is delivered to the foreground with
    the edge detector armed for the next frame. *)
Theorem send_while_receiving
  (rb : option Z) (b c tcnt t : Z) (es : list event) (m : mcu) :
  0 <= b < 256 ->
  0 <= c < 256 ->
  is_byte tcnt = true ->
  is_byte t = true ->
  send_ready (fd_uart1 m) <> 0 ->
  rx_idle rb m ->
  edge_enabled m = true ->
  Forall (fun e => is_interrupt e = true) es ->
  List.filter is_tx_event es = repeat Irq_COMPA 11 ->
  List.filter is_rx_event es = frame_events tcnt t (frame_pins c) ->
  exists m1 m',
    fdserial_send b m = Some m1 /\
    run rb es m1 = Some m' /\
    run_levels rb es m1 = frame_levels b ++ [true] /\
    fdserial_sendok m' = 1 /\
    tx_tick_enabled m' = false /\
    delivered rb m m' c /\
    rx_idle rb m' /\
    edge_enabled m' = true /\
    rx_tick_enabled m' = false.
Proof.
  intros Hb Hc Htc Ht Hrdy Hidle He Hes Ftx Frx.
  destruct (send_trajectory b m Hb Hrdy)
    as (m1 & Hsend & _ & L11 & Busy & R1 & _ & T1).
  pose proof (send_keeps_rx_view b m m1 Hsend) as V1.
  pose proof (tx_ticks_keep_rx_view 11 m1) as V2.
  destruct (run_tx_ticks rb 11 m1) as [RT LT].
  { intros j Hj. apply Busy. lia. }
  set (m2 := snd (tx_ticks 11 m1)) in *.
  assert (V : rx_view m2 = rx_view m) by (rewrite V2; exact V1).
  destruct (rx_view_idle rb m m2 V Hidle) as (Hidle2 & He2 & Hun).
  pose proof Hidle2 as (Hs2 & Hr2 & _).
  destruct (run_frame_events rb tcnt t (pin_level false) (pin_level true)
              (map pin_level (lsb_first c)) m2 Htc Ht)
    as (m' & Hrun & Hu & Ee & Er).
  { apply (frame_of_samples_bytes (lsb_first c)). }
  { exact Hs2. }
  { exact Hr2. }
  { rewrite He2. exact He. }
  { rewrite length_map. reflexivity. }
  { apply rx_line_pin_level. }
  rewrite samples_of_pins, byte_of_lsb_first in Hu by exact Hc.
  fold (frame_of_samples (lsb_first c)) in Hrun. fold (frame_pins c) in Hrun.
  assert (Hall : run rb es m1 = Some m').
  { rewrite (run_split rb es Hes), Ftx, RT, Frx. exact Hrun. }
  destruct (run_rx_keeps_tx rb _ (frame_events_rx tcnt t (frame_pins c)) m2 m' Hrun)
    as (E1 & _ & E3 & _).
  destruct (published_delivers rb c m2 m' Hc Hidle2 Hu) as (D & Hidle').
  exists m1, m'.
  split; [exact Hsend|]. split; [exact Hall|].
  split; [rewrite (run_levels_split rb es Hes m1 m' Hall), Ftx, LT; exact L11|].
  split; [unfold fdserial_sendok; rewrite E3; exact R1|].
  split; [rewrite E1; exact T1|].
  split; [|split; [exact Hidle'|split; [exact Ee|exact Er]]].
  unfold delivered in *. destruct rb as [n|]; [|exact D].
  rewrite <- (Hun n). exact D.
Qed.

Lemma send_while_receiving_witness :
  let m := fdserial_init None (reset_state 0) in
  let es := Irq_COMPA :: Hardware 50 0 :: Irq_INT0 ::
            flat_map (fun p => [Irq_COMPA; Hardware 154 p; Irq_COMPB])
              (frame_pins 165) in
  0 <= 85 < 256 /\ 0 <= 165 < 256 /\
  is_byte 50 = true /\ is_byte 154 = true /\
  send_ready (fd_uart1 m) <> 0 /\
  rx_idle None m /\
  edge_enabled m = true /\
  Forall (fun e => is_interrupt e = true) es /\
  List.filter is_tx_event es = repeat Irq_COMPA 11 /\
  List.filter is_rx_event es = frame_events 50 154 (frame_pins 165) /\
  exists m1 m',
    fdserial_send 85 m = Some m1 /\
    run None es m1 = Some m' /\
    run_levels None es m1 = frame_levels 85 ++ [true] /\
    fdserial_sendok m' = 1 /\
    tx_tick_enabled m' = false /\
    delivered None m m' 165 /\
    rx_idle None m' /\
    edge_enabled m' = true /\
    rx_tick_enabled m' = false.
Proof.
  intros m es.
  assert (H1 : 0 <= 85 < 256) by lia.
  assert (H2 : 0 <= 165 < 256) by lia.
  assert (H3 : is_byte 50 = true) by reflexivity.
  assert (H4 : is_byte 154 = true) by reflexivity.
  assert (H5 : send_ready (fd_uart1 m) <> 0) by (vm_compute; discriminate).
  assert (H6 : rx_idle None m) by (vm_compute; repeat split; discriminate).
  assert (H7 : edge_enabled m = true) by reflexivity.
  assert (H8 : Forall (fun e => is_interrupt e = true) es)
    by (vm_compute; repeat constructor).
  assert (H9 : List.filter is_tx_event es = repeat Irq_COMPA 11) by reflexivity.
  assert (H10 : List.filter is_rx_event es = frame_events 50 154 (frame_pins 165))
    by reflexivity.
  repeat (split; [assumption|]).
  exact (send_while_receiving None 85 165 50 154 es m H1 H2 H3 H4 H5 H6 H7 H8 H9 H10).
Defined.

Lemma interrupts_split_by_direction_witness :
  let es := [Irq_COMPA; Hardware 50 0; Irq_INT0; Irq_COMPA; Hardware 154 0;
             Irq_COMPB; Irq_COMPA; Hardware 154 4; Irq_COMPB; Irq_COMPA] in
  Forall (fun e => is_interrupt e = true) es /\
  match fdserial_send 85 (fdserial_init None (reset_state 0)) with
  | Some m =>
      run None es m <> None /\
      run None es m =
        match run None (List.filter is_tx_event es) m with
        | Some m1 => run None (List.filter is_rx_event es) m1
        | None => None
        end /\
      run_levels None es m = run_levels None (List.filter is_tx_event es) m /\
      run_levels None es m = [false; true; false; true]
  | None => False
  end.
Proof.
  intros es.
  assert (H : Forall (fun e => is_interrupt e = true) es) by repeat constructor.
  split; [exact H|].
  destruct (fdserial_send 85 (fdserial_init None (reset_state 0))) as [m|] eqn:E;
    [|vm_compute in E; discriminate].
  vm_compute in E. injection E as <-.
  match goal with
  | |- run None es ?m <> None /\ _ =>
      destruct (interrupts_split_by_direction None es m H) as [S L];
      assert (R : run None es m <> None) by (vm_compute; discriminate);
      split; [exact R|]; split; [exact S|]; split; [exact (L R)|]
  end.
  vm_compute. reflexivity.
Defined.

End Independence.

(** ** From one device to another *)

Section RoundTrip.

(** X12: Two devices that run this code agree on the frame: the ten line
    levels that the transmit ticks of [fdserial_send b] leave, sampled one
    per bit by the receive engine after the falling edge, deliver [b]. *)
Theorem send_recv_round_trip
  (rb : option Z) (b tcnt : Z) (sender receiver : mcu) :
  0 <= b < 256 ->
  send_ready (fd_uart1 sender) <> 0 ->
  rx_idle rb receiver ->
  exists s1,
    fdserial_send b sender = Some s1 /\
    let line := fst (tx_ticks 10 s1) in
    let r' := receive_frame rb tcnt (map pin_level line) receiver in
    delivered rb receiver r' b /\ rx_idle rb r'.
Proof.
  intros Hb Hrdy Hidle.
  destruct (send_trajectory b sender Hb Hrdy) as (s1 & Hsend & L10 & _).
  exists s1. split; [exact Hsend|]. cbv zeta. rewrite L10.
  pose proof Hidle as (Hs & Hr & _).
  destruct (receive_frame_byte rb tcnt b receiver Hb Hs Hr) as (Hu & _).
  cbv zeta in Hu.
  replace (map pin_level (frame_levels b)) with (frame_pins b).
  - exact (published_delivers rb b receiver _ Hb Hidle Hu).
  - unfold frame_pins, frame_of_samples, frame_levels.
    cbn [map]. rewrite map_app. reflexivity.
Qed.

Lemma send_recv_round_trip_witness :
  let sender := fdserial_init None (reset_state 0) in
  let receiver := fdserial_init (Some 4) (reset_state 4) in
  0 <= 165 < 256 /\
  send_ready (fd_uart1 sender) <> 0 /\
  rx_idle (Some 4) receiver /\
  exists s1,
    fdserial_send 165 sender = Some s1 /\
    let line := fst (tx_ticks 10 s1) in
    let r' := receive_frame (Some 4) 50 (map pin_level line) receiver in
    delivered (Some 4) receiver r' 165 /\ rx_idle (Some 4) r'.
Proof.
  intros sender receiver.
  assert (H1 : 0 <= 165 < 256) by lia.
  assert (H2 : send_ready (fd_uart1 sender) <> 0) by (vm_compute; discriminate).
  assert (H3 : rx_idle (Some 4) receiver).
  { unfold rx_idle, indices_in_range. vm_compute. repeat split; congruence. }
  repeat (split; [assumption|]).
  exact (send_recv_round_trip (Some 4) 165 50 sender receiver H1 H2 H3).
Defined.

End RoundTrip.

(** ** Invariants of the two engines *)

Section Invariants.

Ltac split_eqb :=
  cbv zeta;
  repeat match goal with
         | |- context [if ?a =? ?b then _ else _] => destruct (Z.eqb_spec a b)
         end.

Ltac uart_fields :=
  cbn [fd_uart1 io tx_state rx_state send_ready send_byte send_bits delay
       available recv_shift recv_bits recv_byte rx_head rx_tail rx_buf
       set_tx_state set_send_bits set_send_byte set_send_ready set_delay
       set_rx_state set_recv_bits set_recv_shift set_recv_byte set_available
       set_rx_head set_rx_tail set_rx_buf].

(** The receive handler leaves the transmit fields alone, and the
    transmit handler the receive fields. *)
Lemma compb_keeps_tx_fields (rb : option Z) (m : mcu) :
  tx_state (fd_uart1 (ISR_TIMER1_COMPB rb m)) = tx_state (fd_uart1 m) /\
  send_ready (fd_uart1 (ISR_TIMER1_COMPB rb m)) = send_ready (fd_uart1 m) /\
  send_bits (fd_uart1 (ISR_TIMER1_COMPB rb m)) = send_bits (fd_uart1 m).
Proof.
  unfold ISR_TIMER1_COMPB, rx_publish.
  destruct rb as [k|]; split_ifs; repeat split; reflexivity.
Qed.

Lemma compa_keeps_rx_fields (m : mcu) :
  rx_state (fd_uart1 (ISR_TIMER1_COMPA m)) = rx_state (fd_uart1 m) /\
  recv_bits (fd_uart1 (ISR_TIMER1_COMPA m)) = recv_bits (fd_uart1 m).
Proof.
  unfold ISR_TIMER1_COMPA. split_ifs; split; reflexivity.
Qed.

Lemma compa_tx_consistent (m : mcu) :
  tx_consistent (fd_uart1 m) -> tx_consistent (fd_uart1 (ISR_TIMER1_COMPA m)).
Proof.
  unfold tx_consistent. intros [H1 H2].
  pose proof (u8_small (send_bits (fd_uart1 m) - 1)) as U.
  destruct (tx_state_cases (tx_state (fd_uart1 m)))
    as [Ht|[Ht|[Ht|[Ht|[Ht|[Ht|Ht]]]]]];
  first [ rewrite (compa_eq_idle m) by exact Ht
        | rewrite (compa_eq_start m) by exact Ht
        | rewrite (compa_eq_data m) by exact Ht
        | rewrite (compa_eq_stop m) by exact Ht
        | rewrite (compa_eq_return m) by exact Ht
        | rewrite (compa_delay_tick m) by exact Ht
        | rewrite (compa_eq_other m) by exact Ht ];
  split_eqb; uart_fields; lia.
Qed.

Lemma compb_rx_consistent (rb : option Z) (m : mcu) :
  rx_consistent (fd_uart1 m) -> rx_consistent (fd_uart1 (ISR_TIMER1_COMPB rb m)).
Proof.
  unfold rx_consistent. intros [H1 H2].
  pose proof (u8_small (recv_bits (fd_uart1 m) - 1)) as U.
  assert (E : ISR_TIMER1_COMPB rb m =
              ISR_TIMER1_COMPB rb (with_PINB (PINB (io m)) m))
    by (rewrite with_PINB_same; reflexivity).
  rewrite E. clear E.
  destruct (rx_state_cases (rx_state (fd_uart1 m))) as [Hr|[Hr|[Hr|[Hr|Hr]]]];
  first [ rewrite (compb_start rb _ m) by ((left; exact Hr) || (right; exact Hr))
        | rewrite (compb_eq_data rb _ m) by exact Hr
        | rewrite (compb_await_high rb _ m) by exact Hr
        | rewrite (compb_eq_other rb _ m) by exact Hr ];
  try destruct (rx_line (PINB (io m)));
  unfold with_PINB; split_eqb; uart_fields; lia.
Qed.

(** One step of the program keeps both engines consistent. *)
Lemma step_consistent (rb : option Z) (e : event) (m m' : mcu) :
  step rb e m = Some m' ->
  tx_consistent (fd_uart1 m) /\ rx_consistent (fd_uart1 m) ->
  tx_consistent (fd_uart1 m') /\ rx_consistent (fd_uart1 m').
Proof.
  intros Hstep [Ht Hr]. destruct e; cbn [step] in Hstep.
  - destruct (is_byte tcnt && is_byte pinb); inversion Hstep; subst m'.
    split; assumption.
  - inversion Hstep; subst m'.
    destruct (init_fields rb m) as (I1 & I2 & I3 & _). cbv zeta in I1, I2, I3.
    unfold tx_consistent, rx_consistent. rewrite I1, I2, I3. lia.
  - unfold fdserial_send in Hstep.
    destruct (send_ready (fd_uart1 m) =? 0); inversion Hstep; subst m'.
    split; [|exact Hr]. unfold tx_consistent. uart_fields. lia.
  - unfold fdserial_recv in Hstep.
    destruct rb as [k|];
      [ destruct (rx_head (fd_uart1 m) =? rx_tail (fd_uart1 m))
      | destruct (available (fd_uart1 m) =? 0) ];
      inversion Hstep; subst m'; split; assumption.
  - unfold fdserial_alarm in Hstep.
    destruct (send_ready (fd_uart1 m) =? 0); inversion Hstep; subst m'.
    split; [|exact Hr]. unfold tx_consistent. uart_fields. lia.
  - destruct (tx_tick_enabled m); inversion Hstep; subst m'.
    split; [apply compa_tx_consistent; exact Ht|].
    unfold rx_consistent.
    destruct (compa_keeps_rx_fields m) as (-> & ->). exact Hr.
  - destruct (rx_tick_enabled m); inversion Hstep; subst m'.
    split; [|apply compb_rx_consistent; exact Hr].
    unfold tx_consistent.
    destruct (compb_keeps_tx_fields rb m) as (-> & -> & ->). exact Ht.
  - destruct (edge_enabled m); inversion Hstep; subst m'.
    destruct (int0_spec m) as (_ & _ & _ & _ & Hu). cbv zeta in Hu.
    rewrite Hu. split; assumption.
Qed.

Lemma reachable_consistent (rb : option Z) (m : mcu) :
  reachable rb m ->
  tx_consistent (fd_uart1 m) /\ rx_consistent (fd_uart1 m).
Proof.
  induction 1 as [m0|e m m' _ IH Hstep].
  - destruct (init_fields rb m0) as (I1 & I2 & I3 & _). cbv zeta in I1, I2, I3.
    unfold tx_consistent, rx_consistent. rewrite I1, I2, I3. lia.
  - exact (step_consistent rb e m m' Hstep IH).
Qed.






(** X13: In every state that the program reaches, [fdserial_sendok]
    mirrors the transmit engine: the flag is 1 in the Idle state and 0 in
    the states 1 to 5, there is no other state, [fdserial_send] waits
    exactly when the engine is not Idle, and the DataBit state has one to
    eight bits left. *)
Theorem sendok_mirrors_idle (rb : option Z) (c : Z) (m : mcu) :
  reachable rb m ->
  (fdserial_sendok m = 1 /\ tx_state (fd_uart1 m) = 0 \/
   fdserial_sendok m = 0 /\ 1 <= tx_state (fd_uart1 m) <= 5) /\
  (fdserial_send c m = None <-> tx_state (fd_uart1 m) <> 0) /\
  (tx_state (fd_uart1 m) = 2 -> 1 <= send_bits (fd_uart1 m) <= 8).
Proof.
  intros R. destruct (reachable_consistent rb m R) as [[T1 T2] _].
  unfold fdserial_sendok. split; [exact T1 | split; [|exact T2]].
  unfold fdserial_send.
  destruct (Z.eqb_spec (send_ready (fd_uart1 m)) 0) as [E|E].
  - split; [lia | reflexivity].
  - split; [discriminate | lia].
Qed.

Lemma sendok_mirrors_idle_witness :
  match fdserial_send 85 (fdserial_init None (reset_state 0)) with
  | Some m =>
      reachable None m /\
      (fdserial_sendok m = 1 /\ tx_state (fd_uart1 m) = 0 \/
       fdserial_sendok m = 0 /\ 1 <= tx_state (fd_uart1 m) <= 5) /\
      (fdserial_send 66 m = None <-> tx_state (fd_uart1 m) <> 0) /\
      (tx_state (fd_uart1 m) = 2 -> 1 <= send_bits (fd_uart1 m) <= 8)
  | None => False
  end.
Proof.
  destruct (fdserial_send 85 (fdserial_init None (reset_state 0))) as [m|] eqn:E;
    [|vm_compute in E; discriminate].
  assert (R : reachable None m).
  { apply (reach_step None (Call_send 85) (fdserial_init None (reset_state 0)));
      [apply reach_init | exact E]. }
  split; [exact R | exact (sendok_mirrors_idle None 66 m R)].
Defined.

(** X14: In every state that the program reaches the receive engine is in
    state 0, 2 or 3: state 1, for which the B-compare handler has a case,
    is never entered; and the DataBit state has one to eight bits left. *)
Theorem rx_state_one_is_never_entered (rb : option Z) (m : mcu) :
  reachable rb m ->
  (rx_state (fd_uart1 m) = 0 \/ rx_state (fd_uart1 m) = 2 \/
   rx_state (fd_uart1 m) = 3) /\
  rx_state (fd_uart1 m) <> 1 /\
  (rx_state (fd_uart1 m) = 2 -> 1 <= recv_bits (fd_uart1 m) <= 8).
Proof.
  intros R. destruct (reachable_consistent rb m R) as [_ [C1 C2]].
  split; [exact C1 | split; [lia | exact C2]].
Qed.

Lemma rx_state_one_is_never_entered_witness :
  match run (Some 4) [Hardware 50 0; Irq_INT0; Hardware 154 0; Irq_COMPB;
                      Hardware 154 4; Irq_COMPB]
          (fdserial_init (Some 4) (reset_state 4)) with
  | Some m =>
      reachable (Some 4) m /\
      (rx_state (fd_uart1 m) = 0 \/ rx_state (fd_uart1 m) = 2 \/
       rx_state (fd_uart1 m) = 3) /\
      rx_state (fd_uart1 m) <> 1 /\
      (rx_state (fd_uart1 m) = 2 -> 1 <= recv_bits (fd_uart1 m) <= 8)
  | None => False
  end.
Proof.
  destruct (run (Some 4) _ (fdserial_init (Some 4) (reset_state 4)))
    as [m|] eqn:E; [|vm_compute in E; discriminate].
  assert (R : reachable (Some 4) m).
  { exact (run_reachable (Some 4) _ _ m (reach_init (Some 4) (reset_state 4)) E). }
  split; [exact R | exact (rx_state_one_is_never_entered (Some 4) m R)].
Defined.

End Invariants.

(** ** Interrupt flag registers *)

Section FlagRegisters.

Lemma flag_write_all (x k : Z) : flag_write x (Z.lor x k) = 0.
Proof.
  unfold flag_write, u8.
  replace (Z.land x (Z.lnot (Z.lor x k))) with 0; [reflexivity|].
  symmetry. apply Z.bits_inj'. intros n Hn.
  rewrite Z.land_spec, Z.lnot_spec, Z.lor_spec, Z.bits_0 by lia.
  destruct (Z.testbit x n), (Z.testbit k n); reflexivity.
Qed.

(** X16: [TIFR |= 1<<OCF1B] and [GIFR |= 1<<INTF0] read the flag register
    and write the value back with one more bit: on registers whose flags
    are cleared by writing a one, that clears every flag that was set, not
    only the one named.  So the edge handler leaves no pending timer flag
    at all (a pending A-compare of the transmitter goes with the rest), and
    [fdserial_init] and the publishing tick leave no pending external
    interrupt flag. *)
Theorem flag_writes_clear_every_flag (rb : option Z) (r : avr_io) (m : mcu) :
  TIFR (_start_rx r) = 0 /\
  GIFR (_enable_int0 r) = 0 /\
  TIFR (io (ISR_INT0 m)) = 0 /\
  GIFR (io (fdserial_init rb m)) = 0.
Proof.
  split; [|split; [|split]].
  - unfold _start_rx. cbn [TIFR set_TIMSK set_TIFR]. apply flag_write_all.
  - unfold _enable_int0. cbn [GIFR set_GIMSK set_GIFR]. apply flag_write_all.
  - unfold ISR_INT0, _start_rx, _disable_int0.
    destruct (TCNT1 (io m) >=? SERIAL_HALFBIT);
      cbn [io TIFR set_TIMSK set_TIFR set_GIMSK set_OCR1B]; apply flag_write_all.
  - unfold fdserial_init, _enable_int0, _starttimer, _stoptimer.
    cbn [io GIFR set_GIMSK set_GIFR set_TCCR1 set_PORTB set_DDRB
         set_OCR1C set_OCR1B set_OCR1A set_TCNT1 set_MCUCR].
    apply flag_write_all.
Qed.

End FlagRegisters.

(** ** The pre-emptible foreground *)

Ltac fields :=
  cbn [fd_uart1 io tx_state rx_state send_ready send_byte send_bits delay
       available recv_shift recv_bits recv_byte rx_head rx_tail rx_buf
       TCCR1 GIFR GIMSK TIMSK TIFR MCUCR TCNT1 OCR1A OCR1B OCR1C DDRB PORTB PINB
       set_tx_state set_send_bits set_send_byte set_send_ready set_delay
       set_rx_state set_recv_bits set_recv_shift set_recv_byte set_available
       set_rx_head set_rx_tail set_rx_buf
       set_TCCR1 set_GIFR set_GIMSK set_TIMSK set_TIFR set_MCUCR set_TCNT1
       set_OCR1A set_OCR1B set_OCR1C set_DDRB set_PORTB set_PINB].

Section Uninterrupted.

Lemma fg_run_idle (rb : option Z) (fuel : nat) (r : option Z) (m : mcu) :
  fg_run rb fuel (Idle r) m = (Idle r, m).
Proof. destruct fuel; reflexivity. Qed.

Lemma fg_run_more (rb : option Z) (j : nat) :
  forall (fuel : nat) (p : fg) (m : mcu) (r : option Z) (m' : mcu),
    fg_run rb fuel p m = (Idle r, m') ->
    fg_run rb (fuel + j) p m = (Idle r, m').
Proof.
  induction fuel as [|fuel IH]; intros p m r m' H.
  - destruct p; try discriminate H. injection H as -> ->. apply fg_run_idle.
  - destruct p; try (rewrite fg_run_idle in H |- *; exact H);
      cbn [Nat.add fg_run] in H |- *;
      match goal with
      | |- context [fg_step rb ?p m] =>
          destruct (fg_step rb p m) as [p1 m1]; apply IH; exact H
      end.
Qed.

Lemma fg_run_step (rb : option Z) (k : nat) (p : fg) (m : mcu) :
  match p with Idle _ => False | _ => True end ->
  fg_run rb (S k) p m = fg_run rb k (fst (fg_step rb p m)) (snd (fg_step rb p m)).
Proof.
  destruct p; intros H; try contradiction; cbn [fg_run];
    match goal with
    | |- context [fg_step rb ?p m] => destruct (fg_step rb p m); reflexivity
    end.
Qed.

Ltac first_step E :=
  rewrite fg_run_step by exact I;
  unfold fg_step at 1 2; rewrite E; cbn [fst snd].

Ltac run_accesses :=
  cbv beta iota zeta delta
    [fg_run fg_step fdserial_init fdserial_send fdserial_recv fdserial_alarm
     _enable_int0 _starttimer _stoptimer _start_tx fd_uart1 io
     send_ready tx_state send_byte send_bits delay available rx_state
     recv_shift recv_bits recv_byte rx_head rx_tail rx_buf
     TCCR1 GIFR GIMSK TIMSK TIFR MCUCR TCNT1 OCR1A OCR1B OCR1C DDRB PORTB PINB
     set_send_ready set_tx_state set_send_byte set_send_bits set_delay
     set_available set_rx_state set_recv_shift set_recv_bits set_recv_byte
     set_rx_head set_rx_tail set_rx_buf
     set_TCCR1 set_GIFR set_GIMSK set_TIMSK set_TIFR set_MCUCR set_TCNT1
     set_OCR1A set_OCR1B set_OCR1C set_DDRB set_PORTB set_PINB].

Ltac open_state m :=
  let u := fresh "u" in let r := fresh "r" in
  destruct m as [u r]; destruct u, r.

Ltac by_fuel n fuel H :=
  let H' := fresh in
  assert (H' : (n <= fuel)%nat) by lia;
  destruct (Nat.le_exists_sub n fuel H') as (j & -> & _);
  rewrite (Nat.add_comm j n); apply fg_run_more.

Lemma init_uninterrupted (rb : option Z) (fuel : nat) (m : mcu) :
  (29 <= fuel)%nat ->
  fg_run rb fuel Init_L130 m = (Idle None, fdserial_init rb m).
Proof.
  intros H. by_fuel 29%nat fuel H. open_state m.
  destruct rb; run_accesses; reflexivity.
Qed.

Lemma send_uninterrupted (rb : option Z) (c : Z) (fuel : nat) (m : mcu) :
  (8 <= fuel)%nat ->
  match fdserial_send c m with
  | Some m' => fg_run rb fuel (Send_L197 c) m = (Idle None, m')
  | None => forall k, fg_run rb k (Send_L197 c) m = (Send_L197 c, m)
  end.
Proof.
  intros H. unfold fdserial_send.
  destruct (send_ready (fd_uart1 m) =? 0) eqn:E.
  - induction k as [|k IH]; [reflexivity|].
    cbn [fg_run fg_step]. rewrite E. exact IH.
  - by_fuel 8%nat fuel H. first_step E. open_state m. run_accesses. reflexivity.
Qed.

Lemma alarm_uninterrupted (rb : option Z) (d : Z) (fuel : nat) (m : mcu) :
  (6 <= fuel)%nat ->
  match fdserial_alarm d m with
  | Some m' =>
      fg_run rb fuel (Alarm_L258 false (alarm_cycles d) (alarm_remainder d)) m =
        (Idle None, m')
  | None =>
      forall k w,
        fg_run rb k (Alarm_L258 w (alarm_cycles d) (alarm_remainder d)) m =
          (Alarm_L258 w (alarm_cycles d) (alarm_remainder d), m)
  end.
Proof.
  intros H. unfold fdserial_alarm.
  destruct (send_ready (fd_uart1 m) =? 0) eqn:E.
  - induction k as [|k IH]; intros w; [reflexivity|].
    cbn [fg_run fg_step]. rewrite E. apply IH.
  - by_fuel 6%nat fuel H. first_step E. open_state m. run_accesses. reflexivity.
Qed.

Lemma delay_wait_uninterrupted (rb : option Z) (k : nat) (m : mcu) :
  send_ready (fd_uart1 m) = 0 ->
  fg_run rb k Delay_L280 m = (Delay_L280, m).
Proof.
  intros E. induction k as [|k IH]; [reflexivity|].
  cbn [fg_run fg_step]. rewrite E. exact IH.
Qed.

Lemma delay_uninterrupted (rb : option Z) (d : Z) (fuel : nat) (m : mcu) :
  forall r,
    fst (fg_run rb fuel (Alarm_L258 true (alarm_cycles d) (alarm_remainder d)) m)
      <> Idle r.
Proof.
  intros r. destruct (send_ready (fd_uart1 m) =? 0) eqn:E.
  - pose proof (alarm_uninterrupted rb d 6 m (Nat.le_refl _)) as A.
    unfold fdserial_alarm in A. rewrite E in A. rewrite A. discriminate.
  - destruct fuel as [|fuel]; [discriminate|]. first_step E.
    do 5 (destruct fuel as [|fuel]; [discriminate|];
          rewrite fg_run_step by exact I; unfold fg_step at 1 2; cbn [fst snd]).
    rewrite delay_wait_uninterrupted by reflexivity. discriminate.
Qed.

Lemma recv_uninterrupted (rb : option Z) (fuel : nat) (m : mcu) :
  (7 <= fuel)%nat ->
  match fdserial_recv rb m with
  | Some (c, m') => fg_run rb fuel (entry rb K_recv) m = (Idle (Some c), m')
  | None => forall k r, fst (fg_run rb k (entry rb K_recv) m) <> Idle r
  end.
Proof.
  intros H. unfold fdserial_recv, entry. destruct rb as [n|].
  - destruct (rx_head (fd_uart1 m) =? rx_tail (fd_uart1 m)) eqn:E.
    + assert (L : forall k r,
                 fst (fg_run (Some n) k Recv_L221_head m) <> Idle r /\
                 fst (fg_run (Some n) k (Recv_L221_tail (rx_head (fd_uart1 m))) m)
                   <> Idle r).
      { induction k as [|k IH]; intros r; [split; discriminate|].
        cbn [fg_run fg_step]. rewrite E. split; apply IH. }
      intros k r. apply L.
    + by_fuel 7%nat fuel H.
      rewrite fg_run_step by exact I. unfold fg_step at 1 2. cbn [fst snd].
      first_step E.
      do 2 (rewrite fg_run_step by exact I; unfold fg_step at 1 2; cbn [fst snd]).
      unfold ring_next.
      destruct (rx_tail (fd_uart1 m) =? n - 1) eqn:T;
        first_step T; open_state m; run_accesses; reflexivity.
  - destruct (available (fd_uart1 m) =? 0) eqn:E.
    + induction k as [|k IH]; intros r; [discriminate|].
      cbn [fg_run fg_step]. rewrite E. apply IH.
    + by_fuel 7%nat fuel H. first_step E. open_state m. run_accesses. reflexivity.
Qed.

(** X17: the calls of [step] are the calls of the program when no handler
    runs inside them.  Left alone, the accesses of a call, in the order of
    the source, end in the state and with the value that the function of
    the foreground API gives; and where that function waits for ever, as
    [fdserial_delay] does without the A-compare handler, they never reach
    the return. *)
Theorem uninterrupted_call_is_atomic
  (rb : option Z) (k : call) (fuel : nat) (m : mcu) :
  (29 <= fuel)%nat ->
  match call_result rb k m with
  | Some (r, m') => fg_run rb fuel (entry rb k) m = (Idle r, m')
  | None => forall j r, fst (fg_run rb j (entry rb k) m) <> Idle r
  end.
Proof.
  intros H. destruct k; cbn [call_result].
  - apply init_uninterrupted. exact H.
  - by_fuel 2%nat fuel H. unfold entry, fdserial_available.
    destruct rb; reflexivity.
  - by_fuel 1%nat fuel H. reflexivity.
  - pose proof (send_uninterrupted rb c fuel m ltac:(lia)) as S.
    destruct (fdserial_send c m); cbn [option_map]; [exact S|].
    intros j r. cbn [entry]. rewrite S. discriminate.
  - pose proof (recv_uninterrupted rb fuel m ltac:(lia)) as R.
    destruct (fdserial_recv rb m) as [[c m']|]; cbn [option_map fst snd];
      exact R.
  - pose proof (alarm_uninterrupted rb duration fuel m ltac:(lia)) as A.
    destruct (fdserial_alarm duration m); cbn [option_map]; [exact A|].
    intros j r. cbn [entry]. rewrite A. discriminate.
  - intros j r. apply delay_uninterrupted.
Qed.

Lemma uninterrupted_call_is_atomic_witness :
  let m := fdserial_init (Some 4) (reset_state 4) in
  (29 <= 29)%nat /\
  fg_run (Some 4) 29 (entry (Some 4) (K_send 85)) m =
    (Idle None,
     Mcu (set_tx_state 1 (set_send_byte 85 (set_send_ready 0 (fd_uart1 m))))
         (_start_tx (set_OCR1A (TCNT1 (io m)) (io m)))) /\
  forall j r, fst (fg_run (Some 4) j (entry (Some 4) K_recv) m) <> Idle r.
Proof.
  intros m.
  assert (H : (29 <= 29)%nat) by lia.
  split; [exact H|]. split.
  - exact (uninterrupted_call_is_atomic (Some 4) (K_send 85) 29 m H).
  - exact (uninterrupted_call_is_atomic (Some 4) K_recv 29 m H).
Defined.

End Uninterrupted.

(** ** The race on [rx_tail] *)

Section RingRace.

(** C10: the code does not keep [rx_tail] inside the ring.  In a ring of
    four bytes that is full with the tail at 2, [fdserial_recv] tests
    [rx_tail] against RING_BUFFER - 1 at line 227 and takes the branch of
    line 230; the B-compare handler then publishes a byte and, the ring
    being full, moves [rx_tail] to 3; the increment of line 230 makes it
    4, the size of the array.  The call returns 3, the byte that the
    overflow has dropped; the next calls read behind the array, and 254 of
    them return before [rx_tail] has come round to [rx_head].  With the
    stop bit sampled before the call, the same events leave [rx_tail] at
    0 and two bytes unread. *)
Theorem recv_race_moves_tail_out_of_ring :
  let s0 := (Idle None, fdserial_init (Some 4) (reset_state 4)) in
  (exists m,
     frun (Some 4) recv_race s0 = Some (Idle (Some 3), m) /\
     rx_head (fd_uart1 m) = 2 /\
     rx_tail (fd_uart1 m) = 4 /\
     length (rx_buf (fd_uart1 m)) = 4%nat /\
     ~ indices_in_range 4 m /\
     length (drain (Some 4) 300 m) = 254%nat) /\
  (exists m,
     frun (Some 4) recv_no_race s0 = Some (Idle (Some 4), m) /\
     rx_head (fd_uart1 m) = 2 /\
     rx_tail (fd_uart1 m) = 0 /\
     indices_in_range 4 m /\
     drain (Some 4) 300 m = [5; 6]).
Proof.
  cbv zeta. split.
  - destruct (frun (Some 4) recv_race
                (Idle None, fdserial_init (Some 4) (reset_state 4)))
      as [[p m]|] eqn:E; vm_compute in E; [|discriminate E].
    injection E as <- <-. eexists. split; [reflexivity|].
    split; [reflexivity|]. split; [reflexivity|]. split; [reflexivity|].
    split; [|vm_compute; reflexivity].
    unfold indices_in_range. cbn [fd_uart1 rx_head rx_tail]. lia.
  - destruct (frun (Some 4) recv_no_race
                (Idle None, fdserial_init (Some 4) (reset_state 4)))
      as [[p m]|] eqn:E; vm_compute in E; [|discriminate E].
    injection E as <- <-. eexists. split; [reflexivity|].
    split; [reflexivity|]. split; [reflexivity|].
    split; [|vm_compute; reflexivity].
    unfold indices_in_range. cbn [fd_uart1 rx_head rx_tail]. lia.
Qed.

End RingRace.

(** ** The interrupt enables with a pre-emptible foreground *)

Section Positions.

Lemma store_timsk_bits (v : Z) :
  Z.testbit (reg_or v (Z.shiftl 1 OCIE1A)) OCIE1A = true /\
  Z.testbit (reg_or v (Z.shiftl 1 OCIE1A)) OCIE1B = Z.testbit v OCIE1B.
Proof.
  rewrite !reg_or_spec by (unfold OCIE1A, OCIE1B; lia).
  split; [apply orb_true_r | apply orb_false_r].
Qed.



Lemma fstep_step_inv (rb : option Z) (p : fg) (m : mcu) (s' : fg * mcu) :
  fstep rb F_step (p, m) = Some s' -> s' = fg_step rb p m.
Proof.
  cbn [fstep]. destruct p; intros H; try discriminate H;
    injection H as <-; reflexivity.
Qed.




End Positions.

Section EnablesTheorems.



End EnablesTheorems.

(** ** The race on TIMSK *)

Section Deaf.

Lemma fg_step_deaf (rb : option Z) (m1 : mcu) (p : fg) (m : mcu) :
  deaf m1 p m -> deaf m1 (fst (fg_step rb p m)) (snd (fg_step rb p m)).
Proof.
  intros (Hin & E1 & E2 & V & S1 & S2 & S3 & S4).
  unfold deaf, rx_tick_enabled, edge_enabled in *.
  destruct p; try discriminate Hin; unfold fg_step;
    repeat match goal with
           | |- context [if ?a =? ?b then _ else _] => destruct (Z.eqb_spec a b)
           | |- context [match rb with Some _ => _ | None => _ end] => destruct rb
           | w : bool |- _ => destruct w
           end;
    cbn [fst snd in_init]; fields;
    try (rewrite (proj2 (store_timsk_bits v)));
    repeat (split; [solve [reflexivity | assumption]|]);
    solve [reflexivity | assumption | left; reflexivity].
Qed.

Lemma firq_deaf (rb : option Z) (m1 : mcu) (e : event) (p : fg) (m m' : mcu) :
  step rb e m = Some m' ->
  is_interrupt e = true ->
  deaf m1 p m -> deaf m1 p m'.
Proof.
  intros Hs Hi (Hin & E1 & E2 & V & S1 & S2 & S3 & S4).
  destruct e; try discriminate Hi; cbn [step] in Hs.
  - destruct (is_byte tcnt && is_byte pinb); inversion Hs; subst m'.
    exact (conj Hin (conj E1 (conj E2 (conj V
             (conj S1 (conj S2 (conj S3 S4))))))).
  - destruct (tx_tick_enabled m); inversion Hs; subst m'.
    destruct (compa_keeps_rx_io m) as (_ & Eb & Ee & Es & _).
    destruct (compa_keeps_rx m) as (Eh & _ & Ea & Ebuf). cbv zeta in Eh, Ea, Ebuf.
    unfold deaf. rewrite Eb, Ee, Es, Eh, Ea, Ebuf.
    split; [exact Hin|]. split; [exact E1|]. split; [exact E2|].
    split; [destruct p; try exact I; exact V|].
    repeat (split; [assumption|]). exact S4.
  - rewrite E2 in Hs. discriminate Hs.
  - rewrite E1 in Hs. discriminate Hs.
Qed.

Lemma frun_deaf (rb : option Z) (m1 : mcu) (es : list fevent) :
  forall s s',
    forallb not_init es = true ->
    frun rb es s = Some s' ->
    deaf m1 (fst s) (snd s) -> deaf m1 (fst s') (snd s').
Proof.
  induction es as [|ev es IH]; intros s s' Hn Hrun H; cbn [frun] in Hrun.
  - injection Hrun as <-. exact H.
  - cbn [forallb] in Hn. apply andb_true_iff in Hn as [Hn1 Hn2].
    destruct (fstep rb ev s) as [s1|] eqn:Es; [|discriminate Hrun].
    apply (IH s1 s' Hn2 Hrun). clear IH Hrun.
    destruct s as [p m]. cbn [fst snd] in H.
    destruct ev as [k| |e]; cbn [fstep] in Es.
    + destruct p; try discriminate Es. injection Es as <-. cbn [fst snd].
      destruct H as (_ & E1 & E2 & _ & S).
      destruct k; try discriminate Hn1; unfold entry; try destruct rb;
        (split; [reflexivity|]; split; [exact E1|]; split; [exact E2|];
         split; [exact I | exact S]).
    + apply fstep_step_inv in Es. subst s1. exact (fg_step_deaf rb m1 p m H).
    + destruct (is_interrupt e) eqn:Hi; [|discriminate Es].
      destruct (step rb e m) as [m2|] eqn:E; [|discriminate Es].
      injection Es as <-. cbn [fst snd].
      exact (firq_deaf rb m1 e p m m2 E Hi H).
Qed.

(** The run of [start_tx_race] from a state with the transmitter ready
    and the edge detector armed. *)
Lemma start_tx_race_run
  (rb : option Z) (c tcnt pinb : Z) (r0 : option Z) (m : mcu) :
  send_ready (fd_uart1 m) <> 0 ->
  edge_enabled m = true ->
  is_byte tcnt = true ->
  is_byte pinb = true ->
  frun rb (start_tx_race c tcnt pinb) (Idle r0, m) =
    Some (Idle None,
          Mcu (set_tx_state 1 (set_send_byte (u8 c) (set_send_ready 0 (fd_uart1 m))))
              (set_TIMSK (reg_or (TIMSK (io m)) (Z.shiftl 1 OCIE1A))
                 (io (ISR_INT0
                        (with_PINB pinb
                           (with_TCNT1 tcnt
                              (Mcu (fd_uart1 m)
                                   (set_OCR1A (TCNT1 (io m)) (io m))))))))).
Proof.
  intros Hr He Ht Hp. apply Z.eqb_neq in Hr.
  unfold edge_enabled in He.
  destruct m as [u r].
  destruct u as [sr ts sb sbits dl av rs rsh rbits rby rh rt rbuf].
  destruct r as [r1 r2 r3 r4 r5 r6 r7 r8 r9 r10 r11 r12 r13].
  cbn [fd_uart1 io send_ready GIMSK TIMSK TCNT1] in *.
  unfold start_tx_race, uninterrupted.
  cbn [repeat app frun fstep entry fg_step fd_uart1 io send_ready].
  rewrite Hr.
  cbn [frun fstep fg_step fd_uart1 io is_interrupt step].
  rewrite Ht, Hp. cbn [andb frun fstep is_interrupt step].
  unfold edge_enabled, with_PINB, with_TCNT1.
  cbn [fd_uart1 io GIMSK set_PINB set_TCNT1 set_OCR1A].
  rewrite He. reflexivity.
Qed.

(** X18: the race on TIMSK switches the receiver off.  [fdserial_send]
    sets OCIE1A by loading TIMSK, setting the bit and storing the result
    (line 82).  If a falling edge on the RX line is served between the
    load and the store, the store undoes the edge handler's enable of the
    B-compare tick while INT0 stays masked: from a state with the
    transmitter ready and the edge detector armed, the call returns with
    both masked.  They stay masked whatever the foreground, the hardware
    and the handlers do afterwards, short of a new [fdserial_init]: the
    receive engine does not leave its state, [rx_head] and [rx_buf] are not
    written again, and [available] is not set again. *)
Theorem start_tx_race_deafens_receiver
  (rb : option Z) (c tcnt pinb : Z) (r0 : option Z) (m : mcu) :
  send_ready (fd_uart1 m) <> 0 ->
  edge_enabled m = true ->
  rx_tick_enabled m = false ->
  is_byte tcnt = true ->
  is_byte pinb = true ->
  exists m1,
    frun rb (start_tx_race c tcnt pinb) (Idle r0, m) = Some (Idle None, m1) /\
    edge_enabled m1 = false /\
    rx_tick_enabled m1 = false /\
    tx_tick_enabled m1 = true /\
    rx_state (fd_uart1 m1) = rx_state (fd_uart1 m) /\
    forall es p' m',
      forallb not_init es = true ->
      frun rb es (Idle None, m1) = Some (p', m') ->
      edge_enabled m' = false /\
      rx_tick_enabled m' = false /\
      rx_state (fd_uart1 m') = rx_state (fd_uart1 m1) /\
      rx_head (fd_uart1 m') = rx_head (fd_uart1 m1) /\
      rx_buf (fd_uart1 m') = rx_buf (fd_uart1 m1) /\
      (available (fd_uart1 m') = 0 \/
       available (fd_uart1 m') = available (fd_uart1 m1)).
Proof.
  intros Hr He Hb Ht Hp.
  eexists. split; [exact (start_tx_race_run rb c tcnt pinb r0 m Hr He Ht Hp)|].
  match goal with |- edge_enabled ?x = _ /\ _ => set (m1 := x) end.
  assert (E1 : edge_enabled m1 = false).
  { subst m1. unfold edge_enabled. cbn [io GIMSK set_TIMSK].
    exact (proj1 (proj2 (int0_spec _))). }
  assert (E2 : rx_tick_enabled m1 = false).
  { subst m1. unfold rx_tick_enabled in *. cbn [io TIMSK set_TIMSK].
    rewrite (proj2 (store_timsk_bits _)). exact Hb. }
  assert (E3 : tx_tick_enabled m1 = true).
  { subst m1. unfold tx_tick_enabled. cbn [io TIMSK set_TIMSK].
    exact (proj1 (store_timsk_bits _)). }
  split; [exact E1|]. split; [exact E2|]. split; [exact E3|].
  split; [reflexivity|].
  intros es p' m' Hn Hrun.
  assert (D : deaf m1 (Idle None) m1).
  { split; [reflexivity|]. split; [exact E1|]. split; [exact E2|].
    split; [exact I|]. repeat (split; [reflexivity|]). right. reflexivity. }
  destruct (frun_deaf rb m1 es _ _ Hn Hrun D)
    as (_ & D1 & D2 & _ & D3 & D4 & D5 & D6).
  cbn [fst snd] in *. repeat (split; [assumption|]). exact D6.
Qed.

End Deaf.

Lemma start_tx_race_deafens_receiver_witness :
  let m := fdserial_init None (reset_state 0) in
  send_ready (fd_uart1 m) <> 0 /\
  edge_enabled m = true /\
  rx_tick_enabled m = false /\
  is_byte 50 = true /\
  is_byte 0 = true /\
  exists m1,
    frun None (start_tx_race 85 50 0) (Idle None, m) = Some (Idle None, m1) /\
    edge_enabled m1 = false /\
    rx_tick_enabled m1 = false /\
    frun None (frame_irqs 50 154 (frame_pins 65)) (Idle None, m1) = None /\
    match frun None (repeat (F_irq Irq_COMPA) 11 ++ uninterrupted K_sendok 1)
            (Idle None, m1) with
    | Some (p', m') =>
        p' = Idle (Some 1) /\ edge_enabled m' = false /\
        rx_tick_enabled m' = false
    | None => False
    end.
Proof.
  intros m.
  assert (H1 : send_ready (fd_uart1 m) <> 0) by (vm_compute; discriminate).
  assert (H2 : edge_enabled m = true) by reflexivity.
  assert (H3 : rx_tick_enabled m = false) by reflexivity.
  assert (H4 : is_byte 50 = true) by reflexivity.
  assert (H5 : is_byte 0 = true) by reflexivity.
  repeat (split; [assumption|]).
  destruct (start_tx_race_deafens_receiver None 85 50 0 None m H1 H2 H3 H4 H5)
    as (m1 & R & E1 & E2 & _ & _ & L).
  exists m1. split; [exact R|]. split; [exact E1|]. split; [exact E2|].
  vm_compute in R. injection R as <-.
  split; [vm_compute; reflexivity|].
  match goal with
  | |- match frun None ?es ?s with _ => _ end =>
      destruct (frun None es s) as [[p' m']|] eqn:E;
        [ destruct (L es p' m' eq_refl E) as (D1 & D2 & _);
          vm_compute in E; injection E as <- <-;
          split; [reflexivity | split; assumption]
        | vm_compute in E; discriminate E ]
  end.
Defined.

(** ** The ring indices with a pre-emptible foreground *)

Section RingPositions.

Variable n : Z.
Hypothesis n_range : 1 <= n <= 256.

Lemma fg_step_ring (p : fg) (m : mcu) :
  fg_ring n p m ->
  fg_ring n (fst (fg_step (Some n) p m)) (snd (fg_step (Some n) p m)).
Proof.
  unfold fg_ring, indices_in_range. intros ((Hh & Ht) & P).
  destruct p; unfold fg_step;
    repeat match goal with
           | |- context [if ?a =? ?b then _ else _] => destruct (Z.eqb_spec a b)
           | w : bool |- _ => destruct w
           end;
    cbn [fst snd]; fields;
    try (rewrite (u8_small (t + 1)) by lia);
    repeat split; solve [exact I | assumption | lia].
Qed.

Lemma firq_ring (e : event) (p : fg) (m m' : mcu) :
  step (Some n) e m = Some m' ->
  is_interrupt e = true ->
  tears_line_230 p (F_irq e) = false ->
  fg_ring n p m -> fg_ring n p m'.
Proof.
  intros Hs Hi Ht (Hr & P).
  split; [exact (step_indices n n_range e m m' Hs Hr)|].
  destruct p; try exact I; try exact P.
  destruct e; try discriminate Hi; try discriminate Ht; cbn [step] in Hs.
  - destruct (is_byte tcnt && is_byte pinb); inversion Hs; subst m'. exact P.
  - destruct (tx_tick_enabled m); inversion Hs; subst m'.
    destruct (compa_keeps_rx m) as (_ & E & _). cbv zeta in E.
    rewrite E. exact P.
  - destruct (edge_enabled m); inversion Hs; subst m'.
    destruct (int0_spec m) as (_ & _ & _ & _ & Hu). cbv zeta in Hu.
    rewrite Hu. exact P.
Qed.

Lemma frun_ring (es : list fevent) :
  forall s s',
    untorn tears_line_230 (Some n) es s = true ->
    frun (Some n) es s = Some s' ->
    fg_ring n (fst s) (snd s) -> fg_ring n (fst s') (snd s').
Proof.
  induction es as [|ev es IH]; intros s s' Hu Hrun H; cbn [frun] in Hrun.
  - injection Hrun as <-. exact H.
  - cbn [untorn] in Hu. apply andb_true_iff in Hu as [Hu1 Hu2].
    apply negb_true_iff in Hu1.
    destruct (fstep (Some n) ev s) as [s1|] eqn:Es; [|discriminate Hrun].
    apply (IH s1 s' Hu2 Hrun). clear IH Hrun Hu2.
    destruct s as [p m]. cbn [fst snd] in H, Hu1.
    destruct ev as [k| |e]; cbn [fstep] in Es.
    + destruct p; try discriminate Es. injection Es as <-. cbn [fst snd].
      destruct H as [Hr _]. split; [exact Hr|].
      destruct k; exact I.
    + apply fstep_step_inv in Es. subst s1. exact (fg_step_ring p m H).
    + destruct (is_interrupt e) eqn:Hi; [|discriminate Es].
      destruct (step (Some n) e m) as [m2|] eqn:E; [|discriminate Es].
      injection Es as <-. cbn [fst snd].
      exact (firq_ring e p m m2 E Hi Hu1 H).
Qed.

End RingPositions.

(** X9: the ring with a pre-empted foreground.  From [fdserial_init] on,
    in every schedule of calls, accesses, hardware changes and handlers
    but those that run the B-compare handler between the test of line 227
    and the load of line 230, both indices stay inside the array at every
    position of the foreground, so that at most RING_BUFFER - 1 bytes are
    unread, equal indices mean that none is, and [fdserial_available]
    stays below RING_BUFFER. *)
Theorem ring_indices_stay_inside
  (n : Z) (es : list fevent) (m0 : mcu) (p' : fg) (m' : mcu) :
  1 <= n <= 256 ->
  untorn tears_line_230 (Some n) es (Idle None, fdserial_init (Some n) m0) = true ->
  frun (Some n) es (Idle None, fdserial_init (Some n) m0) = Some (p', m') ->
  indices_in_range n m' /\
  Z.of_nat (length (unread n m')) =
    spec_available n (rx_head (fd_uart1 m')) (rx_tail (fd_uart1 m')) /\
  Z.of_nat (length (unread n m')) <= n - 1 /\
  (rx_head (fd_uart1 m') = rx_tail (fd_uart1 m') <-> unread n m' = []) /\
  0 <= fdserial_available (Some n) m' < n.
Proof.
  intros Hn Hu Hrun.
  assert (H0 : fg_ring n (Idle None) (fdserial_init (Some n) m0)).
  { split; [|exact I].
    destruct (init_fields (Some n) m0) as (_ & _ & _ & _ & _ & _ & R).
    destruct R as [Rh Rt]; [discriminate|]. cbv zeta in Rh, Rt.
    unfold indices_in_range. rewrite Rh, Rt. lia. }
  destruct (frun_ring n Hn es _ _ Hu Hrun H0) as [[Hh Ht] _].
  cbn [fst snd] in Hh, Ht.
  destruct (unread_length n Hn m' Hh Ht) as [L1 L2].
  split; [split; assumption|]. split; [exact L1|]. split; [exact L2|].
  split; [symmetry; apply unread_nil_iff; exact Hn|].
  exact (proj1 (available_ring n Hn m' Hh Ht)).
Qed.

Lemma ring_indices_stay_inside_witness :
  let es := frame_irqs 50 154 (frame_pins 1) ++
            frame_irqs 50 154 (frame_pins 2) ++
            frame_irqs 50 154 (frame_pins 3) ++
            frame_irqs 50 154 (removelast (frame_pins 4)) ++
            uninterrupted K_recv 6 ++
            [F_irq (Hardware 154 (pin_level true)); F_irq Irq_COMPB; F_step] in
  let s0 := (Idle None, fdserial_init (Some 4) (reset_state 4)) in
  1 <= 4 <= 256 /\
  untorn tears_line_230 (Some 4) es s0 = true /\
  match frun (Some 4) es s0 with
  | Some (p', m') =>
      p' = Idle (Some 1) /\
      indices_in_range 4 m' /\
      Z.of_nat (length (unread 4 m')) <= 3 /\
      0 <= fdserial_available (Some 4) m' < 4
  | None => False
  end.
Proof.
  intros es s0.
  assert (H1 : 1 <= 4 <= 256) by lia.
  assert (H2 : untorn tears_line_230 (Some 4) es s0 = true)
    by (vm_compute; reflexivity).
  split; [exact H1|]. split; [exact H2|].
  destruct (frun (Some 4) es s0) as [[p' m']|] eqn:E;
    [|vm_compute in E; discriminate E].
  destruct (ring_indices_stay_inside 4 es (reset_state 4) p' m' H1 H2 E)
    as (R1 & _ & R3 & _ & R5).
  vm_compute in E. injection E as <- <-.
  split; [reflexivity|]. split; [exact R1|]. split; [exact R3 | exact R5].
Defined.
